(** * WiredTiger session cache and per-session cursor cache

    A shallow embedding of [WiredTigerSession] and [WiredTigerSessionCache]
    (the wiredtiger_session_cache.cpp and wiredtiger_session_cache.h parts of
    src/mongo/db/pipeline/window_function/window_function_expression.cpp)
    together with the properties the design document states about them.

    Conventions.
    - Fixed-width C++ integers are [Z] with the wrap-around written out
      ([u32], [u64], [s32]).
    - Pointers ([WT_SESSION*], [WT_CURSOR*]) are [Z]; [nullptr] is [0].
    - The storage engine is an opaque collaborator: every call into it is
      answered by the environment [Env] and recorded as an [event].
    - A member function that may terminate the process ([invariant],
      [invariantWTOK], [LOGV2_FATAL]) or throw ([uassert]) returns an
      [outcome]; the events of a completed call are returned with its
      result.
    - Calls are atomic and run one after the other; where the source checks
      a value twice because another thread may act in between
      ([releaseSession]), what the other threads do is a parameter. *)

From Stdlib Require Import ZArith List Lia Bool.
From stdpp Require Import base decidable list gmap strings sorting.
Import ListNotations.

Local Open Scope Z_scope.

(** ** Machine integers *)

Definition u32 (x : Z) : Z := x mod 2 ^ 32.
Definition u64 (x : Z) : Z := x mod 2 ^ 64.
(** Two's complement [int]. *)
Definition s32 (x : Z) : Z := (x + 2 ^ 31) mod 2 ^ 32 - 2 ^ 31.

Definition INT32_MAX : Z := 2 ^ 31 - 1.

(** ** Pointers, time, status codes *)

Definition WT_SESSION := Z.
Definition WT_CURSOR := Z.
Definition nullptr : Z := 0.

(** Modelled from the spec: [Date_t] and [Milliseconds] (mongo/util/time_support.h,
    mongo/util/duration.h) are not part of the sources at hand. A [Date_t] is a
    count of milliseconds, [Date_t::min()] is the least 64-bit value and serves
    as the "never" marker, and subtracting a duration is integer subtraction. *)
Definition Date_t := Z.
Definition Date_t_min : Date_t := - 2 ^ 63.

(** <cerrno> values of the two distinguished open-cursor results. *)
Definition ENOENT : Z := 2.
Definition EBUSY : Z := 16.

(** Modelled from the spec: [Status] and [ErrorCodes] (mongo/base) are not part
    of the sources at hand. A status is a numeric code with a reason; code [0]
    is [Status::OK()]; [CursorNotFound] is a code of its own. *)
Record Status := mkStatus { code : Z; reason : string }.
Definition ErrorCodes_OK : Z := 0.
Definition ErrorCodes_CursorNotFound : Z := 43.
Definition isOK (st : Status) : bool := code st =? ErrorCodes_OK.

(** What a thrown [DBException] carries. *)
Inductive DBException :=
| StatusException (st : Status)
    (* uassertStatusOK(st) on a status that is not OK *)
| UAsserted (errorCode : Z) (why : Status) (uri : string) (config : option string).
    (* uasserted(errorCode, "... Reason: " << why << ", uri: " << uri << ", config: " << config) *)

(** Ways in which the process is terminated. *)
Inductive Termination :=
| InvariantFailure (what : string)
| InvariantWTFailure (rc : Z)
| LogFatal (id : Z) (uri : string) (config : option string) (error : Status)
    (message : string).

Definition kWTRepairMsg : string :=
  "Please read the documentation for starting MongoDB with --repair here: http://dochub.mongodb.org/core/repair".

(** ** Outcomes *)

Inductive outcome (A : Type) :=
| Ok (a : A)
| Throw (e : DBException)
| Abort (t : Termination)
| Spin.
    (* a busy-wait whose exit condition only another thread can establish *)
Arguments Ok {A} a.
Arguments Throw {A} e.
Arguments Abort {A} t.
Arguments Spin {A}.

(** ** Cached cursors and sessions: the data *)

Record WiredTigerCachedCursor := mkCachedCursor {
  _id : Z;            (* uint64_t: source id, assigned to each URI *)
  _gen : Z;           (* uint64_t: generation, used to age out old cursors *)
  _cursor : WT_CURSOR;
  _config : string    (* cursor config *)
}.

(** [std::list<WiredTigerCachedCursor>], front first. *)
Definition CursorCache := list WiredTigerCachedCursor.

Module WiredTigerSession.

Record t := mk {
  _epoch : Z;                        (* const uint64_t *)
  _session : WT_SESSION;             (* owned *)
  _cursors : CursorCache;            (* owned *)
  _cursorGen : Z;                    (* uint64_t *)
  _cursorsOut : Z;                   (* int *)
  _idleExpireTime : Date_t;
  _undoConfigStrings : gset string   (* stdx::unordered_set<std::string> *)
}.

Definition cursorsOut (s : t) : Z := _cursorsOut s.
Definition cachedCursors (s : t) : Z := Z.of_nat (length (_cursors s)).
Definition getSession (s : t) : WT_SESSION := _session s.
Definition getIdleExpireTime (s : t) : Date_t := _idleExpireTime s.
Definition _getEpoch (s : t) : Z := _epoch s.

Definition setIdleExpireTime (idleExpireTime : Date_t) (s : t) : t :=
  mk (_epoch s) (_session s) (_cursors s) (_cursorGen s) (_cursorsOut s)
     idleExpireTime (_undoConfigStrings s).

Definition set_session (ss : WT_SESSION) (s : t) : t :=
  mk (_epoch s) ss (_cursors s) (_cursorGen s) (_cursorsOut s)
     (_idleExpireTime s) (_undoConfigStrings s).

Definition set_cursors (cs : CursorCache) (s : t) : t :=
  mk (_epoch s) (_session s) cs (_cursorGen s) (_cursorsOut s)
     (_idleExpireTime s) (_undoConfigStrings s).

Definition set_cursorGen (g : Z) (s : t) : t :=
  mk (_epoch s) (_session s) (_cursors s) g (_cursorsOut s)
     (_idleExpireTime s) (_undoConfigStrings s).

Definition set_cursorsOut (n : Z) (s : t) : t :=
  mk (_epoch s) (_session s) (_cursors s) (_cursorGen s) n
     (_idleExpireTime s) (_undoConfigStrings s).

Definition set_undoConfigStrings (u : gset string) (s : t) : t :=
  mk (_epoch s) (_session s) (_cursors s) (_cursorGen s) (_cursorsOut s)
     (_idleExpireTime s) u.

End WiredTigerSession.

(** ** Events: calls into the engine and other observable effects *)

Inductive event :=
| EvOpenSession (config : string)
| EvOpenCursor (ss : WT_SESSION) (uri : string) (config : option string)
| EvCursorReset (c : WT_CURSOR)
| EvCursorClose (c : WT_CURSOR)
| EvSessionReconfigure (ss : WT_SESSION) (config : string)
| EvSessionReset (ss : WT_SESSION)
| EvSessionClose (ss : WT_SESSION)
| EvPinnedRange (ss : WT_SESSION)
| EvDelete (s : WiredTigerSession.t)
| EvSizeStorerPeriodicFlush.

(** ** The monad of member functions *)

Definition M (A : Type) : Type := outcome (list event * A).

Definition ret {A} (a : A) : M A := Ok ([], a).

Definition bind {A B} (m : M A) (k : A -> M B) : M B :=
  match m with
  | Ok (evs, a) =>
      match k a with
      | Ok (evs', b) => Ok (evs ++ evs', b)
      | Throw e => Throw e
      | Abort t => Abort t
      | Spin => Spin
      end
  | Throw e => Throw e
  | Abort t => Abort t
  | Spin => Spin
  end.

Notation "'do' x <- m ; k" := (bind m (fun x => k))
  (at level 10, x pattern, m at level 100, k at level 200).
Notation "m ;; k" := (bind m (fun _ => k))
  (at level 100, k at level 200, right associativity).

Definition emit (e : event) : M unit := Ok ([e], tt).
Definition throw {A} (e : DBException) : M A := Throw e.

(** [invariant(cond)] *)
Definition invariant (cond : bool) (what : string) : M unit :=
  if cond then ret tt else Abort (InvariantFailure what).

(** [invariantWTOK(rc, session)]: the engine call must have returned 0. *)
Definition invariantWTOK (rc : Z) : M unit :=
  if rc =? 0 then ret tt else Abort (InvariantWTFailure rc).

(** [uassertStatusOK(status)] *)
Definition uassertStatusOK (st : Status) : M unit :=
  if isOK st then ret tt else throw (StatusException st).

(** ** The environment: engine answers, clock, tunable *)

Record Env := mkEnv {
  (* WT_CONNECTION::open_session: return code and session handle *)
  open_session : Z * WT_SESSION;
  (* WT_SESSION::open_cursor: return code and cursor handle *)
  open_cursor : WT_SESSION -> string -> option string -> Z * WT_CURSOR;
  cursor_reset : WT_CURSOR -> Z;
  cursor_close : WT_CURSOR -> Z;
  cursor_uri : WT_CURSOR -> string;
  session_reconfigure : WT_SESSION -> string -> Z;
  session_reset : WT_SESSION -> Z;
  session_close : WT_SESSION -> Z;
  (* WT_SESSION::transaction_pinned_range: return code and range *)
  transaction_pinned_range : WT_SESSION -> Z * Z;
  (* wtRCToStatus (wiredtiger_error_util.h), not part of the sources at hand *)
  wtRCToStatus : Z -> WT_SESSION -> Status;
  (* _clockSource->now() *)
  now : Date_t;
  (* gWiredTigerCursorCacheSize.load(), an int *)
  gWiredTigerCursorCacheSize : Z
}.

(** ** The session cache: the data *)

Module WiredTigerSessionCache.

Record t := mk {
  (* AtomicWord<unsigned>: the low 31 bits are a count of active calls that
     need to block shutdown, the high bit is set iff we are shutting down *)
  _shuttingDown : Z;
  (* std::vector<WiredTigerSession*>, back last *)
  _sessions : list WiredTigerSession.t;
  (* AtomicWord<unsigned long long>: bumped when all open sessions need to be closed *)
  _epoch : Z;
  (* AtomicWord<std::uint64_t> *)
  _prepareCommitOrAbortCounter : Z;
  (* whether the WiredTigerKVEngine pointer is set ("not owned, might be NULL") *)
  _engine : bool
}.

(** [static const uint32_t kShuttingDownMask = 1 << 31] *)
Definition kShuttingDownMask : Z := Z.shiftl 1 31.

Definition set_shuttingDown (w : Z) (c : t) : t :=
  mk w (_sessions c) (_epoch c) (_prepareCommitOrAbortCounter c) (_engine c).

Definition set_sessions (ss : list WiredTigerSession.t) (c : t) : t :=
  mk (_shuttingDown c) ss (_epoch c) (_prepareCommitOrAbortCounter c) (_engine c).

Definition set_epoch (e : Z) (c : t) : t :=
  mk (_shuttingDown c) (_sessions c) e (_prepareCommitOrAbortCounter c) (_engine c).

Definition set_prepareCommitOrAbortCounter (n : Z) (c : t) : t :=
  mk (_shuttingDown c) (_sessions c) (_epoch c) n (_engine c).

(** [WiredTigerSessionCache::isShuttingDown] *)
Definition isShuttingDown (c : t) : bool :=
  negb (Z.land (_shuttingDown c) kShuttingDownMask =? 0).

(** The count kept in the low 31 bits. *)
Definition blockers (c : t) : Z :=
  Z.land (_shuttingDown c) (u32 (Z.lnot kShuttingDownMask)).

(** [BlockShutdown::BlockShutdown]: [_cache->_shuttingDown.fetchAndAdd(1)] *)
Definition BlockShutdown_enter (c : t) : t :=
  set_shuttingDown (u32 (_shuttingDown c + 1)) c.

(** [BlockShutdown::~BlockShutdown]: [_cache->_shuttingDown.fetchAndSubtract(1)] *)
Definition BlockShutdown_exit (c : t) : t :=
  set_shuttingDown (u32 (_shuttingDown c - 1)) c.

(** [WiredTigerSessionCache::restart] *)
Definition restart (c : t) : t :=
  set_shuttingDown (Z.land (_shuttingDown c) (u32 (Z.lnot kShuttingDownMask))) c.

(** [WiredTigerSessionCache::isEngineCachingCursors] *)
Definition isEngineCachingCursors (env : Env) : bool :=
  gWiredTigerCursorCacheSize env <=? 0.

(** [WiredTigerSessionCache::getIdleSessionsCount] *)
Definition getIdleSessionsCount (c : t) : Z := Z.of_nat (length (_sessions c)).

(** [WiredTigerSessionCache::getPrepareCommitOrAbortCount] *)
Definition getPrepareCommitOrAbortCount (c : t) : Z :=
  _prepareCommitOrAbortCounter c.

(** [WiredTigerSessionCache::notifyPreparedUnitOfWorkHasCommittedOrAborted] *)
Definition notifyPreparedUnitOfWorkHasCommittedOrAborted (c : t) : t :=
  set_prepareCommitOrAbortCounter (u64 (_prepareCommitOrAbortCounter c + 1)) c.

(** The cache as its constructor leaves it. *)
Definition create (engine : bool) : t := mk 0 [] 0 0 engine.

End WiredTigerSessionCache.

(** ** WiredTigerSession: member functions *)

Module Session.
Import WiredTigerSession.

Section WithEnv.
Variable env : Env.

(** [WiredTigerSession::~WiredTigerSession] *)
Definition destroy (s : t) : M unit :=
  (if negb (_session s =? nullptr)
   then emit (EvSessionClose (_session s)) ;;
        invariantWTOK (session_close env (_session s))
   else ret tt) ;;
  emit (EvDelete s).

(** [_openCursor] (anonymous namespace) *)
Definition _openCursor (session : WT_SESSION) (uri : string)
    (config : option string) : M WT_CURSOR :=
  emit (EvOpenCursor session uri config) ;;
  let '(rc, cursorOut) := open_cursor env session uri config in
  if rc =? 0 then ret cursorOut
  else
    let status := wtRCToStatus env rc session in
    (if rc =? EBUSY then uassertStatusOK status
     else if rc =? ENOENT then
       throw (UAsserted ErrorCodes_CursorNotFound status uri config)
     else ret tt) ;;
    Abort (LogFatal 50882 uri config status kWTRepairMsg).

(** The scan of [getCachedCursor]: the first entry with this id and this
    exact configuration string, and the list without it. *)
Fixpoint findCursor (id : Z) (config : string) (cs : CursorCache)
    : option (WT_CURSOR * CursorCache) :=
  match cs with
  | [] => None
  | i :: rest =>
      if (_id i =? id) && bool_decide (_config i = config)
      then Some (_cursor i, rest)
      else match findCursor id config rest with
           | Some (c, rest') => Some (c, i :: rest')
           | None => None
           end
  end.

(** [WiredTigerSession::getCachedCursor] *)
Definition getCachedCursor (id : Z) (config : string) (s : t)
    : WT_CURSOR * t :=
  match findCursor id config (_cursors s) with
  | Some (c, rest) =>
      (c, set_cursorsOut (s32 (_cursorsOut s + 1)) (set_cursors rest s))
  | None => (nullptr, s)
  end.

(** [WiredTigerSession::getNewCursor] *)
Definition getNewCursor (uri : string) (config : option string) (s : t)
    : M (WT_CURSOR * t) :=
  do cursor <- _openCursor (_session s) uri config;
  ret (cursor, set_cursorsOut (s32 (_cursorsOut s + 1)) s).

(** The eviction loop of [releaseCursor], on the list read from its back:
    [while (!_cursors.empty() && _cursorGen - _cursors.back()._gen > cacheSize)]. *)
Fixpoint evictFromBack (cursorGen cacheSize : Z)
    (backFirst : list WiredTigerCachedCursor)
    : M (list WiredTigerCachedCursor) :=
  match backFirst with
  | [] => ret []
  | back :: more =>
      if u64 (cursorGen - _gen back) >? cacheSize
      then emit (EvCursorClose (_cursor back)) ;;
           invariantWTOK (cursor_close env (_cursor back)) ;;
           evictFromBack cursorGen cacheSize more
      else ret backFirst
  end.

Definition evict (cursorGen cacheSize : Z) (cs : CursorCache) : M CursorCache :=
  do kept <- evictFromBack cursorGen cacheSize (rev cs);
  ret (rev kept).

(** The body of [releaseCursor] once the shutdown check has passed. *)
Definition releaseCursorBody (id : Z) (cursor : WT_CURSOR) (config : string)
    (s : t) : M t :=
  invariant (negb (_session s =? nullptr)) "_session" ;;
  invariant (negb (cursor =? nullptr)) "cursor" ;;
  let s := set_cursorsOut (s32 (_cursorsOut s - 1)) s in
  emit (EvCursorReset cursor) ;;
  invariantWTOK (cursor_reset env cursor) ;;
  (* Cursors are pushed to the front of the list and removed from the back *)
  let s := set_cursorGen (u64 (_cursorGen s + 1))
             (set_cursors
                (mkCachedCursor id (_cursorGen s) cursor config :: _cursors s) s) in
  (* A negative value for wiredTigercursorCacheSize means to use hybrid caching. *)
  let cacheSize := u32 (Z.abs (gWiredTigerCursorCacheSize env)) in
  do kept <- evict (_cursorGen s) cacheSize (_cursors s);
  ret (set_cursors kept s).

(** [WiredTigerSession::releaseCursor], on the session and the cache
    [_cache] points to. *)
Definition releaseCursor (id : Z) (cursor : WT_CURSOR) (config : string)
    (cs : WiredTigerSessionCache.t * t) : M (WiredTigerSessionCache.t * t) :=
  let '(cache, s) := cs in
  let cache := WiredTigerSessionCache.BlockShutdown_enter cache in
  (* Avoids the cursor already being destroyed during the shutdown. *)
  if WiredTigerSessionCache.isShuttingDown cache
  then ret (WiredTigerSessionCache.BlockShutdown_exit cache, s)
  else
    do s <- releaseCursorBody id cursor config s;
    ret (WiredTigerSessionCache.BlockShutdown_exit cache, s).

(** [WiredTigerSession::closeCursor] *)
Definition closeCursor (cursor : WT_CURSOR) (s : t) : M t :=
  invariant (negb (_session s =? nullptr)) "_session" ;;
  invariant (negb (cursor =? nullptr)) "cursor" ;;
  let s := set_cursorsOut (s32 (_cursorsOut s - 1)) s in
  emit (EvCursorClose cursor) ;;
  invariantWTOK (cursor_close env cursor) ;;
  ret s.

(** The loop of [closeAllCursors]. *)
Fixpoint closeMatching (all : bool) (uri : string) (cs : CursorCache)
    : M CursorCache :=
  match cs with
  | [] => ret []
  | i :: rest =>
      let cursor := _cursor i in
      if negb (cursor =? nullptr)
         && (all || bool_decide (uri = cursor_uri env cursor))
      then emit (EvCursorClose cursor) ;;
           invariantWTOK (cursor_close env cursor) ;;
           closeMatching all uri rest
      else do rest' <- closeMatching all uri rest;
           ret (i :: rest')
  end.

(** [WiredTigerSession::closeAllCursors] *)
Definition closeAllCursors (uri : string) (s : t) : M t :=
  invariant (negb (_session s =? nullptr)) "_session" ;;
  let all := bool_decide (uri = EmptyString) in
  do kept <- closeMatching all uri (_cursors s);
  ret (set_cursors kept s).

(** [WiredTigerSession::reconfigure] *)
Definition reconfigure (newConfig undoConfig : string) (s : t) : M t :=
  let s :=
    if bool_decide (newConfig = undoConfig)
    then set_undoConfigStrings (_undoConfigStrings s ∖ {[undoConfig]}) s
    else set_undoConfigStrings ({[undoConfig]} ∪ _undoConfigStrings s) s in
  let wtSession := getSession s in
  emit (EvSessionReconfigure wtSession newConfig) ;;
  invariantWTOK (session_reconfigure env wtSession newConfig) ;;
  ret s.

(** The loop of [resetSessionConfiguration]. *)
Fixpoint applyUndo (wtSession : WT_SESSION) (undo : list string) : M unit :=
  match undo with
  | [] => ret tt
  | undoConfigString :: more =>
      emit (EvSessionReconfigure wtSession undoConfigString) ;;
      invariantWTOK (session_reconfigure env wtSession undoConfigString) ;;
      applyUndo wtSession more
  end.

(** [WiredTigerSession::resetSessionConfiguration]. The iteration order of
    the unordered set is the order of [elements]. *)
Definition resetSessionConfiguration (s : t) : M t :=
  let wtSession := getSession s in
  applyUndo wtSession (elements (_undoConfigStrings s)) ;;
  ret (set_undoConfigStrings ∅ s).

End WithEnv.
End Session.

(** ** WiredTigerSessionCache: member functions *)

Module Cache.
Import WiredTigerSessionCache.

Section WithEnv.
Variable env : Env.

Fixpoint destroyAll (ss : list WiredTigerSession.t) : M unit :=
  match ss with
  | [] => ret tt
  | session :: more => Session.destroy env session ;; destroyAll more
  end.

(** The part of [closeAll] under [_cacheLock]: bump the epoch, swap the
    pool out. *)
Definition closeAll_locked (c : t) : t :=
  set_sessions [] (set_epoch (u64 (_epoch c + 1)) c).

(** [WiredTigerSessionCache::closeAll] *)
Definition closeAll (c : t) : M t :=
  let swap := _sessions c in
  let c := closeAll_locked c in
  destroyAll swap ;;
  ret c.

(** [WiredTigerSessionCache::shuttingDown] *)
Definition shuttingDown (c : t) : M t :=
  (* Try to atomically set _shuttingDown flag, but just return if another
     thread was first. *)
  let old := _shuttingDown c in
  let c := set_shuttingDown (Z.lor old kShuttingDownMask) c in
  if negb (Z.land old kShuttingDownMask =? 0) then ret c
  else
    (* Spin as long as there are threads blocking shutdown. *)
    if negb (_shuttingDown c =? kShuttingDownMask) then Spin
    else closeAll c.

(** The loop of [closeAllCursors]. *)
Fixpoint closeAllCursorsIn (uri : string) (ss : list WiredTigerSession.t)
    : M (list WiredTigerSession.t) :=
  match ss with
  | [] => ret []
  | i :: more =>
      do i' <- Session.closeAllCursors env uri i;
      do more' <- closeAllCursorsIn uri more;
      ret (i' :: more')
  end.

(** [WiredTigerSessionCache::closeAllCursors] *)
Definition closeAllCursors (uri : string) (c : t) : M t :=
  do ss <- closeAllCursorsIn uri (_sessions c);
  ret (set_sessions ss c).

(** The loop of [closeExpiredIdleSessions] under [_cacheLock]: the sessions
    that stay and [sessionsToClose], both in pool order. *)
Fixpoint sweepIdle (cutoffTime : Date_t) (ss : list WiredTigerSession.t)
    : M (list WiredTigerSession.t * list WiredTigerSession.t) :=
  match ss with
  | [] => ret ([], [])
  | session :: more =>
      invariant
        (negb (WiredTigerSession.getIdleExpireTime session =? Date_t_min))
        "session->getIdleExpireTime() != Date_t::min()" ;;
      do (kept, sessionsToClose) <- sweepIdle cutoffTime more;
      if WiredTigerSession.getIdleExpireTime session <? cutoffTime
      then ret (kept, session :: sessionsToClose)
      else ret (session :: kept, sessionsToClose)
  end.

(** [WiredTigerSessionCache::closeExpiredIdleSessions] *)
Definition closeExpiredIdleSessions (idleTimeMillis : Z) (c : t) : M t :=
  (* Do nothing if session close idle time is set to 0 or less *)
  if idleTimeMillis <=? 0 then ret c
  else
    let cutoffTime := now env - idleTimeMillis in
    do (kept, sessionsToClose) <- sweepIdle cutoffTime (_sessions c);
    let c := set_sessions kept c in
    destroyAll sessionsToClose ;;
    ret c.

(** [WiredTigerSession::WiredTigerSession(conn, cache, epoch)] *)
Definition newSession (epoch : Z) : M WiredTigerSession.t :=
  emit (EvOpenSession "isolation=snapshot") ;;
  let '(rc, session) := open_session env in
  invariantWTOK rc ;;
  ret (WiredTigerSession.mk epoch session [] 0 0 Date_t_min ∅).

(** [WiredTigerSessionCache::getSession] *)
Definition getSession (c : t) : M (t * WiredTigerSession.t) :=
  invariant (Z.land (_shuttingDown c) kShuttingDownMask =? 0)
    "!(_shuttingDown.load() & kShuttingDownMask)" ;;
  match rev (_sessions c) with
  | cachedSession :: below =>
      (* Get the most recently used session *)
      let c := set_sessions (rev below) c in
      ret (c, WiredTigerSession.setIdleExpireTime Date_t_min cachedSession)
  | [] =>
      do fresh <- newSession (_epoch c);
      ret (c, fresh)
  end.

(** [WiredTigerSessionCache::releaseSession]. Between the epoch check made
    outside the lock and the one made under it other threads may act on
    the cache; [racing] is what they do to it. The session is a value here,
    so [invariant(session)] has nothing to check. *)
Definition releaseSession_racing (racing : t -> t)
    (session : WiredTigerSession.t) (c : t) : M t :=
  (* We might have skipped releasing some cursors during the shutdown. *)
  invariant ((WiredTigerSession.cursorsOut session =? 0) || isShuttingDown c)
    "session->cursorsOut() == 0 || isShuttingDown()" ;;
  let c := BlockShutdown_enter c in
  if isShuttingDown c then
    (* Prevents calling _session->close() in destructor. *)
    let session := WiredTigerSession.set_session nullptr session in
    Session.destroy env session ;;
    ret (BlockShutdown_exit c)
  else
    let ss := WiredTigerSession.getSession session in
    emit (EvPinnedRange ss) ;;
    let '(rc, range) := transaction_pinned_range env ss in
    invariantWTOK rc ;;
    invariant (range =? 0) "range == 0" ;;
    (* If we are using hybrid caching, then close cursors now and let them
       be cached at the WiredTiger level. *)
    do session <- (if gWiredTigerCursorCacheSize env <? 0
                   then Session.closeAllCursors env EmptyString session
                   else ret session);
    do session <- Session.resetSessionConfiguration env session;
    emit (EvSessionReset ss) ;;
    invariantWTOK (session_reset env ss) ;;
    let currentEpoch := _epoch c in
    (* Set the time this session got idle at. *)
    let session := WiredTigerSession.setIdleExpireTime (now env) session in
    do (returnedToCache, c) <-
      (if WiredTigerSession._getEpoch session =? currentEpoch
       then (* check outside of lock to reduce contention *)
         let c := racing c in
         if WiredTigerSession._getEpoch session =? _epoch c
         then (* recheck inside the lock for correctness *)
           ret (true, set_sessions (_sessions c ++ [session]) c)
         else ret (false, c)
       else
         invariant (WiredTigerSession._getEpoch session <? currentEpoch)
           "session->_getEpoch() < currentEpoch" ;;
         ret (false, c));
    (if negb returnedToCache then Session.destroy env session else ret tt) ;;
    (if _engine c then emit EvSizeStorerPeriodicFlush else ret tt) ;;
    ret (BlockShutdown_exit c).

Definition releaseSession (session : WiredTigerSession.t) (c : t) : M t :=
  releaseSession_racing (fun c => c) session c.

End WithEnv.
End Cache.

(** ** Shutdown-blocking scopes as steps on the shared word *)

Inductive scopeStep := Enter | Exit.

Definition scopeStep_apply (c : WiredTigerSessionCache.t) (st : scopeStep)
    : WiredTigerSessionCache.t :=
  match st with
  | Enter => WiredTigerSessionCache.BlockShutdown_enter c
  | Exit => WiredTigerSessionCache.BlockShutdown_exit c
  end.

Definition runScopes (steps : list scopeStep) (c : WiredTigerSessionCache.t)
    : WiredTigerSessionCache.t :=
  fold_left scopeStep_apply steps c.

(** Starting with [n] scopes in flight, every exit matches a scope that is in
    flight and fewer than [2^31] scopes are in flight at any time. *)
Fixpoint scopesInRange (n : Z) (steps : list scopeStep) : bool :=
  match steps with
  | [] => true
  | Enter :: more => (n + 1 <? 2 ^ 31) && scopesInRange (n + 1) more
  | Exit :: more => (0 <? n) && scopesInRange (n - 1) more
  end.

Fixpoint scopesNet (steps : list scopeStep) : Z :=
  match steps with
  | [] => 0
  | Enter :: more => 1 + scopesNet more
  | Exit :: more => scopesNet more - 1
  end.

(** An environment in which every engine call succeeds; the cursor-cache size
    and the clock reading are given. *)
Definition env_ok (cacheSize : Z) (clock : Date_t) : Env :=
  {| open_session := (0, 4096);
     open_cursor := fun _ _ _ => (0, 8192);
     cursor_reset := fun _ => 0;
     cursor_close := fun _ => 0;
     cursor_uri := fun _ => "table:t";
     session_reconfigure := fun _ _ => 0;
     session_reset := fun _ => 0;
     session_close := fun _ => 0;
     transaction_pinned_range := fun _ => (0, 0);
     wtRCToStatus := fun rc _ => mkStatus (if rc =? 0 then 0 else rc + 1000) "";
     now := clock;
     gWiredTigerCursorCacheSize := cacheSize |}.

(** An environment whose [open_cursor] returns [rc]. *)
Definition env_open_rc (rc : Z) : Env :=
  {| open_session := open_session (env_ok 0 0);
     open_cursor := fun _ _ _ => (rc, if rc =? 0 then 8192 else nullptr);
     cursor_reset := cursor_reset (env_ok 0 0);
     cursor_close := cursor_close (env_ok 0 0);
     cursor_uri := cursor_uri (env_ok 0 0);
     session_reconfigure := session_reconfigure (env_ok 0 0);
     session_reset := session_reset (env_ok 0 0);
     session_close := session_close (env_ok 0 0);
     transaction_pinned_range := transaction_pinned_range (env_ok 0 0);
     wtRCToStatus := wtRCToStatus (env_ok 0 0);
     now := 0;
     gWiredTigerCursorCacheSize := 0 |}.

(** A session as [getSession] creates it, on engine handle [ss]. *)
Definition freshSession (epoch : Z) (ss : WT_SESSION) : WiredTigerSession.t :=
  WiredTigerSession.mk epoch ss [] 0 0 Date_t_min ∅.

(** ** Sequences of reconfigurations *)

(** [reconfigure(new_1, undo_1); ...; reconfigure(new_n, undo_n)] *)
Fixpoint reconfigureAll (env : Env) (calls : list (string * string))
    (s : WiredTigerSession.t) : M WiredTigerSession.t :=
  match calls with
  | [] => ret s
  | (newConfig, undoConfig) :: more =>
      do s <- Session.reconfigure env newConfig undoConfig s;
      reconfigureAll env more s
  end.

(** The undo set as the design document describes it: each call records its
    undo string, unless the new configuration is that same string, in which
    case the undo string is removed from the set. *)
Fixpoint undoSetAfter (calls : list (string * string)) (undo : gset string)
    : gset string :=
  match calls with
  | [] => undo
  | (newConfig, undoConfig) :: more =>
      undoSetAfter more
        (if decide (newConfig = undoConfig)
         then undo ∖ {[undoConfig]}
         else undo ∪ {[undoConfig]})
  end.

(** The configuration strings handed to the engine's [reconfigure]. *)
Fixpoint reconfigured (evs : list event) : list string :=
  match evs with
  | [] => []
  | EvSessionReconfigure _ config :: more => config :: reconfigured more
  | _ :: more => reconfigured more
  end.

(** ** Ages of cached cursors *)

(** How many releases ago the entry was cached, as the eviction loop computes
    it: [_cursorGen - _gen] in 64-bit unsigned arithmetic. *)
Definition age (cursorGen : Z) (c : WiredTigerCachedCursor) : Z :=
  u64 (cursorGen - _gen c).

(** From the front to the back of the list the ages grow strictly, from
    above [lo]. *)
Fixpoint agesAbove (lo cursorGen : Z) (cs : CursorCache) : Prop :=
  match cs with
  | [] => True
  | c :: more => lo < age cursorGen c /\ agesAbove (age cursorGen c) cursorGen more
  end.

(** The cursor list is ordered by age, youngest first, and no entry is older
    than [limit]. *)
Definition cacheAged (limit : Z) (s : WiredTigerSession.t) : Prop :=
  agesAbove 0 (WiredTigerSession._cursorGen s) (WiredTigerSession._cursors s)
  /\ Forall (fun c => age (WiredTigerSession._cursorGen s) c <= limit)
       (WiredTigerSession._cursors s).

Definition closeEvents (cs : list WiredTigerCachedCursor) : list event :=
  map (fun c => EvCursorClose (_cursor c)) cs.

(** The handles held by the cursor list. *)
Definition handles (cs : CursorCache) : list WT_CURSOR := map _cursor cs.

(** [releaseCursor(id_1, h_1, cfg_1); ...; releaseCursor(id_n, h_n, cfg_n)] *)
Fixpoint releaseAll (env : Env) (calls : list (Z * WT_CURSOR * string))
    (st : WiredTigerSessionCache.t * WiredTigerSession.t)
    : M (WiredTigerSessionCache.t * WiredTigerSession.t) :=
  match calls with
  | [] => ret st
  | (id, cursor, config) :: more =>
      do st <- Session.releaseCursor env id cursor config st;
      releaseAll env more st
  end.

(** ** Idle sessions *)

(** The sessions destroyed, in order. *)
Fixpoint deleted (evs : list event) : list WiredTigerSession.t :=
  match evs with
  | [] => []
  | EvDelete s :: more => s :: deleted more
  | _ :: more => deleted more
  end.

(** How long a pooled session has been idle at the time of the sweep. *)
Definition idleFor (env : Env) (s : WiredTigerSession.t) : Z :=
  now env - WiredTigerSession.getIdleExpireTime s.

Definition expiredBefore (cutoffTime : Date_t) (s : WiredTigerSession.t) : bool :=
  WiredTigerSession.getIdleExpireTime s <? cutoffTime.

(** ** Calls on the cache, in sequence *)

Inductive Op :=
| OpGetSession
| OpReleaseSession (session : WiredTigerSession.t)
| OpCloseAll
| OpCloseExpiredIdleSessions (idleTimeMillis : Z)
| OpCloseAllCursors (uri : string)
| OpShuttingDown
| OpRestart
| OpNotifyPreparedUnitOfWorkHasCommittedOrAborted
| OpReleaseCursor (id : Z) (cursor : WT_CURSOR) (config : string)
    (session : WiredTigerSession.t).

(** One call; a [getSession] hands a session out. [releaseCursor] is a call
    on a session that is checked out; of its effects only those on the cache
    (the shutdown word) are kept here. *)
Definition step (env : Env) (op : Op) (c : WiredTigerSessionCache.t)
    : M (WiredTigerSessionCache.t * list WiredTigerSession.t) :=
  match op with
  | OpGetSession =>
      do (c, s) <- Cache.getSession env c; ret (c, [s])
  | OpReleaseSession session =>
      do c <- Cache.releaseSession env session c; ret (c, [])
  | OpCloseAll =>
      do c <- Cache.closeAll env c; ret (c, [])
  | OpCloseExpiredIdleSessions idleTimeMillis =>
      do c <- Cache.closeExpiredIdleSessions env idleTimeMillis c; ret (c, [])
  | OpCloseAllCursors uri =>
      do c <- Cache.closeAllCursors env uri c; ret (c, [])
  | OpShuttingDown =>
      do c <- Cache.shuttingDown env c; ret (c, [])
  | OpRestart =>
      ret (WiredTigerSessionCache.restart c, [])
  | OpNotifyPreparedUnitOfWorkHasCommittedOrAborted =>
      ret (WiredTigerSessionCache.notifyPreparedUnitOfWorkHasCommittedOrAborted c, [])
  | OpReleaseCursor id cursor config session =>
      do st <- Session.releaseCursor env id cursor config (c, session);
      ret (fst st, [])
  end.

(** Calls one after the other, each with the engine answers, clock reading and
    tunable of its moment; the result carries the sessions handed out, in
    order. *)
Fixpoint run (calls : list (Env * Op)) (c : WiredTigerSessionCache.t)
    : M (WiredTigerSessionCache.t * list WiredTigerSession.t) :=
  match calls with
  | [] => ret (c, [])
  | (env, op) :: more =>
      do (c, out) <- step env op c;
      do (c, outs) <- run more c;
      ret (c, out ++ outs)
  end.

Definition isRestart (op : Op) : bool :=
  match op with OpRestart => true | _ => false end.

(** Between calls no shutdown-blocking scope is in flight; the epoch is a
    64-bit value; every pooled session carries the current epoch; a cache that
    is shutting down has an empty pool. *)
Definition poolOK (c : WiredTigerSessionCache.t) : Prop :=
  (WiredTigerSessionCache._shuttingDown c = 0
   \/ WiredTigerSessionCache._shuttingDown c = WiredTigerSessionCache.kShuttingDownMask)
  /\ 0 <= WiredTigerSessionCache._epoch c < 2 ^ 64
  /\ Forall (fun s => WiredTigerSession._epoch s = WiredTigerSessionCache._epoch c)
       (WiredTigerSessionCache._sessions c)
  /\ (WiredTigerSessionCache.isShuttingDown c = true ->
      WiredTigerSessionCache._sessions c = []).

(** What one call does to the cache, as far as epochs and the shutdown bit go:
    the pool stays in order, the epoch grows by at most one, every session
    handed out carries the epoch of the moment and is handed out only outside
    shutdown, only [restart] clears the shutdown bit, and the bit is set only
    along with an epoch bump. *)
Definition advances (op : Op) (c c' : WiredTigerSessionCache.t)
    (out : list WiredTigerSession.t) : Prop :=
  poolOK c'
  /\ WiredTigerSessionCache._epoch c <= WiredTigerSessionCache._epoch c'
     <= WiredTigerSessionCache._epoch c + 1
  /\ Forall (fun r => WiredTigerSession._epoch r = WiredTigerSessionCache._epoch c') out
  /\ (out = [] \/ WiredTigerSessionCache.isShuttingDown c' = false)
  /\ (WiredTigerSessionCache.isShuttingDown c = true -> isRestart op = false ->
      WiredTigerSessionCache.isShuttingDown c' = true /\ out = [])
  /\ (WiredTigerSessionCache.isShuttingDown c = false ->
      WiredTigerSessionCache.isShuttingDown c' = true ->
      WiredTigerSessionCache._epoch c' = WiredTigerSessionCache._epoch c + 1).

(** ** Table ids *)

(** [enum WiredTigerSession::TableId] *)
Definition kMetadataTableId : Z := 0.
Definition kMetadataCreateTableId : Z := 1.
Definition kLastTableId : Z := 2.

(** [WiredTigerSession::genTableId] on the counter [nextTableId] (an
    [AtomicWord<unsigned long long>] that starts at [kLastTableId]):
    [fetchAndAdd(1)] returns the value from before the addition. The result is
    the id and the counter afterwards. *)
Definition genTableId (nextTableId : Z) : Z * Z :=
  (nextTableId, u64 (nextTableId + 1)).

(** [n] calls of [genTableId] in a row: the ids in the order handed out, and
    the counter afterwards. *)
Fixpoint genTableIds (n : nat) (nextTableId : Z) : list Z * Z :=
  match n with
  | O => ([], nextTableId)
  | S n' =>
      let '(id, next) := genTableId nextTableId in
      let '(ids, final) := genTableIds n' next in
      (id :: ids, final)
  end.

(** ** Calls on a checked-out session, in sequence *)

Inductive SessionOp :=
| SGetCachedCursor (id : Z) (config : string)
| SGetNewCursor (uri : string) (config : option string)
| SReleaseCursor (id : Z) (cursor : WT_CURSOR) (config : string)
| SCloseCursor (cursor : WT_CURSOR)
| SCloseAllCursors (uri : string)
| SReconfigure (newConfig undoConfig : string)
| SResetSessionConfiguration.

(** One call on the session, with the cache its [_cache] points to; a cursor
    returned to the caller is dropped here. *)
Definition sessionStep (env : Env) (op : SessionOp)
    (st : WiredTigerSessionCache.t * WiredTigerSession.t)
    : M (WiredTigerSessionCache.t * WiredTigerSession.t) :=
  let '(cache, s) := st in
  match op with
  | SGetCachedCursor id config =>
      ret (cache, snd (Session.getCachedCursor id config s))
  | SGetNewCursor uri config =>
      do r <- Session.getNewCursor env uri config s; ret (cache, snd r)
  | SReleaseCursor id cursor config =>
      Session.releaseCursor env id cursor config (cache, s)
  | SCloseCursor cursor =>
      do s <- Session.closeCursor env cursor s; ret (cache, s)
  | SCloseAllCursors uri =>
      do s <- Session.closeAllCursors env uri s; ret (cache, s)
  | SReconfigure newConfig undoConfig =>
      do s <- Session.reconfigure env newConfig undoConfig s; ret (cache, s)
  | SResetSessionConfiguration =>
      do s <- Session.resetSessionConfiguration env s; ret (cache, s)
  end.

Fixpoint sessionRun (calls : list (Env * SessionOp))
    (st : WiredTigerSessionCache.t * WiredTigerSession.t)
    : M (WiredTigerSessionCache.t * WiredTigerSession.t) :=
  match calls with
  | [] => ret st
  | (env, op) :: more => do st <- sessionStep env op st; sessionRun more st
  end.

(** The test [closeAllCursors(uri)] makes on a cached cursor:
    [cursor && (all || uri == cursor->uri)]. *)
Definition closesCursor (env : Env) (uri : string) (c : WiredTigerCachedCursor)
    : bool :=
  negb (_cursor c =? nullptr)
  && (bool_decide (uri = EmptyString)
      || bool_decide (uri = cursor_uri env (_cursor c))).

(** The environment with another value of the cursor-cache size. *)
Definition withCacheSize (n : Z) (env : Env) : Env :=
  {| open_session := open_session env;
     open_cursor := open_cursor env;
     cursor_reset := cursor_reset env;
     cursor_close := cursor_close env;
     cursor_uri := cursor_uri env;
     session_reconfigure := session_reconfigure env;
     session_reset := session_reset env;
     session_close := session_close env;
     transaction_pinned_range := transaction_pinned_range env;
     wtRCToStatus := wtRCToStatus env;
     now := now env;
     gWiredTigerCursorCacheSize := n |}.

(** ** Sessions in the pool and sessions handed out *)

(** An idle session: no cursor checked out, default configuration, and the
    time it became idle. *)
Definition idleSession (s : WiredTigerSession.t) : Prop :=
  WiredTigerSession._cursorsOut s = 0
  /\ WiredTigerSession._undoConfigStrings s = ∅
  /\ WiredTigerSession._idleExpireTime s <> Date_t_min.

(** A session as [getSession] hands it out. *)
Definition leasedSession (s : WiredTigerSession.t) : Prop :=
  WiredTigerSession._cursorsOut s = 0
  /\ WiredTigerSession._undoConfigStrings s = ∅
  /\ WiredTigerSession._idleExpireTime s = Date_t_min.

(** An engine in which the cursors 101 and 103 are on "table:a" and every
    other cursor on "table:b". *)
Definition env_two_tables : Env :=
  {| open_session := open_session (env_ok 2 0);
     open_cursor := open_cursor (env_ok 2 0);
     cursor_reset := cursor_reset (env_ok 2 0);
     cursor_close := cursor_close (env_ok 2 0);
     cursor_uri := fun c => if (c =? 101) || (c =? 103) then "table:a" else "table:b";
     session_reconfigure := session_reconfigure (env_ok 2 0);
     session_reset := session_reset (env_ok 2 0);
     session_close := session_close (env_ok 2 0);
     transaction_pinned_range := transaction_pinned_range (env_ok 2 0);
     wtRCToStatus := wtRCToStatus (env_ok 2 0);
     now := 0;
     gWiredTigerCursorCacheSize := 4 |}.

(** ** How a call can end *)

(** The call returns or terminates the process: it neither throws nor waits
    for another thread. *)
Definition returnsOrAborts {A} (m : M A) : bool :=
  match m with
  | Ok _ | Abort _ => true
  | Throw _ | Spin => false
  end.

(** What [~WiredTigerSession] does, when the engine lets it. *)
Definition destroyEvents (s : WiredTigerSession.t) : list event :=
  (if WiredTigerSession._session s =? nullptr then []
   else [EvSessionClose (WiredTigerSession._session s)])
  ++ [EvDelete s].

(** The session after [closeAllCursors(uri)]: its cache without the cursors
    the call closes. *)
Definition withoutCursors (env : Env) (uri : string) (s : WiredTigerSession.t)
    : WiredTigerSession.t :=
  WiredTigerSession.set_cursors
    (List.filter (fun c => negb (closesCursor env uri c))
       (WiredTigerSession._cursors s)) s.

(** ** Cursors in the order of their release *)

(** What [releaseCursor] was called with to cache this entry. *)
Definition released (c : WiredTigerCachedCursor) : Z * WT_CURSOR * string :=
  (_id c, _cursor c, _config c).

(** The ages are [k], [k + 1], ... from the front: no release in between was
    taken out again. *)
Fixpoint agesFrom (k cursorGen : Z) (cs : CursorCache) : Prop :=
  match cs with
  | [] => True
  | c :: more => age cursorGen c = k /\ agesFrom (k + 1) cursorGen more
  end.

(** ** Counting notifications *)

Fixpoint notifications (calls : list (Env * Op)) : Z :=
  match calls with
  | [] => 0
  | (_, OpNotifyPreparedUnitOfWorkHasCommittedOrAborted) :: more =>
      1 + notifications more
  | _ :: more => notifications more
  end.

(** ** The pool in the order of idle times *)

(** [a] became idle no later than [b]. *)
Definition idleOrder (a b : WiredTigerSession.t) : Prop :=
  WiredTigerSession.getIdleExpireTime a <= WiredTigerSession.getIdleExpireTime b.

(** The clock does not go back: it reads at least [t] at the first call and
    never less from one call to the next. *)
Fixpoint clockMonotone (t : Date_t) (calls : list (Env * Op)) : Prop :=
  match calls with
  | [] => True
  | (env, _) :: more => t <= now env /\ clockMonotone (now env) more
  end.

(** * Properties *)

(** ** The monad *)

Lemma bind_Ok_inv {A B} (m : M A) (k : A -> M B) evs b :
  bind m k = Ok (evs, b) ->
  exists e1 a e2, m = Ok (e1, a) /\ k a = Ok (e2, b) /\ evs = e1 ++ e2.
Proof.
  unfold bind. destruct m as [[e1 a] | | |]; try discriminate.
  destruct (k a) as [[e2 b'] | | |] eqn:Hk; try discriminate.
  intros [= <- <-]. eauto 6.
Qed.

Lemma bind_Ok {A B} (m : M A) (k : A -> M B) e1 a :
  m = Ok (e1, a) ->
  bind m k = match k a with
             | Ok (e2, b) => Ok (e1 ++ e2, b)
             | Throw e => Throw e
             | Abort t => Abort t
             | Spin => Spin
             end.
Proof. intros ->. reflexivity. Qed.

Lemma invariant_Ok_inv cond what evs u :
  invariant cond what = Ok (evs, u) -> cond = true /\ evs = [].
Proof. unfold invariant, ret. destruct cond; [intros [= <- _]; auto | discriminate]. Qed.

Lemma invariantWTOK_Ok_inv rc evs u :
  invariantWTOK rc = Ok (evs, u) -> rc = 0 /\ evs = [].
Proof.
  unfold invariantWTOK, ret. destruct (Z.eqb_spec rc 0); [intros [= <- _]; auto | discriminate].
Qed.

(** ** The packed shutdown word *)

Lemma land_bit31 (w : Z) :
  Z.land w (Z.shiftl 1 31) = if Z.testbit w 31 then 2 ^ 31 else 0.
Proof.
  change (Z.shiftl 1 31) with (2 ^ 31).
  apply Z.bits_inj'. intros n Hn.
  rewrite Z.land_spec, Z.pow2_bits_eqb by lia.
  destruct (Z.eqb_spec 31 n) as [<- | Hne].
  - destruct (Z.testbit w 31) eqn:E; reflexivity.
  - rewrite Bool.andb_false_r.
    destruct (Z.testbit w 31).
    + rewrite Z.pow2_bits_eqb by lia. symmetry. now apply Z.eqb_neq.
    + now rewrite Z.bits_0.
Qed.

Lemma testbit31 (w : Z) :
  0 <= w < 2 ^ 32 -> Z.testbit w 31 = (2 ^ 31 <=? w).
Proof.
  intros Hw. rewrite Z.testbit_eqb by lia.
  destruct (Z.leb_spec (2 ^ 31) w) as [H | H].
  - assert (w / 2 ^ 31 = 1) as ->.
    { symmetry. apply (Z.div_unique w (2 ^ 31) 1 (w - 2 ^ 31)); lia. }
    reflexivity.
  - rewrite Z.div_small by lia. reflexivity.
Qed.

Lemma isShuttingDown_spec (c : WiredTigerSessionCache.t) :
  0 <= WiredTigerSessionCache._shuttingDown c < 2 ^ 32 ->
  WiredTigerSessionCache.isShuttingDown c
  = (2 ^ 31 <=? WiredTigerSessionCache._shuttingDown c).
Proof.
  intros Hw. unfold WiredTigerSessionCache.isShuttingDown,
    WiredTigerSessionCache.kShuttingDownMask.
  rewrite land_bit31, testbit31 by exact Hw.
  destruct (2 ^ 31 <=? _); reflexivity.
Qed.

Lemma blockers_spec (c : WiredTigerSessionCache.t) :
  WiredTigerSessionCache.blockers c
  = WiredTigerSessionCache._shuttingDown c mod 2 ^ 31.
Proof.
  unfold WiredTigerSessionCache.blockers.
  change (u32 (Z.lnot WiredTigerSessionCache.kShuttingDownMask)) with (Z.ones 31).
  apply Z.land_ones. lia.
Qed.

(** A word in range is its flag bit plus its count. *)
Lemma word_decompose (c : WiredTigerSessionCache.t) :
  0 <= WiredTigerSessionCache._shuttingDown c < 2 ^ 32 ->
  WiredTigerSessionCache._shuttingDown c
  = (if WiredTigerSessionCache.isShuttingDown c then 2 ^ 31 else 0)
    + WiredTigerSessionCache.blockers c
  /\ 0 <= WiredTigerSessionCache.blockers c < 2 ^ 31.
Proof.
  intros Hw. rewrite isShuttingDown_spec, blockers_spec by exact Hw.
  set (w := WiredTigerSessionCache._shuttingDown c) in *.
  pose proof (Z.mod_pos_bound w (2 ^ 31) ltac:(lia)) as Hm.
  split; [| exact Hm].
  destruct (Z.leb_spec (2 ^ 31) w) as [H | H].
  - assert (w mod 2 ^ 31 = w - 2 ^ 31) as ->; [| lia].
    symmetry. apply (Z.mod_unique w (2 ^ 31) 1); lia.
  - rewrite Z.mod_small; lia.
Qed.

Lemma word_recompose (c c' : WiredTigerSessionCache.t) (d : Z) :
  0 <= WiredTigerSessionCache._shuttingDown c < 2 ^ 32 ->
  WiredTigerSessionCache._shuttingDown c'
  = u32 (WiredTigerSessionCache._shuttingDown c + d) ->
  0 <= WiredTigerSessionCache.blockers c + d < 2 ^ 31 ->
  0 <= WiredTigerSessionCache._shuttingDown c' < 2 ^ 32
  /\ WiredTigerSessionCache.isShuttingDown c'
     = WiredTigerSessionCache.isShuttingDown c
  /\ WiredTigerSessionCache.blockers c'
     = WiredTigerSessionCache.blockers c + d.
Proof.
  intros Hw Hw' Hd.
  destruct (word_decompose c Hw) as [Hdec Hb].
  assert (WiredTigerSessionCache._shuttingDown c'
          = WiredTigerSessionCache._shuttingDown c + d) as Heq.
  { rewrite Hw'. unfold u32. apply Z.mod_small.
    destruct (WiredTigerSessionCache.isShuttingDown c); lia. }
  assert (0 <= WiredTigerSessionCache._shuttingDown c' < 2 ^ 32) as Hr.
  { rewrite Heq. destruct (WiredTigerSessionCache.isShuttingDown c); lia. }
  split; [exact Hr |].
  destruct (word_decompose c' Hr) as [Hdec' Hb'].
  assert (WiredTigerSessionCache.isShuttingDown c'
          = WiredTigerSessionCache.isShuttingDown c) as Hflag.
  { rewrite !isShuttingDown_spec by assumption. rewrite Heq.
    rewrite isShuttingDown_spec in Hdec by assumption.
    destruct (Z.leb_spec (2 ^ 31) (WiredTigerSessionCache._shuttingDown c));
      destruct (Z.leb_spec (2 ^ 31) (WiredTigerSessionCache._shuttingDown c + d));
      try reflexivity; lia. }
  split; [exact Hflag |].
  rewrite Hflag in Hdec'.
  destruct (WiredTigerSessionCache.isShuttingDown c); lia.
Qed.

Lemma BlockShutdown_enter_spec (c : WiredTigerSessionCache.t) :
  0 <= WiredTigerSessionCache._shuttingDown c < 2 ^ 32 ->
  WiredTigerSessionCache.blockers c + 1 < 2 ^ 31 ->
  let c' := WiredTigerSessionCache.BlockShutdown_enter c in
  0 <= WiredTigerSessionCache._shuttingDown c' < 2 ^ 32
  /\ WiredTigerSessionCache.isShuttingDown c'
     = WiredTigerSessionCache.isShuttingDown c
  /\ WiredTigerSessionCache.blockers c'
     = WiredTigerSessionCache.blockers c + 1.
Proof.
  intros Hw Hn c'. apply word_recompose; [exact Hw | reflexivity |].
  destruct (word_decompose c Hw). lia.
Qed.

Lemma BlockShutdown_exit_spec (c : WiredTigerSessionCache.t) :
  0 <= WiredTigerSessionCache._shuttingDown c < 2 ^ 32 ->
  0 < WiredTigerSessionCache.blockers c ->
  let c' := WiredTigerSessionCache.BlockShutdown_exit c in
  0 <= WiredTigerSessionCache._shuttingDown c' < 2 ^ 32
  /\ WiredTigerSessionCache.isShuttingDown c'
     = WiredTigerSessionCache.isShuttingDown c
  /\ WiredTigerSessionCache.blockers c'
     = WiredTigerSessionCache.blockers c - 1.
Proof.
  intros Hw Hn c'.
  apply (word_recompose c c' (-1)); [exact Hw | reflexivity |].
  destruct (word_decompose c Hw). lia.
Qed.

(** Leaving the scope just entered restores the word. *)
Lemma BlockShutdown_enter_exit (c : WiredTigerSessionCache.t) :
  0 <= WiredTigerSessionCache._shuttingDown c < 2 ^ 32 ->
  WiredTigerSessionCache.BlockShutdown_exit
    (WiredTigerSessionCache.BlockShutdown_enter c) = c.
Proof.
  intros Hw. destruct c as [w ss e p g]. simpl in Hw.
  unfold WiredTigerSessionCache.BlockShutdown_exit,
    WiredTigerSessionCache.BlockShutdown_enter,
    WiredTigerSessionCache.set_shuttingDown. simpl. f_equal.
  unfold u32. rewrite Zminus_mod_idemp_l.
  replace (w + 1 - 1) with w by lia. apply Z.mod_small. exact Hw.
Qed.

Lemma runScopes_app (xs ys : list scopeStep) (c : WiredTigerSessionCache.t) :
  runScopes (xs ++ ys) c = runScopes ys (runScopes xs c).
Proof. unfold runScopes. apply fold_left_app. Qed.

Lemma runScopes_enters (n : nat) (c : WiredTigerSessionCache.t) :
  0 <= WiredTigerSessionCache._shuttingDown c < 2 ^ 32 ->
  WiredTigerSessionCache._shuttingDown (runScopes (repeat Enter n) c)
  = u32 (WiredTigerSessionCache._shuttingDown c + Z.of_nat n).
Proof.
  revert c. induction n as [| n IH]; intros c Hw.
  - unfold runScopes, u32. simpl fold_left.
    rewrite Z.add_0_r, Z.mod_small; [reflexivity | exact Hw].
  - change (repeat Enter (S n)) with ([Enter] ++ repeat Enter n).
    rewrite runScopes_app, IH.
    + unfold runScopes. simpl fold_left.
      unfold WiredTigerSessionCache.BlockShutdown_enter. simpl.
      unfold u32. rewrite Zplus_mod_idemp_l. f_equal. lia.
    + unfold runScopes. simpl fold_left.
      unfold WiredTigerSessionCache.BlockShutdown_enter. simpl.
      unfold u32. apply Z.mod_pos_bound. lia.
Qed.

(** C9 (as stated) fails: the count is not saturating. Starting from a cache on
    which shutdown was never requested, [2^31] scope entries carry into the top
    bit, and [isShuttingDown] turns true. *)
Lemma scopes_overflow_into_flag :
  exists steps : list scopeStep,
    Forall (fun st => st = Enter) steps
    /\ WiredTigerSessionCache.isShuttingDown
         (WiredTigerSessionCache.create true) = false
    /\ WiredTigerSessionCache.isShuttingDown
         (runScopes steps (WiredTigerSessionCache.create true)) = true.
Proof.
  exists (repeat Enter (Z.to_nat (2 ^ 31))).
  split; [| split].
  - apply List.Forall_forall. intros st Hin. exact (repeat_spec _ _ _ Hin).
  - reflexivity.
  - assert (0 <= WiredTigerSessionCache._shuttingDown
                   (WiredTigerSessionCache.create true) < 2 ^ 32) as H0
      by (simpl; lia).
    pose proof (runScopes_enters (Z.to_nat (2 ^ 31)) _ H0) as Hrun.
    rewrite Z2Nat.id in Hrun by lia.
    rewrite isShuttingDown_spec.
    + rewrite Hrun. reflexivity.
    + rewrite Hrun. unfold u32. apply Z.mod_pos_bound. lia.
Qed.

(** C9 (amended): while every exit matches a scope in flight and fewer than
    [2^31] scopes are in flight at a time, entering and leaving scopes never
    changes the top (shutdown) bit, and the low 31 bits are the exact number
    of scopes in flight. *)
Theorem scopes_preserve_flag (steps : list scopeStep)
    (c : WiredTigerSessionCache.t) :
  0 <= WiredTigerSessionCache._shuttingDown c < 2 ^ 32 ->
  scopesInRange (WiredTigerSessionCache.blockers c) steps = true ->
  WiredTigerSessionCache.isShuttingDown (runScopes steps c)
  = WiredTigerSessionCache.isShuttingDown c
  /\ WiredTigerSessionCache.blockers (runScopes steps c)
     = WiredTigerSessionCache.blockers c + scopesNet steps
  /\ 0 <= WiredTigerSessionCache.blockers (runScopes steps c) < 2 ^ 31.
Proof.
  revert c. induction steps as [| st more IH]; intros c Hw Hr.
  - change (runScopes [] c) with c. simpl scopesNet.
    destruct (word_decompose c Hw). split; [reflexivity | split; lia].
  - change (runScopes (st :: more) c) with (runScopes more (scopeStep_apply c st)).
    destruct st; simpl in Hr; apply andb_prop in Hr as [Hn Hmore].
    + apply Z.ltb_lt in Hn.
      destruct (BlockShutdown_enter_spec c Hw Hn) as (Hw' & Hf & Hb).
      simpl scopeStep_apply. rewrite <- Hb in Hmore.
      destruct (IH _ Hw' Hmore) as (IH1 & IH2 & IH3).
      rewrite IH1, IH2, Hf, Hb in *. simpl scopesNet. split; [reflexivity | split; lia].
    + apply Z.ltb_lt in Hn.
      destruct (BlockShutdown_exit_spec c Hw Hn) as (Hw' & Hf & Hb).
      simpl scopeStep_apply. rewrite <- Hb in Hmore.
      destruct (IH _ Hw' Hmore) as (IH1 & IH2 & IH3).
      rewrite IH1, IH2, Hf, Hb in *. simpl scopesNet. split; [reflexivity | split; lia].
Qed.

Lemma scopes_preserve_flag_witness :
  let c := WiredTigerSessionCache.mk (2 ^ 31 + 1) [] 0 0 true in
  let steps := [Enter; Enter; Exit; Exit; Exit] in
  WiredTigerSessionCache.isShuttingDown (runScopes steps c) = true
  /\ WiredTigerSessionCache.blockers (runScopes steps c) = 0.
Proof.
  intros c steps.
  assert (0 <= WiredTigerSessionCache._shuttingDown c < 2 ^ 32) as Hw
    by (simpl; lia).
  assert (scopesInRange (WiredTigerSessionCache.blockers c) steps = true) as Hr
    by reflexivity.
  destruct (scopes_preserve_flag steps c Hw Hr) as (Hf & Hb & _).
  split; [exact Hf | exact Hb].
Defined.

(** ** Opening a cursor *)

Lemma s32_succ (n : Z) : - 2 ^ 31 <= n < INT32_MAX -> s32 (n + 1) = n + 1.
Proof.
  unfold s32, INT32_MAX. intros H.
  rewrite Z.mod_small by lia. lia.
Qed.

Lemma s32_pred (n : Z) : - 2 ^ 31 < n <= INT32_MAX -> s32 (n - 1) = n - 1.
Proof.
  unfold s32, INT32_MAX. intros H.
  rewrite Z.mod_small by lia. lia.
Qed.

(** C4: what [getNewCursor] does with each result of the engine's
    [open_cursor]. Return code 0: the new handle is returned and [_cursorsOut]
    is incremented. [ENOENT]: the [CursorNotFound] exception is thrown.
    [EBUSY]: the status of the return code is thrown (an exception, given that
    [wtRCToStatus] turns a non-zero code into a status that is not OK). Any
    other code: the process is terminated by the fatal log 50882, which carries
    the uri, the config and the status. *)
Theorem getNewCursor_outcomes (env : Env) (uri : string)
    (config : option string) (s : WiredTigerSession.t) :
  let ss := WiredTigerSession._session s in
  let rc := fst (open_cursor env ss uri config) in
  let handle := snd (open_cursor env ss uri config) in
  let status := wtRCToStatus env rc ss in
  (rc = 0 ->
     Session.getNewCursor env uri config s
     = Ok ([EvOpenCursor ss uri config],
           (handle,
            WiredTigerSession.set_cursorsOut
              (s32 (WiredTigerSession._cursorsOut s + 1)) s))
     /\ (- 2 ^ 31 <= WiredTigerSession._cursorsOut s < INT32_MAX ->
         s32 (WiredTigerSession._cursorsOut s + 1)
         = WiredTigerSession._cursorsOut s + 1))
  /\ (rc = ENOENT ->
        Session.getNewCursor env uri config s
        = Throw (UAsserted ErrorCodes_CursorNotFound status uri config))
  /\ (rc = EBUSY -> isOK status = false ->
        Session.getNewCursor env uri config s = Throw (StatusException status))
  /\ (rc <> 0 -> rc <> ENOENT -> rc <> EBUSY ->
        Session.getNewCursor env uri config s
        = Abort (LogFatal 50882 uri config status kWTRepairMsg)).
Proof.
  intros ss rc handle status.
  unfold Session.getNewCursor, Session._openCursor.
  fold ss. subst rc handle status.
  destruct (open_cursor env ss uri config) as [rc handle] eqn:Hopen.
  cbn [fst snd].
  split; [| split; [| split]].
  - intros ->. split; [reflexivity | apply s32_succ].
  - intros ->. reflexivity.
  - intros -> Hst. cbn. unfold uassertStatusOK. rewrite Hst. reflexivity.
  - intros H0 Hnoent Hbusy. cbn.
    destruct (Z.eqb_spec rc 0) as [? | _]; [contradiction |].
    destruct (Z.eqb_spec rc EBUSY) as [? | _]; [contradiction |].
    destruct (Z.eqb_spec rc ENOENT) as [? | _]; [contradiction |].
    reflexivity.
Qed.

Lemma getNewCursor_outcomes_witness :
  (Session.getNewCursor (env_open_rc 0) "table:t" None (freshSession 0 4096)
   = Ok ([EvOpenCursor 4096 "table:t" None],
         (8192, WiredTigerSession.set_cursorsOut 1 (freshSession 0 4096))))
  /\ Session.getNewCursor (env_open_rc ENOENT) "table:gone" None (freshSession 0 4096)
     = Throw (UAsserted ErrorCodes_CursorNotFound (mkStatus 1002 "") "table:gone" None)
  /\ Session.getNewCursor (env_open_rc EBUSY) "table:t" (Some "cfgA") (freshSession 0 4096)
     = Throw (StatusException (mkStatus 1016 ""))
  /\ Session.getNewCursor (env_open_rc 22) "table:t" (Some "cfgA") (freshSession 0 4096)
     = Abort (LogFatal 50882 "table:t" (Some "cfgA") (mkStatus 1022 "") kWTRepairMsg).
Proof.
  split; [| split; [| split]].
  - exact (proj1 (proj1 (getNewCursor_outcomes (env_open_rc 0) "table:t" None
                           (freshSession 0 4096)) eq_refl)).
  - exact (proj1 (proj2 (getNewCursor_outcomes (env_open_rc ENOENT) "table:gone" None
                           (freshSession 0 4096))) eq_refl).
  - exact (proj1 (proj2 (proj2 (getNewCursor_outcomes (env_open_rc EBUSY) "table:t"
                                  (Some "cfgA") (freshSession 0 4096))))
             eq_refl eq_refl).
  - apply (proj2 (proj2 (proj2 (getNewCursor_outcomes (env_open_rc 22) "table:t"
                                  (Some "cfgA") (freshSession 0 4096)))));
      discriminate.
Defined.

(** ** Releasing a cursor while the cache shuts down *)

(** C10: while the cache is shutting down [releaseCursor] returns at once:
    the session is unchanged ([_cursorsOut] is not decremented, the cursor list
    is the same), no engine call is made on the cursor (no reset, no close),
    and the shutdown word is as before. This is why [releaseSession] accepts a
    session with cursors still out during shutdown, and only then. *)
Theorem releaseCursor_shutdown_noop (env : Env) (id : Z) (cursor : WT_CURSOR)
    (config : string) (cache : WiredTigerSessionCache.t)
    (s : WiredTigerSession.t) :
  0 <= WiredTigerSessionCache._shuttingDown cache < 2 ^ 32 ->
  WiredTigerSessionCache.blockers cache + 1 < 2 ^ 31 ->
  WiredTigerSessionCache.isShuttingDown cache = true ->
  Session.releaseCursor env id cursor config (cache, s) = Ok ([], (cache, s))
  /\ (WiredTigerSession.cursorsOut s <> 0 ->
      Cache.releaseSession env s cache
      = Ok ([EvDelete (WiredTigerSession.set_session nullptr s)], cache))
  /\ (forall cache' : WiredTigerSessionCache.t,
        WiredTigerSessionCache.isShuttingDown cache' = false ->
        WiredTigerSession.cursorsOut s <> 0 ->
        Cache.releaseSession env s cache'
        = Abort (InvariantFailure "session->cursorsOut() == 0 || isShuttingDown()")).
Proof.
  intros Hw Hn Hdown.
  destruct (BlockShutdown_enter_spec cache Hw Hn) as (_ & Hflag & _).
  rewrite Hdown in Hflag.
  split; [| split].
  - unfold Session.releaseCursor. rewrite Hflag.
    rewrite BlockShutdown_enter_exit by exact Hw. reflexivity.
  - intros Hout.
    unfold Cache.releaseSession, Cache.releaseSession_racing.
    rewrite Hdown, orb_true_r. cbn [invariant bind ret].
    rewrite Hflag. rewrite BlockShutdown_enter_exit by exact Hw. reflexivity.
  - intros cache' Hup Hout.
    unfold Cache.releaseSession, Cache.releaseSession_racing.
    rewrite Hup, orb_false_r.
    destruct (Z.eqb_spec (WiredTigerSession.cursorsOut s) 0) as [? | _];
      [contradiction | reflexivity].
Qed.

Lemma releaseCursor_shutdown_noop_witness :
  let cache := WiredTigerSessionCache.mk (2 ^ 31) [] 1 0 true in
  let s := WiredTigerSession.set_cursorsOut 1 (freshSession 0 4096) in
  Session.releaseCursor (env_ok 2 0) 1 8192 "cfgA" (cache, s) = Ok ([], (cache, s))
  /\ Cache.releaseSession (env_ok 2 0) s cache
     = Ok ([EvDelete (WiredTigerSession.set_session nullptr s)], cache).
Proof.
  intros cache s.
  assert (0 <= WiredTigerSessionCache._shuttingDown cache < 2 ^ 32) as Hw
    by (simpl; lia).
  assert (WiredTigerSessionCache.blockers cache + 1 < 2 ^ 31) as Hn
    by reflexivity.
  destruct (releaseCursor_shutdown_noop (env_ok 2 0) 1 8192 "cfgA" cache s
              Hw Hn eq_refl) as (Hnoop & Hrelease & _).
  split; [exact Hnoop | apply Hrelease; discriminate].
Defined.

(** ** Reconfiguration and its undo set *)

Lemma reconfigure_Ok (env : Env) (newConfig undoConfig : string)
    (s : WiredTigerSession.t) :
  session_reconfigure env (WiredTigerSession._session s) newConfig = 0 ->
  Session.reconfigure env newConfig undoConfig s
  = Ok ([EvSessionReconfigure (WiredTigerSession._session s) newConfig],
        WiredTigerSession.set_undoConfigStrings
          (if decide (newConfig = undoConfig)
           then WiredTigerSession._undoConfigStrings s ∖ {[undoConfig]}
           else {[undoConfig]} ∪ WiredTigerSession._undoConfigStrings s) s).
Proof.
  intros Hrc. unfold Session.reconfigure.
  destruct (decide (newConfig = undoConfig)) as [Heq | Hne].
  - rewrite bool_decide_eq_true_2 by exact Heq.
    cbn. rewrite Hrc. reflexivity.
  - rewrite bool_decide_eq_false_2 by exact Hne.
    cbn. rewrite Hrc. reflexivity.
Qed.

Lemma applyUndo_Ok (env : Env) (ss : WT_SESSION) (undo : list string) :
  (forall config, session_reconfigure env ss config = 0) ->
  Session.applyUndo env ss undo = Ok (map (EvSessionReconfigure ss) undo, tt).
Proof.
  intros Hrc. induction undo as [| u more IH]; [reflexivity |].
  cbn. rewrite Hrc. cbn. rewrite IH. reflexivity.
Qed.

Lemma reconfigured_map (ss : WT_SESSION) (l : list string) :
  reconfigured (map (EvSessionReconfigure ss) l) = l.
Proof. induction l as [| x l IH]; [reflexivity | cbn; now rewrite IH]. Qed.

Lemma reconfigureAll_Ok (env : Env) (calls : list (string * string))
    (s : WiredTigerSession.t) :
  (forall config,
     session_reconfigure env (WiredTigerSession._session s) config = 0) ->
  exists s',
    reconfigureAll env calls s
    = Ok (map (EvSessionReconfigure (WiredTigerSession._session s)) (map fst calls), s')
    /\ WiredTigerSession._session s' = WiredTigerSession._session s
    /\ WiredTigerSession._undoConfigStrings s'
       = undoSetAfter calls (WiredTigerSession._undoConfigStrings s).
Proof.
  revert s. induction calls as [| [n u] more IH]; intros s Hrc.
  - exists s. repeat split.
  - cbn [reconfigureAll].
    rewrite (bind_Ok _ _ _ _ (reconfigure_Ok env n u s (Hrc n))).
    match goal with |- context [reconfigureAll env more ?s1] =>
      destruct (IH s1 Hrc) as (s' & Hrun & Hss & Hundo) end.
    rewrite Hrun. exists s'. split; [reflexivity | split; [exact Hss |]].
    rewrite Hundo. cbn. f_equal.
    destruct (decide (n = u)); [reflexivity | apply (comm_L (∪))].
Qed.

(** C7: for every sequence of [reconfigure(new_i, undo_i)] calls (each accepted
    by the engine), every call hands [new_i] to the engine and records
    [undo_i] in the undo set, unless [new_i] is [undo_i]: then [undo_i] is
    removed from the set, so that the pair leaves no entry behind (and changes
    nothing when [undo_i] was not recorded). [resetSessionConfiguration]
    afterwards hands exactly the strings of the undo set to the engine, each
    once, and leaves the set empty. *)
Theorem reconfigure_undo_roundtrip (env : Env) (calls : list (string * string))
    (s : WiredTigerSession.t) :
  (forall config,
     session_reconfigure env (WiredTigerSession._session s) config = 0) ->
  exists (s' : WiredTigerSession.t) (evs : list event),
    reconfigureAll env calls s = Ok (evs, s')
    /\ reconfigured evs = map fst calls
    /\ WiredTigerSession._session s' = WiredTigerSession._session s
    /\ WiredTigerSession._undoConfigStrings s'
       = undoSetAfter calls (WiredTigerSession._undoConfigStrings s)
    /\ (forall (n u : string) (s0 : WiredTigerSession.t),
          session_reconfigure env (WiredTigerSession._session s0) n = 0 ->
          exists s1,
            Session.reconfigure env n u s0
            = Ok ([EvSessionReconfigure (WiredTigerSession._session s0) n], s1)
            /\ (n <> u ->
                forall x, x ∈ WiredTigerSession._undoConfigStrings s1
                          <-> (x = u \/ x ∈ WiredTigerSession._undoConfigStrings s0))
            /\ (n = u ->
                (u ∉ WiredTigerSession._undoConfigStrings s1)
                /\ (forall x, x <> u ->
                      (x ∈ WiredTigerSession._undoConfigStrings s1
                       <-> x ∈ WiredTigerSession._undoConfigStrings s0))
                /\ (u ∉ WiredTigerSession._undoConfigStrings s0 ->
                    WiredTigerSession._undoConfigStrings s1
                    = WiredTigerSession._undoConfigStrings s0)))
    /\ exists (applied : list string),
         Session.resetSessionConfiguration env s'
         = Ok (map (EvSessionReconfigure (WiredTigerSession._session s')) applied,
               WiredTigerSession.set_undoConfigStrings ∅ s')
         /\ NoDup applied
         /\ (forall x, x ∈ applied <-> x ∈ WiredTigerSession._undoConfigStrings s')
         /\ WiredTigerSession._undoConfigStrings
              (WiredTigerSession.set_undoConfigStrings ∅ s') = ∅.
Proof.
  intros Hrc.
  destruct (reconfigureAll_Ok env calls s Hrc) as (s' & Hrun & Hss & Hundo).
  exists s', (map (EvSessionReconfigure (WiredTigerSession._session s)) (map fst calls)).
  split; [exact Hrun |].
  split; [apply reconfigured_map |].
  split; [exact Hss |].
  split; [exact Hundo |].
  split.
  - intros n u s0 Hn. eexists. split; [apply reconfigure_Ok; exact Hn |].
    cbn [WiredTigerSession._undoConfigStrings WiredTigerSession.set_undoConfigStrings].
    split.
    + intros Hne x. destruct (decide (n = u)); [contradiction |]. set_solver.
    + intros Heq. destruct (decide (n = u)); [| contradiction]. set_solver.
  - exists (elements (WiredTigerSession._undoConfigStrings s')).
    split; [| split; [apply NoDup_elements | split; [intros x; apply elem_of_elements | reflexivity]]].
    unfold Session.resetSessionConfiguration, WiredTigerSession.getSession.
    assert (forall config,
              session_reconfigure env (WiredTigerSession._session s') config = 0)
      as Hrc' by (intros config; rewrite Hss; apply Hrc).
    rewrite (bind_Ok _ _ _ _
               (applyUndo_Ok env (WiredTigerSession._session s')
                  (elements (WiredTigerSession._undoConfigStrings s')) Hrc')).
    cbn. rewrite app_nil_r. reflexivity.
Qed.

Lemma reconfigure_undo_roundtrip_witness :
  exists (s' : WiredTigerSession.t) (evs : list event),
    reconfigureAll (env_ok 2 0)
      [("isolation=read-committed", "isolation=snapshot");
       ("cache_max_wait_ms=1", "cache_max_wait_ms=0");
       ("isolation=snapshot", "isolation=snapshot")] (freshSession 0 4096)
    = Ok (evs, s')
    /\ WiredTigerSession._undoConfigStrings s' = {["cache_max_wait_ms=0"]}
    /\ Session.resetSessionConfiguration (env_ok 2 0) s'
       = Ok ([EvSessionReconfigure 4096 "cache_max_wait_ms=0"],
             WiredTigerSession.set_undoConfigStrings ∅ s').
Proof.
  destruct (reconfigure_undo_roundtrip (env_ok 2 0)
              [("isolation=read-committed", "isolation=snapshot");
               ("cache_max_wait_ms=1", "cache_max_wait_ms=0");
               ("isolation=snapshot", "isolation=snapshot")]
              (freshSession 0 4096) (fun _ => eq_refl))
    as (s' & evs & Hrun & _ & Hss & Hundo & _ & applied & Hreset & _).
  exists s', evs. split; [exact Hrun |].
  assert (WiredTigerSession._undoConfigStrings s' = {["cache_max_wait_ms=0"]}) as Hset.
  { rewrite Hundo. cbn.
    repeat (destruct (decide _) as [Hd | Hd]; try discriminate Hd;
            try (exfalso; apply Hd; reflexivity)).
    set_solver. }
  split; [exact Hset |].
  unfold Session.resetSessionConfiguration, WiredTigerSession.getSession.
  rewrite Hset, Hss, elements_singleton. reflexivity.
Defined.

(** ** The cursor cache *)

Lemma evictFromBack_spec (env : Env) (cursorGen cacheSize : Z)
    (backFirst kept : list WiredTigerCachedCursor) (evs : list event) :
  Session.evictFromBack env cursorGen cacheSize backFirst = Ok (evs, kept) ->
  exists gone,
    backFirst = gone ++ kept
    /\ evs = closeEvents gone
    /\ Forall (fun c => cacheSize < age cursorGen c) gone
    /\ Forall (fun c => cursor_close env (_cursor c) = 0) gone
    /\ match kept with
       | [] => True
       | back :: _ => age cursorGen back <= cacheSize
       end.
Proof.
  revert evs kept. induction backFirst as [| back more IH]; intros evs kept H.
  - cbn in H. injection H as <- <-. exists []. repeat split; constructor.
  - cbn [Session.evictFromBack] in H. fold (age cursorGen back) in H.
    destruct (Z.gtb_spec (age cursorGen back) cacheSize) as [Hold | Hyoung].
    + apply bind_Ok_inv in H as (e1 & [] & e2 & He1 & H & ->).
      injection He1 as <-.
      apply bind_Ok_inv in H as (e3 & [] & e4 & He3 & H & ->).
      apply invariantWTOK_Ok_inv in He3 as [Hrc ->].
      destruct (IH _ _ H) as (gone & -> & -> & Hgone & Hclosed & Hkept).
      exists (back :: gone). repeat split; try constructor; assumption.
    + injection H as <- <-. exists []. repeat split; try constructor. exact Hyoung.
Qed.

Lemma evictFromBack_returns (env : Env) (cursorGen cacheSize : Z)
    (backFirst : list WiredTigerCachedCursor) :
  (forall c, In c backFirst -> cursor_close env (_cursor c) = 0) ->
  exists evs kept,
    Session.evictFromBack env cursorGen cacheSize backFirst = Ok (evs, kept).
Proof.
  induction backFirst as [| back more IH]; intros Hclose.
  - eexists _, _. reflexivity.
  - cbn [Session.evictFromBack].
    destruct (u64 (cursorGen - _gen back) >? cacheSize).
    + destruct IH as (evs & kept & IH); [intros c Hc; apply Hclose; now right |].
      cbn. rewrite (Hclose back (or_introl eq_refl)). cbn. rewrite IH.
      eexists _, _. reflexivity.
    + eexists _, _. reflexivity.
Qed.

(** The eviction loop removes a suffix of the list: exactly the entries at the
    back that are older than the limit, closing each, the very last first. *)
Lemma evict_spec (env : Env) (cursorGen cacheSize : Z)
    (cs kept : CursorCache) (evs : list event) :
  Session.evict env cursorGen cacheSize cs = Ok (evs, kept) ->
  exists gone,
    cs = kept ++ gone
    /\ evs = closeEvents (rev gone)
    /\ Forall (fun c => cacheSize < age cursorGen c) gone
    /\ Forall (fun c => cursor_close env (_cursor c) = 0) gone
    /\ (forall front back, kept = front ++ [back] -> age cursorGen back <= cacheSize).
Proof.
  unfold Session.evict. intros H.
  apply bind_Ok_inv in H as (e1 & k & e2 & Hev & H & ->).
  injection H as <- <-.
  destruct (evictFromBack_spec _ _ _ _ _ _ Hev) as (gone & Hrev & -> & Hgone & Hclosed & Hkept).
  exists (rev gone).
  assert (cs = rev k ++ rev gone) as Hcs.
  { rewrite <- rev_app_distr, <- Hrev, rev_involutive. reflexivity. }
  split; [exact Hcs |].
  split; [rewrite rev_involutive, app_nil_r; reflexivity |].
  split; [apply Forall_rev; exact Hgone |].
  split; [apply Forall_rev; exact Hclosed |].
  intros front back Hk.
  assert (k = back :: rev front) as ->.
  { rewrite <- (rev_involutive k), Hk, rev_app_distr. reflexivity. }
  exact Hkept.
Qed.

Lemma releaseCursorBody_spec (env : Env) (id : Z) (h : WT_CURSOR)
    (config : string) (s s' : WiredTigerSession.t) (evs : list event) :
  Session.releaseCursorBody env id h config s = Ok (evs, s') ->
  let cursorGen' := u64 (WiredTigerSession._cursorGen s + 1) in
  let cacheSize := u32 (Z.abs (gWiredTigerCursorCacheSize env)) in
  WiredTigerSession._session s <> nullptr
  /\ h <> nullptr
  /\ cursor_reset env h = 0
  /\ exists kept gone,
       mkCachedCursor id (WiredTigerSession._cursorGen s) h config
         :: WiredTigerSession._cursors s = kept ++ gone
       /\ evs = EvCursorReset h :: closeEvents (rev gone)
       /\ Forall (fun c => cacheSize < age cursorGen' c) gone
       /\ Forall (fun c => cursor_close env (_cursor c) = 0) gone
       /\ (forall front back, kept = front ++ [back] ->
             age cursorGen' back <= cacheSize)
       /\ s' = WiredTigerSession.mk (WiredTigerSession._epoch s)
                 (WiredTigerSession._session s) kept cursorGen'
                 (s32 (WiredTigerSession._cursorsOut s - 1))
                 (WiredTigerSession._idleExpireTime s)
                 (WiredTigerSession._undoConfigStrings s).
Proof.
  unfold Session.releaseCursorBody. intros H.
  apply bind_Ok_inv in H as (? & [] & ? & Hs & H & ->).
  apply invariant_Ok_inv in Hs as [Hs ->].
  apply bind_Ok_inv in H as (? & [] & ? & Hh & H & ->).
  apply invariant_Ok_inv in Hh as [Hh ->].
  apply bind_Ok_inv in H as (? & [] & ? & He & H & ->).
  injection He as <-.
  apply bind_Ok_inv in H as (? & [] & ? & Hr & H & ->).
  apply invariantWTOK_Ok_inv in Hr as [Hr ->].
  apply bind_Ok_inv in H as (? & kept & ? & Hev & H & ->).
  injection H as <- <-.
  cbn [WiredTigerSession._cursorGen WiredTigerSession._cursors
       WiredTigerSession.set_cursorGen WiredTigerSession.set_cursors
       WiredTigerSession.set_cursorsOut] in Hev.
  destruct (evict_spec _ _ _ _ _ _ Hev) as (gone & Hcs & -> & Hgone & Hclosed & Hback).
  cbv zeta.
  split; [intros E; rewrite E in Hs; discriminate |].
  split; [intros E; rewrite E in Hh; discriminate |].
  split; [exact Hr |].
  exists kept, gone.
  split; [exact Hcs |].
  split; [cbn; rewrite app_nil_r; reflexivity |].
  split; [exact Hgone |].
  split; [exact Hclosed |].
  split; [exact Hback | reflexivity].
Qed.

Lemma releaseCursorBody_returns (env : Env) (id : Z) (h : WT_CURSOR)
    (config : string) (s : WiredTigerSession.t) :
  WiredTigerSession._session s <> nullptr ->
  h <> nullptr ->
  cursor_reset env h = 0 ->
  (forall c, In c (WiredTigerSession._cursors s) -> cursor_close env (_cursor c) = 0) ->
  cursor_close env h = 0 ->
  exists evs s', Session.releaseCursorBody env id h config s = Ok (evs, s').
Proof.
  intros Hs Hh Hreset Hclose Hcloseh. unfold Session.releaseCursorBody.
  destruct (Z.eqb_spec (WiredTigerSession._session s) nullptr) as [? | _];
    [contradiction |].
  destruct (Z.eqb_spec h nullptr) as [? | _]; [contradiction |].
  cbn [negb invariant]. cbn [bind ret emit]. rewrite Hreset.
  cbn [invariantWTOK Z.eqb bind ret].
  unfold Session.evict.
  match goal with |- context [Session.evictFromBack env ?g ?n ?l] =>
    destruct (evictFromBack_returns env g n l) as (evs & kept & Hev) end.
  { intros c Hc. apply in_rev in Hc. cbn in Hc. destruct Hc as [<- | Hc];
      [exact Hcloseh | apply Hclose; exact Hc]. }
  rewrite Hev. cbn. eexists _, _. reflexivity.
Qed.

(** Outside shutdown [releaseCursor] is its body, and the scope it enters and
    leaves restores the shutdown word. *)
Lemma releaseCursor_running (env : Env) (id : Z) (h : WT_CURSOR)
    (config : string) (cache : WiredTigerSessionCache.t)
    (s : WiredTigerSession.t) :
  0 <= WiredTigerSessionCache._shuttingDown cache < 2 ^ 32 ->
  WiredTigerSessionCache.blockers cache + 1 < 2 ^ 31 ->
  WiredTigerSessionCache.isShuttingDown cache = false ->
  Session.releaseCursor env id h config (cache, s)
  = do s' <- Session.releaseCursorBody env id h config s; ret (cache, s').
Proof.
  intros Hw Hn Hup.
  destruct (BlockShutdown_enter_spec cache Hw Hn) as (_ & Hflag & _).
  rewrite Hup in Hflag.
  unfold Session.releaseCursor. rewrite Hflag.
  rewrite BlockShutdown_enter_exit by exact Hw. reflexivity.
Qed.

Lemma age_of_new (id g : Z) (h : WT_CURSOR) (config : string) :
  age (u64 (g + 1)) (mkCachedCursor id g h config) = 1.
Proof.
  unfold age, u64. cbn [_gen]. rewrite Zminus_mod_idemp_l.
  replace (g + 1 - g) with 1 by lia. reflexivity.
Qed.

(** Under a limit of at least 1 the cursor just released stays at the front. *)
Lemma new_entry_kept (cursorGen' cacheSize : Z) (new : WiredTigerCachedCursor)
    (cs kept gone : CursorCache) :
  age cursorGen' new = 1 ->
  1 <= cacheSize ->
  new :: cs = kept ++ gone ->
  Forall (fun c => cacheSize < age cursorGen' c) gone ->
  exists kept', kept = new :: kept' /\ cs = kept' ++ gone.
Proof.
  intros Hage Hsize Hsplit Hgone.
  destruct kept as [| k kept'].
  - cbn in Hsplit. subst gone. inversion Hgone as [| ? ? Hnew _]. lia.
  - cbn in Hsplit. injection Hsplit as <- ->. eauto.
Qed.

Lemma findCursor_handle (id : Z) (config : string) (cs rest : CursorCache)
    (c : WT_CURSOR) :
  Session.findCursor id config cs = Some (c, rest) ->
  exists front entry back,
    cs = front ++ entry :: back /\ rest = front ++ back
    /\ _id entry = id /\ _config entry = config /\ _cursor entry = c
    /\ Forall (fun e => ~ (_id e = id /\ _config e = config)) front.
Proof.
  revert rest. induction cs as [| i more IH]; intros rest H; [discriminate |].
  cbn [Session.findCursor] in H.
  destruct (Z.eqb_spec (_id i) id) as [Hid | Hid].
  - destruct (decide (_config i = config)) as [Hcfg | Hcfg].
    + rewrite bool_decide_eq_true_2 in H by exact Hcfg. injection H as <- <-.
      exists [], i, more. repeat split; try assumption. constructor.
    + rewrite bool_decide_eq_false_2 in H by exact Hcfg. cbn in H.
      destruct (Session.findCursor id config more) as [[c' rest'] |] eqn:Hf;
        [| discriminate].
      injection H as <- <-.
      destruct (IH _ eq_refl) as (front & entry & back & -> & -> & ? & ? & ? & ?).
      exists (i :: front), entry, back. repeat split; try assumption.
      constructor; [intros [_ ?]; contradiction | assumption].
  - cbn in H.
    destruct (Session.findCursor id config more) as [[c' rest'] |] eqn:Hf;
      [| discriminate].
    injection H as <- <-.
    destruct (IH _ eq_refl) as (front & entry & back & -> & -> & ? & ? & ? & ?).
    exists (i :: front), entry, back. repeat split; try assumption.
    constructor; [intros [? _]; contradiction | assumption].
Qed.

Lemma cacheSize_of_positive (limit : Z) :
  1 <= limit <= INT32_MAX -> u32 (Z.abs limit) = limit.
Proof.
  unfold INT32_MAX, u32. intros H.
  rewrite Z.abs_eq by lia. apply Z.mod_small. lia.
Qed.

Lemma findCursor_in (id : Z) (config : string) (cs rest : CursorCache)
    (c : WT_CURSOR) :
  Session.findCursor id config cs = Some (c, rest) ->
  exists entry, In entry cs /\ _config entry = config /\ _cursor entry = c.
Proof.
  intros H.
  destruct (findCursor_handle _ _ _ _ _ H) as (front & entry & back & -> & _ & _ & Hc & Hh & _).
  exists entry. split; [| split; assumption].
  apply in_or_app. right. left. reflexivity.
Qed.

(** C1: on a cache that is not shutting down and with a cursor-cache size of
    at least 1, [releaseCursor(id, h, cfg)] returns whenever the engine accepts
    the reset and the closes it is asked for; once it has returned, the released
    entry is at the front of the cursor list, [getCachedCursor(id, cfg)] returns
    [h] and takes that entry out of the list, and [getCachedCursor(id, cfg')]
    with a different configuration string returns [nullptr] or the handle of
    an entry cached earlier under [cfg'] itself, hence not [h] (the handle
    being released is checked out, that is, held by no entry of the list). *)
Theorem releaseCursor_getCachedCursor (env : Env) (id : Z) (h : WT_CURSOR)
    (cfg : string) (cache : WiredTigerSessionCache.t)
    (s : WiredTigerSession.t) :
  0 <= WiredTigerSessionCache._shuttingDown cache < 2 ^ 32 ->
  WiredTigerSessionCache.blockers cache + 1 < 2 ^ 31 ->
  WiredTigerSessionCache.isShuttingDown cache = false ->
  1 <= gWiredTigerCursorCacheSize env <= INT32_MAX ->
  (WiredTigerSession._session s <> nullptr -> h <> nullptr ->
   cursor_reset env h = 0 -> (forall c, cursor_close env c = 0) ->
   exists evs st', Session.releaseCursor env id h cfg (cache, s) = Ok (evs, st'))
  /\ forall evs cache' s',
       Session.releaseCursor env id h cfg (cache, s) = Ok (evs, (cache', s')) ->
       cache' = cache
       /\ (exists rest gone,
             WiredTigerSession._cursors s'
             = mkCachedCursor id (WiredTigerSession._cursorGen s) h cfg :: rest
             /\ WiredTigerSession._cursors s = rest ++ gone
             /\ Session.getCachedCursor id cfg s'
                = (h, WiredTigerSession.set_cursorsOut
                        (s32 (WiredTigerSession._cursorsOut s' + 1))
                        (WiredTigerSession.set_cursors rest s')))
       /\ (forall cfg', cfg' <> cfg ->
             (fst (Session.getCachedCursor id cfg' s') = nullptr
              \/ exists entry,
                   In entry (WiredTigerSession._cursors s)
                   /\ _id entry = id /\ _config entry = cfg'
                   /\ _cursor entry = fst (Session.getCachedCursor id cfg' s'))
             /\ (~ In h (handles (WiredTigerSession._cursors s)) ->
                 fst (Session.getCachedCursor id cfg' s') <> h)).
Proof.
  intros Hw Hn Hup Hlimit.
  rewrite (releaseCursor_running env id h cfg cache s Hw Hn Hup).
  split.
  - intros Hs Hh Hreset Hclose.
    destruct (releaseCursorBody_returns env id h cfg s Hs Hh Hreset
                (fun c _ => Hclose (_cursor c)) (Hclose h)) as (evs & s' & Hbody).
    rewrite Hbody. eexists _, _. reflexivity.
  - intros evs cache' s' H.
    apply bind_Ok_inv in H as (? & s1 & ? & Hbody & H & ->).
    injection H as <- <- <-.
    destruct (releaseCursorBody_spec _ _ _ _ _ _ _ Hbody)
      as (Hs & Hh & _ & kept & gone & Hsplit & _ & Hgone & _ & _ & ->).
    rewrite (cacheSize_of_positive _ Hlimit) in Hgone.
    destruct (new_entry_kept _ _ _ _ _ _ (age_of_new id _ h cfg)
                (proj1 Hlimit) Hsplit Hgone) as (rest & -> & Hold).
    split; [reflexivity |]. split.
    + exists rest, gone. split; [reflexivity |]. split; [exact Hold |].
      unfold Session.getCachedCursor.
      cbn [WiredTigerSession._cursors Session.findCursor _id _config _cursor].
      rewrite Z.eqb_refl, bool_decide_eq_true_2 by reflexivity. reflexivity.
    + intros cfg' Hcfg.
      unfold Session.getCachedCursor.
      cbn [WiredTigerSession._cursors Session.findCursor _id _config _cursor].
      rewrite (bool_decide_eq_false_2 (cfg = cfg')) by congruence.
      rewrite andb_false_r.
      destruct (Session.findCursor id cfg' rest) as [[c rest'] |] eqn:Hfind.
      * cbn [fst].
        destruct (findCursor_handle _ _ _ _ _ Hfind)
          as (front & entry & back & Hrest & _ & Hid & Hc & Hentry & _).
        assert (In entry (WiredTigerSession._cursors s)) as Hin.
        { rewrite Hold, Hrest. apply in_or_app. left.
          apply in_or_app. right. left. reflexivity. }
        split.
        -- right. exists entry. repeat split; assumption.
        -- intros Hfresh ->. apply Hfresh.
           unfold handles. rewrite <- Hentry. apply in_map. exact Hin.
      * cbn [fst]. split; [left; reflexivity | congruence].
Qed.

Lemma releaseCursor_getCachedCursor_witness :
  let cache := WiredTigerSessionCache.create true in
  let s := WiredTigerSession.set_cursorsOut 1 (freshSession 0 4096) in
  exists evs s',
    Session.releaseCursor (env_ok 1 0) 7 8192 "cfgA" (cache, s) = Ok (evs, (cache, s'))
    /\ fst (Session.getCachedCursor 7 "cfgA" s') = 8192
    /\ fst (Session.getCachedCursor 7 "cfgB" s') <> 8192.
Proof.
  intros cache s.
  assert (0 <= WiredTigerSessionCache._shuttingDown cache < 2 ^ 32) as Hw
    by (simpl; lia).
  assert (WiredTigerSessionCache.blockers cache + 1 < 2 ^ 31) as Hn
    by reflexivity.
  assert (1 <= gWiredTigerCursorCacheSize (env_ok 1 0) <= INT32_MAX) as Hl
    by (split; discriminate).
  destruct (releaseCursor_getCachedCursor (env_ok 1 0) 7 8192 "cfgA" cache s
              Hw Hn eq_refl Hl) as [Hreturns Hafter].
  destruct Hreturns as (evs & [cache' s'] & Hrun);
    [discriminate | discriminate | reflexivity | reflexivity |].
  destruct (Hafter evs cache' s' Hrun) as (-> & (rest & gone & _ & _ & Hget) & Hother).
  exists evs, s'. split; [exact Hrun |]. split.
  - rewrite Hget. reflexivity.
  - apply (Hother "cfgB"); [discriminate |]. simpl. tauto.
Defined.

(** *** Ages under release and eviction *)

Lemma age_range (cursorGen : Z) (c : WiredTigerCachedCursor) :
  0 <= age cursorGen c < 2 ^ 64.
Proof. unfold age, u64. apply Z.mod_pos_bound. lia. Qed.

Lemma age_after_release (cursorGen : Z) (c : WiredTigerCachedCursor) :
  age cursorGen c < 2 ^ 64 - 1 ->
  age (u64 (cursorGen + 1)) c = age cursorGen c + 1.
Proof.
  intros Hb. pose proof (age_range cursorGen c) as Hr. revert Hb Hr.
  unfold age, u64. intros Hb Hr.
  rewrite Zminus_mod_idemp_l.
  replace (cursorGen + 1 - _gen c) with (cursorGen - _gen c + 1) by lia.
  rewrite <- Zplus_mod_idemp_l. apply Z.mod_small. lia.
Qed.

Lemma agesAbove_after_release (lo cursorGen bound : Z) (cs : CursorCache) :
  bound < 2 ^ 64 - 1 ->
  agesAbove lo cursorGen cs ->
  Forall (fun c => age cursorGen c <= bound) cs ->
  agesAbove (lo + 1) (u64 (cursorGen + 1)) cs.
Proof.
  intros Hb. revert lo. induction cs as [| c more IH]; intros lo Hs Hall; [exact I |].
  destruct Hs as [Hlo Hmore]. inversion Hall as [| ? ? Hc Hrest]; subst.
  cbn [agesAbove]. rewrite (age_after_release cursorGen c) by lia.
  split; [lia | apply IH; assumption].
Qed.

Lemma agesAbove_prefix (lo cursorGen : Z) (kept gone : CursorCache) :
  agesAbove lo cursorGen (kept ++ gone) -> agesAbove lo cursorGen kept.
Proof.
  revert lo. induction kept as [| c more IH]; intros lo H; [exact I |].
  destruct H as [Hlo Hmore]. split; [exact Hlo | apply IH; exact Hmore].
Qed.

Lemma agesAbove_lower (lo cursorGen : Z) (cs : CursorCache) :
  agesAbove lo cursorGen cs -> Forall (fun c => lo < age cursorGen c) cs.
Proof.
  revert lo. induction cs as [| c more IH]; intros lo H; constructor.
  - exact (proj1 H).
  - eapply List.Forall_impl; [| apply IH; exact (proj2 H)].
    cbn. intros x Hx. destruct H as [Hlo _]. lia.
Qed.

(** In a list ordered by age the entry at the back is the oldest. *)
Lemma agesAbove_back_oldest (lo cursorGen : Z) (front : CursorCache)
    (back : WiredTigerCachedCursor) :
  agesAbove lo cursorGen (front ++ [back]) ->
  Forall (fun c => age cursorGen c <= age cursorGen back) (front ++ [back]).
Proof.
  revert lo. induction front as [| c more IH]; intros lo H.
  - constructor; [lia | constructor].
  - destruct H as [Hlo Hmore]. constructor; [| eapply IH; exact Hmore].
    pose proof (agesAbove_lower _ _ _ Hmore) as Hl.
    apply List.Forall_forall with (x := back) in Hl;
      [lia | apply in_or_app; right; left; reflexivity].
Qed.

(** A list ordered by age with ages in [(lo, limit]] has at most
    [limit - lo] entries. *)
Lemma agesAbove_length (lo cursorGen limit : Z) (cs : CursorCache) :
  lo <= limit ->
  agesAbove lo cursorGen cs ->
  Forall (fun c => age cursorGen c <= limit) cs ->
  Z.of_nat (length cs) <= limit - lo.
Proof.
  revert lo. induction cs as [| c more IH]; intros lo Hlo Hs Hall.
  - cbn. lia.
  - destruct Hs as [Hc Hmore]. inversion Hall as [| ? ? Hcl Hrest]; subst.
    specialize (IH (age cursorGen c) Hcl Hmore Hrest).
    cbn [length]. lia.
Qed.

Lemma cacheAged_length (limit : Z) (s : WiredTigerSession.t) :
  0 <= limit -> cacheAged limit s ->
  Z.of_nat (length (WiredTigerSession._cursors s)) <= limit.
Proof.
  intros Hl [Hs Hall].
  pose proof (agesAbove_length 0 _ limit _ Hl Hs Hall). lia.
Qed.

(** One release under limit [limit]: whatever bound the ages obeyed before,
    afterwards the list is ordered by age with no entry older than [limit]. *)
Lemma releaseCursorBody_aged (env : Env) (id : Z) (h : WT_CURSOR)
    (config : string) (s s' : WiredTigerSession.t) (evs : list event)
    (bound : Z) :
  bound < 2 ^ 64 - 1 ->
  1 <= gWiredTigerCursorCacheSize env <= INT32_MAX ->
  cacheAged bound s ->
  Session.releaseCursorBody env id h config s = Ok (evs, s') ->
  cacheAged (gWiredTigerCursorCacheSize env) s'.
Proof.
  intros Hb Hlimit [Hsorted Hall] Hbody.
  destruct (releaseCursorBody_spec _ _ _ _ _ _ _ Hbody)
    as (_ & _ & _ & kept & gone & Hsplit & _ & _ & _ & Hback & ->).
  rewrite (cacheSize_of_positive _ Hlimit) in Hback.
  assert (agesAbove 0 (u64 (WiredTigerSession._cursorGen s + 1)) (kept ++ gone))
    as Hnew.
  { rewrite <- Hsplit. cbn [agesAbove]. rewrite age_of_new.
    split; [lia |].
    apply (agesAbove_after_release 0 _ bound); assumption. }
  apply agesAbove_prefix in Hnew.
  split; cbn [WiredTigerSession._cursorGen WiredTigerSession._cursors].
  - exact Hnew.
  - destruct kept as [| back front _] using rev_ind; [constructor |].
    eapply List.Forall_impl; [| apply (agesAbove_back_oldest _ _ _ _ Hnew)].
    cbn. intros c Hc. specialize (Hback front back eq_refl). lia.
Qed.

(** As far as the session goes, [releaseCursor] is either the guarded no-op of
    a cache that is shutting down or its body. *)
Lemma releaseCursor_cases (env : Env) (id : Z) (h : WT_CURSOR) (config : string)
    (cache cache' : WiredTigerSessionCache.t) (s s' : WiredTigerSession.t)
    (evs : list event) :
  Session.releaseCursor env id h config (cache, s) = Ok (evs, (cache', s')) ->
  (evs = [] /\ s' = s)
  \/ Session.releaseCursorBody env id h config s = Ok (evs, s').
Proof.
  unfold Session.releaseCursor.
  destruct (WiredTigerSessionCache.isShuttingDown _).
  - intros [= <- _ <-]. left. split; reflexivity.
  - intros H. apply bind_Ok_inv in H as (? & s1 & ? & Hbody & H & ->).
    injection H as <- _ <-. right. rewrite app_nil_r. exact Hbody.
Qed.

Lemma releaseAll_aged (env : Env) (calls : list (Z * WT_CURSOR * string))
    (cache cache' : WiredTigerSessionCache.t) (s s' : WiredTigerSession.t)
    (evs : list event) :
  1 <= gWiredTigerCursorCacheSize env <= INT32_MAX ->
  cacheAged (gWiredTigerCursorCacheSize env) s ->
  releaseAll env calls (cache, s) = Ok (evs, (cache', s')) ->
  cacheAged (gWiredTigerCursorCacheSize env) s'.
Proof.
  intros Hlimit. revert cache s evs.
  induction calls as [| [[id h] config] more IH]; intros cache s evs Haged Hrun.
  - injection Hrun as _ _ <-. exact Haged.
  - cbn [releaseAll] in Hrun.
    apply bind_Ok_inv in Hrun as (? & [cache1 s1] & ? & Hone & Hmore & ->).
    refine (IH cache1 s1 _ _ Hmore).
    destruct (releaseCursor_cases _ _ _ _ _ _ _ _ _ Hone) as [[_ ->] | Hbody];
      [exact Haged |].
    eapply (releaseCursorBody_aged env id h config s s1);
      [| exact Hlimit | exact Haged | exact Hbody].
    unfold INT32_MAX in Hlimit. lia.
Qed.

(** Which entries one release evicts: a suffix of the list with the new entry
    in front, closed from the back, all of them older than the limit, while
    everything that stays is at most as old as the limit. *)
Lemma releaseCursorBody_evicts (env : Env) (id : Z) (h : WT_CURSOR)
    (config : string) (s s' : WiredTigerSession.t) (evs : list event)
    (bound : Z) :
  bound < 2 ^ 64 - 1 ->
  1 <= gWiredTigerCursorCacheSize env <= INT32_MAX ->
  cacheAged bound s ->
  Session.releaseCursorBody env id h config s = Ok (evs, s') ->
  exists gone,
    mkCachedCursor id (WiredTigerSession._cursorGen s) h config
      :: WiredTigerSession._cursors s
    = WiredTigerSession._cursors s' ++ gone
    /\ evs = EvCursorReset h :: closeEvents (rev gone)
    /\ Forall (fun c => gWiredTigerCursorCacheSize env
                        < age (WiredTigerSession._cursorGen s') c) gone
    /\ Forall (fun c => age (WiredTigerSession._cursorGen s') c
                        <= gWiredTigerCursorCacheSize env)
         (WiredTigerSession._cursors s').
Proof.
  intros Hb Hlimit Haged Hbody.
  destruct (releaseCursorBody_aged _ _ _ _ _ _ _ _ Hb Hlimit Haged Hbody)
    as [_ Hkept].
  destruct (releaseCursorBody_spec _ _ _ _ _ _ _ Hbody)
    as (_ & _ & _ & kept & gone & Hsplit & -> & Hgone & _ & _ & ->).
  rewrite (cacheSize_of_positive _ Hlimit) in Hgone.
  exists gone. repeat split; assumption.
Qed.

Lemma filter_split {A} (p : A -> bool) (kept gone : list A) :
  Forall (fun x => p x = true) kept ->
  Forall (fun x => p x = false) gone ->
  List.filter p (kept ++ gone) = kept.
Proof.
  intros Hk Hg. rewrite List.filter_app.
  assert (List.filter p kept = kept) as ->.
  { induction Hk as [| x l Hx _ IH]; [reflexivity |]. cbn. now rewrite Hx, IH. }
  assert (List.filter p gone = []) as ->.
  { induction Hg as [| x l Hx _ IH]; [reflexivity |]. cbn. now rewrite Hx. }
  apply app_nil_r.
Qed.

(** What stays after a release is exactly what is not older than the limit. *)
Lemma releaseCursorBody_keeps (env : Env) (id : Z) (h : WT_CURSOR)
    (config : string) (s s' : WiredTigerSession.t) (evs : list event)
    (bound : Z) :
  bound < 2 ^ 64 - 1 ->
  1 <= gWiredTigerCursorCacheSize env <= INT32_MAX ->
  cacheAged bound s ->
  Session.releaseCursorBody env id h config s = Ok (evs, s') ->
  WiredTigerSession._cursors s'
  = List.filter
      (fun c => age (u64 (WiredTigerSession._cursorGen s + 1)) c
                <=? gWiredTigerCursorCacheSize env)
      (mkCachedCursor id (WiredTigerSession._cursorGen s) h config
         :: WiredTigerSession._cursors s).
Proof.
  intros Hb Hlimit Haged Hbody.
  destruct (releaseCursorBody_evicts _ _ _ _ _ _ _ _ Hb Hlimit Haged Hbody)
    as (gone & Hsplit & _ & Hgone & Hkept).
  assert (WiredTigerSession._cursorGen s' = u64 (WiredTigerSession._cursorGen s + 1))
    as Hgen.
  { destruct (releaseCursorBody_spec _ _ _ _ _ _ _ Hbody)
      as (_ & _ & _ & ? & ? & _ & _ & _ & _ & _ & ->). reflexivity. }
  rewrite Hgen in Hgone, Hkept. rewrite Hsplit. symmetry.
  apply filter_split.
  - eapply List.Forall_impl; [| exact Hkept]. cbn. intros c Hc. now apply Z.leb_le.
  - eapply List.Forall_impl; [| exact Hgone]. cbn. intros c Hc. apply Z.leb_gt. lia.
Qed.

Lemma releaseCursor_running_inv (env : Env) (id : Z) (h : WT_CURSOR)
    (config : string) (cache cache' : WiredTigerSessionCache.t)
    (s s' : WiredTigerSession.t) (evs : list event) :
  0 <= WiredTigerSessionCache._shuttingDown cache < 2 ^ 32 ->
  WiredTigerSessionCache.blockers cache + 1 < 2 ^ 31 ->
  WiredTigerSessionCache.isShuttingDown cache = false ->
  Session.releaseCursor env id h config (cache, s) = Ok (evs, (cache', s')) ->
  cache' = cache /\ Session.releaseCursorBody env id h config s = Ok (evs, s').
Proof.
  intros Hw Hn Hup H.
  rewrite (releaseCursor_running env id h config cache s Hw Hn Hup) in H.
  apply bind_Ok_inv in H as (? & s1 & ? & Hbody & H & ->).
  injection H as <- <- <-. rewrite app_nil_r. split; [reflexivity | exact Hbody].
Qed.

Lemma releaseCursorBody_step (env : Env) (id : Z) (h : WT_CURSOR)
    (config : string) (s s' : WiredTigerSession.t) (evs : list event)
    (bound : Z) :
  bound < 2 ^ 64 - 1 ->
  1 <= gWiredTigerCursorCacheSize env <= INT32_MAX ->
  cacheAged bound s ->
  Session.releaseCursorBody env id h config s = Ok (evs, s') ->
  cacheAged (gWiredTigerCursorCacheSize env) s'
  /\ WiredTigerSession._cursorGen s' = u64 (WiredTigerSession._cursorGen s + 1)
  /\ WiredTigerSession._cursors s'
     = List.filter
         (fun c => age (u64 (WiredTigerSession._cursorGen s + 1)) c
                   <=? gWiredTigerCursorCacheSize env)
         (mkCachedCursor id (WiredTigerSession._cursorGen s) h config
            :: WiredTigerSession._cursors s)
  /\ exists gone,
       mkCachedCursor id (WiredTigerSession._cursorGen s) h config
         :: WiredTigerSession._cursors s
       = WiredTigerSession._cursors s' ++ gone
       /\ evs = EvCursorReset h :: closeEvents (rev gone).
Proof.
  intros Hb Hlimit Haged Hbody.
  split; [exact (releaseCursorBody_aged _ _ _ _ _ _ _ _ Hb Hlimit Haged Hbody) |].
  split.
  { destruct (releaseCursorBody_spec _ _ _ _ _ _ _ Hbody)
      as (_ & _ & _ & ? & ? & _ & _ & _ & _ & _ & ->). reflexivity. }
  split; [exact (releaseCursorBody_keeps _ _ _ _ _ _ _ _ Hb Hlimit Haged Hbody) |].
  destruct (releaseCursorBody_evicts _ _ _ _ _ _ _ _ Hb Hlimit Haged Hbody)
    as (gone & Hsplit & Hevs & _).
  exists gone. split; assumption.
Qed.

(** Scenario A, for any engine that accepts the calls and any three handles. *)
Lemma releaseCursor_scenarioA (env : Env) (cache cache' : WiredTigerSessionCache.t)
    (s0 s' : WiredTigerSession.t) (h1 h2 h3 : WT_CURSOR) (evs : list event) :
  0 <= WiredTigerSessionCache._shuttingDown cache < 2 ^ 32 ->
  WiredTigerSessionCache.blockers cache + 1 < 2 ^ 31 ->
  WiredTigerSessionCache.isShuttingDown cache = false ->
  gWiredTigerCursorCacheSize env = 2 ->
  WiredTigerSession._cursors s0 = [] ->
  WiredTigerSession._cursorGen s0 = 0 ->
  releaseAll env [(1, h1, "cfgA"); (2, h2, "cfgA"); (3, h3, "cfgA")] (cache, s0)
  = Ok (evs, (cache', s')) ->
  WiredTigerSession._cursors s'
  = [mkCachedCursor 3 2 h3 "cfgA"; mkCachedCursor 2 1 h2 "cfgA"]
  /\ evs = [EvCursorReset h1; EvCursorReset h2; EvCursorReset h3; EvCursorClose h1]
  /\ Session.getCachedCursor 1 "cfgA" s' = (nullptr, s').
Proof.
  intros Hw Hn Hup Hsize Hempty Hgen0 Hrun.
  assert (1 <= gWiredTigerCursorCacheSize env <= INT32_MAX) as Hlimit
    by (rewrite Hsize; split; discriminate).
  assert (cacheAged 2 s0) as Haged0.
  { split; rewrite Hempty; constructor. }
  cbn [releaseAll] in Hrun.
  apply bind_Ok_inv in Hrun as (e1 & [c1 s1] & ? & H1 & Hrun & ->).
  apply releaseCursor_running_inv in H1 as [-> B1]; try assumption.
  apply bind_Ok_inv in Hrun as (e2 & [c2 s2] & ? & H2 & Hrun & ->).
  apply releaseCursor_running_inv in H2 as [-> B2]; try assumption.
  apply bind_Ok_inv in Hrun as (e3 & [c3 s3] & ? & H3 & Hrun & ->).
  apply releaseCursor_running_inv in H3 as [-> B3]; try assumption.
  injection Hrun as <- <- <-.
  destruct (releaseCursorBody_step _ _ _ _ _ _ _ 2 ltac:(lia) Hlimit Haged0 B1)
    as (Haged1 & G1 & K1 & gone1 & S1 & ->).
  rewrite Hsize in Haged1.
  destruct (releaseCursorBody_step _ _ _ _ _ _ _ 2 ltac:(lia) Hlimit Haged1 B2)
    as (Haged2 & G2 & K2 & gone2 & S2 & ->).
  rewrite Hsize in Haged2.
  destruct (releaseCursorBody_step _ _ _ _ _ _ _ 2 ltac:(lia) Hlimit Haged2 B3)
    as (_ & G3 & K3 & gone3 & S3 & ->).
  rewrite Hsize, Hempty, Hgen0 in *.
  change (u64 (0 + 1)) with 1 in *. cbn in K1. rewrite K1, G1 in *.
  change (u64 (1 + 1)) with 2 in *. cbn in K2. rewrite K2, G2 in *.
  change (u64 (2 + 1)) with 3 in *. cbn in K3. rewrite K3 in *.
  cbn in S1, S2, S3.
  injection S1 as <-. injection S2 as <-. injection S3 as <-.
  split; [reflexivity |]. split; [reflexivity |].
  unfold Session.getCachedCursor. rewrite K3. reflexivity.
Qed.

Lemma cacheAged_empty (limit : Z) (s : WiredTigerSession.t) :
  WiredTigerSession._cursors s = [] -> cacheAged limit s.
Proof. intros H. split; rewrite H; constructor. Qed.

(** C2: with a fixed cursor-cache size [L >= 1], after every sequence of
    [releaseCursor] calls on a session (one that starts with its cursor list
    ordered by age within [L], such as a session with no cached cursor) the
    session holds at most [L] cached cursors. A further release evicts from
    the back of the list, closing what it evicts, the oldest first: the
    evicted entries are exactly those older than [L] generations, all that
    stays is at most [L] generations old. With [L = 2], releasing ids 1, 2, 3
    (configuration "cfgA") leaves ids 3 and 2 cached, closes the cursor of id
    1, and [getCachedCursor(1, "cfgA")] returns [nullptr]. *)
Theorem releaseCursor_cache_bounded (env : Env)
    (calls : list (Z * WT_CURSOR * string))
    (cache cache' : WiredTigerSessionCache.t) (s s' : WiredTigerSession.t)
    (evs : list event) :
  let L := gWiredTigerCursorCacheSize env in
  1 <= L <= INT32_MAX ->
  cacheAged L s ->
  releaseAll env calls (cache, s) = Ok (evs, (cache', s')) ->
  Z.of_nat (length (WiredTigerSession._cursors s')) <= L
  /\ (forall id h config evs1 cache1 s1,
        Session.releaseCursor env id h config (cache', s') = Ok (evs1, (cache1, s1)) ->
        (evs1 = [] /\ s1 = s')
        \/ exists gone,
             mkCachedCursor id (WiredTigerSession._cursorGen s') h config
               :: WiredTigerSession._cursors s'
             = WiredTigerSession._cursors s1 ++ gone
             /\ evs1 = EvCursorReset h :: closeEvents (rev gone)
             /\ Forall (fun c => L < age (WiredTigerSession._cursorGen s1) c) gone
             /\ Forall (fun c => age (WiredTigerSession._cursorGen s1) c <= L)
                  (WiredTigerSession._cursors s1)
             /\ Z.of_nat (length (WiredTigerSession._cursors s1)) <= L)
  /\ (L = 2 ->
      forall cacheA cacheA' s0 sA h1 h2 h3 evsA,
        0 <= WiredTigerSessionCache._shuttingDown cacheA < 2 ^ 32 ->
        WiredTigerSessionCache.blockers cacheA + 1 < 2 ^ 31 ->
        WiredTigerSessionCache.isShuttingDown cacheA = false ->
        WiredTigerSession._cursors s0 = [] ->
        WiredTigerSession._cursorGen s0 = 0 ->
        releaseAll env [(1, h1, "cfgA"); (2, h2, "cfgA"); (3, h3, "cfgA")]
          (cacheA, s0) = Ok (evsA, (cacheA', sA)) ->
        map _id (WiredTigerSession._cursors sA) = [3; 2]
        /\ handles (WiredTigerSession._cursors sA) = [h3; h2]
        /\ In (EvCursorClose h1) evsA
        /\ Session.getCachedCursor 1 "cfgA" sA = (nullptr, sA)).
Proof.
  intros L Hlimit Haged Hrun. subst L.
  pose proof (releaseAll_aged env calls cache cache' s s' evs Hlimit Haged Hrun)
    as Haged'.
  assert (gWiredTigerCursorCacheSize env < 2 ^ 64 - 1) as Hb
    by (unfold INT32_MAX in Hlimit; lia).
  split; [apply cacheAged_length; [lia | exact Haged'] |].
  split.
  - intros id h config evs1 cache1 s1 Hone.
    destruct (releaseCursor_cases _ _ _ _ _ _ _ _ _ Hone) as [Hnoop | Hbody];
      [left; exact Hnoop | right].
    destruct (releaseCursorBody_evicts _ _ _ _ _ _ _ _ Hb Hlimit Haged' Hbody)
      as (gone & Hsplit & Hevs & Hgone & Hkept).
    exists gone. repeat split; try assumption.
    apply cacheAged_length; [lia |].
    exact (releaseCursorBody_aged _ _ _ _ _ _ _ _ Hb Hlimit Haged' Hbody).
  - intros Htwo cacheA cacheA' s0 sA h1 h2 h3 evsA Hw Hn Hup Hempty Hgen0 HrunA.
    destruct (releaseCursor_scenarioA env cacheA cacheA' s0 sA h1 h2 h3 evsA
                Hw Hn Hup Htwo Hempty Hgen0 HrunA) as (Hcs & -> & Hget).
    rewrite Hcs. repeat split; try reflexivity; try exact Hget.
    cbn. tauto.
Qed.

Lemma releaseCursor_cache_bounded_witness :
  let cache := WiredTigerSessionCache.create true in
  let s0 := WiredTigerSession.set_cursorsOut 3 (freshSession 0 4096) in
  exists evs s',
    releaseAll (env_ok 2 0) [(1, 101, "cfgA"); (2, 102, "cfgA"); (3, 103, "cfgA")]
      (cache, s0) = Ok (evs, (cache, s'))
    /\ Z.of_nat (length (WiredTigerSession._cursors s')) <= 2
    /\ map _id (WiredTigerSession._cursors s') = [3; 2]
    /\ Session.getCachedCursor 1 "cfgA" s' = (nullptr, s').
Proof.
  intros cache s0.
  assert (releaseAll (env_ok 2 0)
            [(1, 101, "cfgA"); (2, 102, "cfgA"); (3, 103, "cfgA")] (cache, s0)
          = Ok ([EvCursorReset 101; EvCursorReset 102; EvCursorReset 103;
                 EvCursorClose 101],
                (cache,
                 WiredTigerSession.mk 0 4096
                   [mkCachedCursor 3 2 103 "cfgA"; mkCachedCursor 2 1 102 "cfgA"]
                   3 0 Date_t_min ∅))) as Hrun by reflexivity.
  assert (1 <= gWiredTigerCursorCacheSize (env_ok 2 0) <= INT32_MAX) as Hl
    by (split; discriminate).
  destruct (releaseCursor_cache_bounded (env_ok 2 0) _ cache cache s0 _ _
              Hl (cacheAged_empty 2 s0 eq_refl) Hrun) as (Hlen & _ & HA).
  assert (0 <= WiredTigerSessionCache._shuttingDown cache < 2 ^ 32) as Hw
    by (simpl; lia).
  assert (WiredTigerSessionCache.blockers cache + 1 < 2 ^ 31) as Hn
    by reflexivity.
  destruct (HA eq_refl cache cache s0 _ 101 102 103 _ Hw Hn eq_refl eq_refl eq_refl Hrun)
    as (Hids & _ & _ & Hget).
  eexists _, _. split; [exact Hrun |]. split; [exact Hlen |].
  split; [exact Hids | exact Hget].
Defined.

(** *** What [getCachedCursor] keeps *)

Lemma agesAbove_weaken (lo lo' cursorGen : Z) (cs : CursorCache) :
  lo <= lo' -> agesAbove lo' cursorGen cs -> agesAbove lo cursorGen cs.
Proof.
  destruct cs as [| c more]; [intros; exact I |].
  intros Hle [Hc Hmore]. split; [lia | exact Hmore].
Qed.

Lemma agesAbove_remove (lo cursorGen : Z) (front back : CursorCache)
    (entry : WiredTigerCachedCursor) :
  agesAbove lo cursorGen (front ++ entry :: back) ->
  agesAbove lo cursorGen (front ++ back).
Proof.
  revert lo. induction front as [| c more IH]; intros lo H.
  - destruct H as [He Hback]. cbn. eapply agesAbove_weaken; [| exact Hback]. lia.
  - destruct H as [Hc Hmore]. split; [exact Hc | apply IH; exact Hmore].
Qed.

(** Taking a cursor out of the cache leaves the list ordered by age and
    within its bound; a hit takes the handle out of the list. *)
Lemma getCachedCursor_aged (limit id : Z) (config : string)
    (s s' : WiredTigerSession.t) (c : WT_CURSOR) :
  cacheAged limit s ->
  Session.getCachedCursor id config s = (c, s') ->
  cacheAged limit s'.
Proof.
  intros [Hsorted Hall]. unfold Session.getCachedCursor.
  destruct (Session.findCursor id config (WiredTigerSession._cursors s))
    as [[c' rest] |] eqn:Hfind.
  - intros [= <- <-].
    destruct (findCursor_handle _ _ _ _ _ Hfind)
      as (front & entry & back & Hcs & -> & _).
    rewrite Hcs in Hsorted, Hall.
    split; cbn [WiredTigerSession._cursorGen WiredTigerSession._cursors
                WiredTigerSession.set_cursorsOut WiredTigerSession.set_cursors].
    + eapply agesAbove_remove; exact Hsorted.
    + apply Forall_app in Hall as [Hf Hb]. inversion Hb; subst.
      apply Forall_app. split; assumption.
  - intros [= <- <-]. split; assumption.
Qed.

Lemma getCachedCursor_checks_out (id : Z) (config : string)
    (s s' : WiredTigerSession.t) (c : WT_CURSOR) :
  List.NoDup (handles (WiredTigerSession._cursors s)) ->
  ~ In nullptr (handles (WiredTigerSession._cursors s)) ->
  Session.getCachedCursor id config s = (c, s') ->
  List.NoDup (handles (WiredTigerSession._cursors s'))
  /\ ~ In c (handles (WiredTigerSession._cursors s')).
Proof.
  intros Hnodup Hnonnull. unfold Session.getCachedCursor.
  destruct (Session.findCursor id config (WiredTigerSession._cursors s))
    as [[c' rest] |] eqn:Hfind.
  - intros [= <- <-].
    destruct (findCursor_handle _ _ _ _ _ Hfind)
      as (front & entry & back & Hcs & -> & _ & _ & <- & _).
    rewrite Hcs in Hnodup. unfold handles in *.
    rewrite map_app in Hnodup. cbn [map] in Hnodup.
    cbn [WiredTigerSession._cursors WiredTigerSession.set_cursorsOut
         WiredTigerSession.set_cursors].
    rewrite map_app. split.
    + eapply List.NoDup_remove_1. exact Hnodup.
    + eapply List.NoDup_remove_2. exact Hnodup.
  - intros [= <- <-]. split; assumption.
Qed.

(** ** Releasing a session *)

Lemma closeMatching_all (env : Env) (uri : string) (cs kept : CursorCache)
    (evs : list event) :
  Session.closeMatching env true uri cs = Ok (evs, kept) ->
  kept = List.filter (fun c => _cursor c =? nullptr) cs
  /\ evs = closeEvents (List.filter (fun c => negb (_cursor c =? nullptr)) cs).
Proof.
  revert evs kept. induction cs as [| i more IH]; intros evs kept H.
  - injection H as <- <-. split; reflexivity.
  - cbn [Session.closeMatching] in H. cbn [List.filter].
    destruct (_cursor i =? nullptr) eqn:Hnull; cbn [negb andb orb] in H |- *.
    + apply bind_Ok_inv in H as (? & rest' & ? & Hrest & H & ->).
      injection H as <- <-. destruct (IH _ _ Hrest) as [-> ->].
      rewrite app_nil_r. split; reflexivity.
    + apply bind_Ok_inv in H as (? & [] & ? & He & H & ->). injection He as <-.
      apply bind_Ok_inv in H as (? & [] & ? & Hrc & H & ->).
      apply invariantWTOK_Ok_inv in Hrc as [_ ->].
      destruct (IH _ _ H) as [-> ->]. split; reflexivity.
Qed.

Lemma filter_nonnull (cs : CursorCache) :
  ~ In nullptr (handles cs) ->
  List.filter (fun c => _cursor c =? nullptr) cs = []
  /\ List.filter (fun c => negb (_cursor c =? nullptr)) cs = cs.
Proof.
  induction cs as [| c more IH]; intros H; [split; reflexivity |].
  cbn in H. cbn [List.filter].
  destruct (Z.eqb_spec (_cursor c) nullptr) as [E | _]; [tauto |].
  destruct IH as [-> ->]; [tauto |]. split; reflexivity.
Qed.

(** [closeAllCursors("")] empties the cursor list (only a null handle would
    stay behind) and closes every handle it held. *)
Lemma closeAllCursors_all (env : Env) (s s' : WiredTigerSession.t)
    (evs : list event) :
  Session.closeAllCursors env EmptyString s = Ok (evs, s') ->
  s' = WiredTigerSession.set_cursors
         (List.filter (fun c => _cursor c =? nullptr) (WiredTigerSession._cursors s)) s
  /\ evs = closeEvents
             (List.filter (fun c => negb (_cursor c =? nullptr))
                (WiredTigerSession._cursors s)).
Proof.
  unfold Session.closeAllCursors. intros H.
  apply bind_Ok_inv in H as (? & [] & ? & Hs & H & ->).
  apply invariant_Ok_inv in Hs as [_ ->].
  rewrite bool_decide_eq_true_2 in H by reflexivity.
  apply bind_Ok_inv in H as (? & kept & ? & Hclose & H & ->).
  injection H as <- <-.
  destruct (closeMatching_all _ _ _ _ _ Hclose) as [-> ->].
  rewrite app_nil_r. split; reflexivity.
Qed.

Lemma resetSessionConfiguration_inv (env : Env) (s s' : WiredTigerSession.t)
    (evs : list event) :
  Session.resetSessionConfiguration env s = Ok (evs, s') ->
  s' = WiredTigerSession.set_undoConfigStrings ∅ s.
Proof.
  unfold Session.resetSessionConfiguration. intros H.
  apply bind_Ok_inv in H as (? & [] & ? & _ & H & ->).
  injection H as _ <-. reflexivity.
Qed.

(** The release path outside shutdown, step by step. *)
Lemma releaseSession_racing_inv (env : Env)
    (racing : WiredTigerSessionCache.t -> WiredTigerSessionCache.t)
    (s : WiredTigerSession.t) (cache cache' : WiredTigerSessionCache.t)
    (evs : list event) :
  WiredTigerSessionCache.isShuttingDown
    (WiredTigerSessionCache.BlockShutdown_enter cache) = false ->
  Cache.releaseSession_racing env racing s cache = Ok (evs, cache') ->
  exists evsC s1 evsU,
    (if gWiredTigerCursorCacheSize env <? 0
     then Session.closeAllCursors env EmptyString s else ret s) = Ok (evsC, s1)
    /\ Session.resetSessionConfiguration env s1
       = Ok (evsU, WiredTigerSession.set_undoConfigStrings ∅ s1)
    /\ let c1 := WiredTigerSessionCache.BlockShutdown_enter cache in
       let s3 := WiredTigerSession.setIdleExpireTime (now env)
                   (WiredTigerSession.set_undoConfigStrings ∅ s1) in
       let ss := WiredTigerSession._session s in
       let pre := EvPinnedRange ss :: evsC ++ evsU ++ [EvSessionReset ss] in
       let flush := fun c : WiredTigerSessionCache.t =>
                      if WiredTigerSessionCache._engine c
                      then [EvSizeStorerPeriodicFlush] else [] in
       (WiredTigerSession._epoch s3 = WiredTigerSessionCache._epoch c1
        /\ WiredTigerSession._epoch s3 = WiredTigerSessionCache._epoch (racing c1)
        /\ cache' = WiredTigerSessionCache.BlockShutdown_exit
                      (WiredTigerSessionCache.set_sessions
                         (WiredTigerSessionCache._sessions (racing c1) ++ [s3])
                         (racing c1))
        /\ evs = pre ++ flush (racing c1))
       \/ (exists cX evsD,
             Session.destroy env s3 = Ok (evsD, tt)
             /\ ((WiredTigerSession._epoch s3 = WiredTigerSessionCache._epoch c1
                  /\ WiredTigerSession._epoch s3
                     <> WiredTigerSessionCache._epoch (racing c1)
                  /\ cX = racing c1)
                 \/ (WiredTigerSession._epoch s3 < WiredTigerSessionCache._epoch c1
                     /\ cX = c1))
             /\ cache' = WiredTigerSessionCache.BlockShutdown_exit cX
             /\ evs = pre ++ evsD ++ flush cX).
Proof.
  intros Hup H. unfold Cache.releaseSession_racing in H.
  apply bind_Ok_inv in H as (? & [] & ? & Hout & H & ->).
  apply invariant_Ok_inv in Hout as [_ ->].
  rewrite Hup in H.
  apply bind_Ok_inv in H as (? & [] & ? & He & H & ->). injection He as <-.
  destruct (transaction_pinned_range env (WiredTigerSession.getSession s))
    as [rc range].
  apply bind_Ok_inv in H as (? & [] & ? & Hrc & H & ->).
  apply invariantWTOK_Ok_inv in Hrc as [_ ->].
  apply bind_Ok_inv in H as (? & [] & ? & Hrange & H & ->).
  apply invariant_Ok_inv in Hrange as [_ ->].
  apply bind_Ok_inv in H as (evsC & s1 & ? & Hclose & H & ->).
  apply bind_Ok_inv in H as (evsU & s2 & ? & Hreset & H & ->).
  pose proof (resetSessionConfiguration_inv _ _ _ _ Hreset) as ->.
  apply bind_Ok_inv in H as (? & [] & ? & He & H & ->). injection He as <-.
  apply bind_Ok_inv in H as (? & [] & ? & Hrc & H & ->).
  apply invariantWTOK_Ok_inv in Hrc as [_ ->].
  apply bind_Ok_inv in H as (evsP & [returned cX] & ? & Hpool & H & ->).
  apply bind_Ok_inv in H as (evsD & [] & ? & Hdestroy & H & ->).
  apply bind_Ok_inv in H as (evsF & [] & ? & Hflush & H & ->).
  injection H as <- <-.
  exists evsC, s1, evsU. split; [exact Hclose |]. split; [exact Hreset |].
  cbv zeta. unfold WiredTigerSession._getEpoch in Hpool.
  assert (evsF = if WiredTigerSessionCache._engine cX
                 then [EvSizeStorerPeriodicFlush] else []) as ->.
  { destruct (WiredTigerSessionCache._engine cX); injection Hflush as <-; reflexivity. }
  match type of Hpool with
  | (if ?a =? ?b then _ else _) = _ => destruct (Z.eqb_spec a b) as [Hfast | Hfast]
  end.
  - match type of Hpool with
    | (if ?a =? ?b then _ else _) = _ => destruct (Z.eqb_spec a b) as [Hlock | Hlock]
    end.
    + injection Hpool as <- <- <-. injection Hdestroy as <-. left.
      split; [exact Hfast |]. split; [exact Hlock |]. split; [reflexivity |].
      cbn. rewrite !app_nil_r, <- !app_assoc. reflexivity.
    + injection Hpool as <- <- <-. right.
      eexists _, evsD. split; [exact Hdestroy |].
      split; [left; split; [exact Hfast | split; [exact Hlock | reflexivity]] |].
      split; [reflexivity |].
      cbn. rewrite !app_nil_r, <- !app_assoc. reflexivity.
  - apply bind_Ok_inv in Hpool as (? & [] & ? & Hlt & Hpool & ->).
    apply invariant_Ok_inv in Hlt as [Hlt ->]. apply Z.ltb_lt in Hlt.
    injection Hpool as <- <- <-. right.
    eexists _, evsD. split; [exact Hdestroy |].
    split; [right; split; [exact Hlt | reflexivity] |].
    split; [reflexivity |].
    cbn. rewrite !app_nil_r, <- !app_assoc. reflexivity.
Qed.

(** With a size of 0 every release of a cursor evicts the whole list: the
    cursor cache of such a session stays empty without any help from
    [releaseSession]. *)
Lemma releaseCursorBody_size_zero (env : Env) (id : Z) (h : WT_CURSOR)
    (config : string) (s s' : WiredTigerSession.t) (evs : list event)
    (bound : Z) :
  bound < 2 ^ 64 - 1 ->
  gWiredTigerCursorCacheSize env = 0 ->
  cacheAged bound s ->
  Session.releaseCursorBody env id h config s = Ok (evs, s') ->
  WiredTigerSession._cursors s' = [].
Proof.
  intros Hb Hzero [Hsorted Hall] Hbody.
  destruct (releaseCursorBody_spec _ _ _ _ _ _ _ Hbody)
    as (_ & _ & _ & kept & gone & Hsplit & _ & _ & _ & Hback & ->).
  rewrite Hzero in Hback. change (u32 (Z.abs 0)) with 0 in Hback.
  assert (agesAbove 0 (u64 (WiredTigerSession._cursorGen s + 1)) (kept ++ gone))
    as Hnew.
  { rewrite <- Hsplit. cbn [agesAbove]. rewrite age_of_new.
    split; [lia |].
    apply (agesAbove_after_release 0 _ bound); assumption. }
  apply agesAbove_prefix, agesAbove_lower in Hnew.
  cbn [WiredTigerSession._cursors].
  destruct kept as [| back front _] using rev_ind; [reflexivity |].
  specialize (Hback front back eq_refl).
  apply Forall_app in Hnew as [_ Hlast]. inversion Hlast; subst. lia.
Qed.

(** C8 (as stated) fails at size 0: [releaseSession] closes the cached cursors
    only when the size read is negative. A cursor cached while the size was 2
    stays in the session that is pooled after the size has been set to 0, and
    is not closed. *)
Lemma releaseSession_size_zero_keeps_cursors :
  let cache := WiredTigerSessionCache.create true in
  let s0 := WiredTigerSession.set_cursorsOut 1 (freshSession 0 4096) in
  exists evs1 s1 evs2 pooled,
    Session.releaseCursor (env_ok 2 1000) 1 101 "cfgA" (cache, s0)
    = Ok (evs1, (cache, s1))
    /\ WiredTigerSessionCache.isEngineCachingCursors (env_ok 0 5000) = true
    /\ Cache.releaseSession (env_ok 0 5000) s1 cache
       = Ok (evs2, WiredTigerSessionCache.set_sessions [pooled] cache)
    /\ handles (WiredTigerSession._cursors pooled) = [101]
    /\ ~ In (EvCursorClose 101) evs2.
Proof.
  intros cache s0.
  exists [EvCursorReset 101],
         (WiredTigerSession.mk 0 4096 [mkCachedCursor 1 0 101 "cfgA"] 1 0 Date_t_min ∅),
         [EvPinnedRange 4096; EvSessionReset 4096; EvSizeStorerPeriodicFlush],
         (WiredTigerSession.mk 0 4096 [mkCachedCursor 1 0 101 "cfgA"] 1 0 5000 ∅).
  split; [reflexivity |]. split; [reflexivity |]. split; [reflexivity |].
  split; [reflexivity |].
  cbn. intros [H | [H | [H | []]]]; discriminate H.
Qed.

(** C8 (amended): outside shutdown, whenever the cursor-cache size read by
    [releaseSession] is negative, every cached cursor of the session is closed
    and the session that enters the pool holds no cached cursor. *)
Theorem releaseSession_negative_size_closes_cursors (env : Env)
    (s : WiredTigerSession.t) (cache cache' : WiredTigerSessionCache.t)
    (evs : list event) :
  0 <= WiredTigerSessionCache._shuttingDown cache < 2 ^ 32 ->
  WiredTigerSessionCache.blockers cache + 1 < 2 ^ 31 ->
  WiredTigerSessionCache.isShuttingDown cache = false ->
  gWiredTigerCursorCacheSize env < 0 ->
  Cache.releaseSession env s cache = Ok (evs, cache') ->
  (forall h, h <> nullptr -> In h (handles (WiredTigerSession._cursors s)) ->
             In (EvCursorClose h) evs)
  /\ (WiredTigerSessionCache._sessions cache' = WiredTigerSessionCache._sessions cache
      \/ exists pooled,
           WiredTigerSessionCache._sessions cache'
           = WiredTigerSessionCache._sessions cache ++ [pooled]
           /\ WiredTigerSession._session pooled = WiredTigerSession._session s
           /\ WiredTigerSession._epoch pooled = WiredTigerSession._epoch s
           /\ Forall (fun c => _cursor c = nullptr) (WiredTigerSession._cursors pooled)
           /\ (~ In nullptr (handles (WiredTigerSession._cursors s)) ->
               WiredTigerSession._cursors pooled = [])).
Proof.
  intros Hw Hn Hup Hneg Hrel.
  destruct (BlockShutdown_enter_spec cache Hw Hn) as (_ & Hflag & _).
  rewrite Hup in Hflag.
  destruct (releaseSession_racing_inv env (fun c => c) s cache cache' evs Hflag Hrel)
    as (evsC & s1 & evsU & Hclose & _ & Hcases).
  apply Z.ltb_lt in Hneg. rewrite Hneg in Hclose.
  destruct (closeAllCursors_all _ _ _ _ Hclose) as [-> ->].
  cbv zeta in Hcases. split.
  - intros h Hh Hin.
    assert (In (EvCursorClose h)
              (closeEvents
                 (List.filter (fun c => negb (_cursor c =? nullptr))
                    (WiredTigerSession._cursors s)))) as Hclosed.
    { unfold handles in Hin. apply in_map_iff in Hin as (c & <- & Hc).
      unfold closeEvents. apply in_map_iff. exists c. split; [reflexivity |].
      apply List.filter_In. split; [exact Hc |].
      destruct (Z.eqb_spec (_cursor c) nullptr); [contradiction | reflexivity]. }
    destruct Hcases as [(_ & _ & _ & ->) | (cX & evsD & _ & _ & _ & ->)];
      right; apply in_or_app; left; apply in_or_app; left; exact Hclosed.
  - destruct Hcases as [(_ & _ & -> & _) | (cX & evsD & _ & HcX & -> & _)].
    + right. eexists. split; [reflexivity |].
      split; [reflexivity |]. split; [reflexivity |].
      cbn [WiredTigerSession._cursors WiredTigerSession.setIdleExpireTime
           WiredTigerSession.set_undoConfigStrings WiredTigerSession.set_cursors].
      split.
      * apply List.Forall_forall. intros c Hc.
        apply List.filter_In in Hc as [_ Hc]. now apply Z.eqb_eq.
      * intros Hnonnull. exact (proj1 (filter_nonnull _ Hnonnull)).
    + left. destruct HcX as [(_ & _ & ->) | (_ & ->)]; reflexivity.
Qed.

Lemma releaseSession_negative_size_closes_cursors_witness :
  let cache := WiredTigerSessionCache.create true in
  let s := WiredTigerSession.mk 0 4096 [mkCachedCursor 1 0 101 "cfgA"] 1 0 Date_t_min ∅ in
  exists evs pooled,
    Cache.releaseSession (env_ok (-2) 5000) s cache
    = Ok (evs, WiredTigerSessionCache.set_sessions [pooled] cache)
    /\ In (EvCursorClose 101) evs
    /\ WiredTigerSession._cursors pooled = [].
Proof.
  intros cache s.
  assert (Cache.releaseSession (env_ok (-2) 5000) s cache
          = Ok ([EvPinnedRange 4096; EvCursorClose 101; EvSessionReset 4096;
                 EvSizeStorerPeriodicFlush],
                WiredTigerSessionCache.set_sessions
                  [WiredTigerSession.mk 0 4096 [] 1 0 5000 ∅] cache)) as Hrun
    by reflexivity.
  assert (0 <= WiredTigerSessionCache._shuttingDown cache < 2 ^ 32) as Hw
    by (simpl; lia).
  assert (WiredTigerSessionCache.blockers cache + 1 < 2 ^ 31) as Hn
    by reflexivity.
  assert (gWiredTigerCursorCacheSize (env_ok (-2) 5000) < 0) as Hneg
    by reflexivity.
  destruct (releaseSession_negative_size_closes_cursors (env_ok (-2) 5000) s cache _ _
              Hw Hn eq_refl Hneg Hrun) as [Hclosed _].
  eexists _, _. split; [exact Hrun |]. split; [| reflexivity].
  apply Hclosed; [discriminate | left; reflexivity].
Defined.

(** ** Idle expiry *)

Lemma destroy_deleted (env : Env) (s : WiredTigerSession.t) (evs : list event) :
  Session.destroy env s = Ok (evs, tt) -> deleted evs = [s].
Proof.
  unfold Session.destroy. intros H.
  apply bind_Ok_inv in H as (e1 & [] & ? & Hclose & H & ->).
  injection H as <-.
  destruct (negb (WiredTigerSession._session s =? nullptr)).
  - apply bind_Ok_inv in Hclose as (? & [] & ? & He & Hrc & ->).
    injection He as <-. apply invariantWTOK_Ok_inv in Hrc as [_ ->]. reflexivity.
  - injection Hclose as <-. reflexivity.
Qed.

Lemma destroy_returns (env : Env) (s : WiredTigerSession.t) :
  session_close env (WiredTigerSession._session s) = 0 ->
  exists evs, Session.destroy env s = Ok (evs, tt).
Proof.
  intros Hrc. unfold Session.destroy.
  destruct (negb (WiredTigerSession._session s =? nullptr)).
  - cbn. rewrite Hrc. cbn. eexists. reflexivity.
  - cbn. eexists. reflexivity.
Qed.

Lemma deleted_app (xs ys : list event) :
  deleted (xs ++ ys) = deleted xs ++ deleted ys.
Proof.
  induction xs as [| e xs IH]; [reflexivity |].
  destruct e; cbn; rewrite ?IH; reflexivity.
Qed.

Lemma destroyAll_deleted (env : Env) (ss : list WiredTigerSession.t)
    (evs : list event) :
  Cache.destroyAll env ss = Ok (evs, tt) -> deleted evs = ss.
Proof.
  revert evs. induction ss as [| s more IH]; intros evs H.
  - injection H as <-. reflexivity.
  - cbn [Cache.destroyAll] in H.
    apply bind_Ok_inv in H as (e1 & [] & e2 & Hs & H & ->).
    rewrite deleted_app, (destroy_deleted _ _ _ Hs), (IH _ H). reflexivity.
Qed.

Lemma destroyAll_returns (env : Env) (ss : list WiredTigerSession.t) :
  (forall ws, session_close env ws = 0) ->
  exists evs, Cache.destroyAll env ss = Ok (evs, tt).
Proof.
  intros Hrc. induction ss as [| s more [evs IH]].
  - eexists. reflexivity.
  - destruct (destroy_returns env s (Hrc _)) as [e Hs].
    cbn [Cache.destroyAll]. rewrite (bind_Ok _ _ _ _ Hs), IH.
    eexists. reflexivity.
Qed.

Lemma sweepIdle_Ok (cutoffTime : Date_t)
    (ss : list WiredTigerSession.t) :
  Forall (fun s => WiredTigerSession.getIdleExpireTime s <> Date_t_min) ss ->
  Cache.sweepIdle cutoffTime ss
  = Ok ([], (List.filter (fun s => negb (expiredBefore cutoffTime s)) ss,
             List.filter (expiredBefore cutoffTime) ss)).
Proof.
  induction 1 as [| s more Hs _ IH]; [reflexivity |].
  cbn [Cache.sweepIdle List.filter].
  destruct (Z.eqb_spec (WiredTigerSession.getIdleExpireTime s) Date_t_min)
    as [? | _]; [contradiction |].
  cbn [negb invariant ret bind]. rewrite IH. unfold expiredBefore.
  destruct (WiredTigerSession.getIdleExpireTime s <? cutoffTime); reflexivity.
Qed.

Lemma sweepIdle_sentinel (cutoffTime : Date_t)
    (ss : list WiredTigerSession.t) :
  Exists (fun s => WiredTigerSession.getIdleExpireTime s = Date_t_min) ss ->
  Cache.sweepIdle cutoffTime ss
  = Abort (InvariantFailure "session->getIdleExpireTime() != Date_t::min()").
Proof.
  induction ss as [| s more IH]; intros H; [inversion H |].
  cbn [Cache.sweepIdle].
  destruct (Z.eqb_spec (WiredTigerSession.getIdleExpireTime s) Date_t_min)
    as [? | Hne]; [reflexivity |].
  cbn [negb invariant ret bind].
  inversion H as [? ? Hs | ? ? Hmore]; subst; [contradiction |].
  rewrite (IH Hmore). reflexivity.
Qed.

(** C6 (as stated) fails at the boundary: a session idle for exactly the
    timeout is retained, since its idle time is not before the cutoff. *)
Lemma closeExpiredIdleSessions_keeps_at_timeout :
  let env := env_ok 2 4000 in
  let s := WiredTigerSession.setIdleExpireTime 1000 (freshSession 0 4096) in
  let cache := WiredTigerSessionCache.set_sessions [s]
                 (WiredTigerSessionCache.create true) in
  idleFor env s >= 3000
  /\ Cache.closeExpiredIdleSessions env 3000 cache = Ok ([], cache).
Proof. split; [discriminate | reflexivity]. Qed.

(** C6 (amended): [closeExpiredIdleSessions(T)] does nothing for [T <= 0]. For
    [T > 0] it asserts that every pooled session carries an idle time other
    than [Date_t::min()], and then takes out of the pool and destroys exactly
    the sessions whose idle time is before [now - T], in pool order: a session
    idle for longer than [T] is removed, a session idle for [T] or less
    stays. *)
Theorem closeExpiredIdleSessions_spec (env : Env) (T : Z)
    (cache : WiredTigerSessionCache.t) :
  let pool := WiredTigerSessionCache._sessions cache in
  (T <= 0 -> Cache.closeExpiredIdleSessions env T cache = Ok ([], cache))
  /\ (0 < T ->
      Exists (fun s => WiredTigerSession.getIdleExpireTime s = Date_t_min) pool ->
      Cache.closeExpiredIdleSessions env T cache
      = Abort (InvariantFailure "session->getIdleExpireTime() != Date_t::min()"))
  /\ (0 < T ->
      Forall (fun s => WiredTigerSession.getIdleExpireTime s <> Date_t_min) pool ->
      ((forall ws, session_close env ws = 0) ->
       exists evs cache', Cache.closeExpiredIdleSessions env T cache = Ok (evs, cache'))
      /\ forall evs cache',
           Cache.closeExpiredIdleSessions env T cache = Ok (evs, cache') ->
           cache' = WiredTigerSessionCache.set_sessions
                      (List.filter (fun s => idleFor env s <=? T) pool) cache
           /\ deleted evs = List.filter (fun s => T <? idleFor env s) pool
           /\ forall s, In s pool ->
                 (T < idleFor env s ->
                  In s (deleted evs)
                  /\ ~ In s (WiredTigerSessionCache._sessions cache'))
                 /\ (idleFor env s <= T ->
                     In s (WiredTigerSessionCache._sessions cache')
                     /\ ~ In s (deleted evs))).
Proof.
  intros pool. split; [| split].
  - intros HT. unfold Cache.closeExpiredIdleSessions.
    apply Z.leb_le in HT. rewrite HT. reflexivity.
  - intros HT Hsentinel. unfold Cache.closeExpiredIdleSessions.
    apply Z.leb_gt in HT. rewrite HT.
    fold pool. rewrite (sweepIdle_sentinel _ _ Hsentinel). reflexivity.
  - intros HT Hreal.
    assert (forall s, expiredBefore (now env - T) s = (T <? idleFor env s)) as Hexp.
    { intros s. unfold expiredBefore, idleFor.
      destruct (Z.ltb_spec (WiredTigerSession.getIdleExpireTime s) (now env - T));
        destruct (Z.ltb_spec T (now env - WiredTigerSession.getIdleExpireTime s));
        try reflexivity; lia. }
    assert (forall s, negb (expiredBefore (now env - T) s) = (idleFor env s <=? T))
      as Hkeep.
    { intros s. rewrite Hexp.
      destruct (Z.ltb_spec T (idleFor env s)); destruct (Z.leb_spec (idleFor env s) T);
        try reflexivity; lia. }
    assert (Cache.closeExpiredIdleSessions env T cache
            = (Cache.destroyAll env (List.filter (fun s => T <? idleFor env s) pool) ;;
               ret (WiredTigerSessionCache.set_sessions
                      (List.filter (fun s => idleFor env s <=? T) pool) cache)))
      as Hunfold.
    { unfold Cache.closeExpiredIdleSessions.
      apply Z.leb_gt in HT. rewrite HT.
      fold pool. rewrite (bind_Ok _ _ _ _ (sweepIdle_Ok (now env - T) pool Hreal)).
      rewrite (List.filter_ext _ _ Hexp), (List.filter_ext _ _ Hkeep).
      destruct (Cache.destroyAll env _) as [[evs []] | | |]; reflexivity. }
    rewrite Hunfold. split.
    + intros Hclose.
      destruct (destroyAll_returns env
                  (List.filter (fun s => T <? idleFor env s) pool) Hclose) as [evs Hd].
      rewrite Hd. eexists _, _. reflexivity.
    + intros evs cache' H.
      apply bind_Ok_inv in H as (e1 & [] & ? & Hd & H & ->).
      injection H as <- <-. rewrite app_nil_r.
      rewrite (destroyAll_deleted _ _ _ Hd).
      split; [reflexivity |]. split; [reflexivity |].
      intros s Hin.
      cbn [WiredTigerSessionCache._sessions WiredTigerSessionCache.set_sessions].
      rewrite !List.filter_In. split.
      * intros Hlong. split.
        -- split; [exact Hin | now apply Z.ltb_lt].
        -- intros [_ Hle]. apply Z.leb_le in Hle. lia.
      * intros Hshort. split.
        -- split; [exact Hin | now apply Z.leb_le].
        -- intros [_ Hlt]. apply Z.ltb_lt in Hlt. lia.
Qed.

Lemma closeExpiredIdleSessions_witness :
  let env := env_ok 2 6000 in
  let old := WiredTigerSession.setIdleExpireTime 1000 (freshSession 0 4096) in
  let young := WiredTigerSession.setIdleExpireTime 4000 (freshSession 0 4097) in
  let cache := WiredTigerSessionCache.set_sessions [old; young]
                 (WiredTigerSessionCache.create true) in
  exists evs,
    Cache.closeExpiredIdleSessions env 3000 cache
    = Ok (evs, WiredTigerSessionCache.set_sessions [young] cache)
    /\ deleted evs = [old].
Proof.
  intros env old young cache.
  destruct (closeExpiredIdleSessions_spec env 3000 cache) as (_ & _ & Hpos).
  destruct Hpos as [Hreturns Hafter].
  - reflexivity.
  - repeat constructor; discriminate.
  - destruct Hreturns as (evs & cache' & Hrun); [reflexivity |].
    destruct (Hafter evs cache' Hrun) as (-> & Hdel & _).
    exists evs. split; [exact Hrun | exact Hdel].
Defined.

(** ** Sequences of calls on the cache *)

Lemma getSession_inv (env : Env) (c c' : WiredTigerSessionCache.t)
    (s : WiredTigerSession.t) (evs : list event) :
  Cache.getSession env c = Ok (evs, (c', s)) ->
  WiredTigerSessionCache.isShuttingDown c = false
  /\ ((exists below cachedSession,
         WiredTigerSessionCache._sessions c = below ++ [cachedSession]
         /\ c' = WiredTigerSessionCache.set_sessions below c
         /\ s = WiredTigerSession.setIdleExpireTime Date_t_min cachedSession
         /\ evs = [])
      \/ (WiredTigerSessionCache._sessions c = []
          /\ c' = c
          /\ s = freshSession (WiredTigerSessionCache._epoch c) (snd (open_session env))
          /\ fst (open_session env) = 0
          /\ evs = [EvOpenSession "isolation=snapshot"])).
Proof.
  unfold Cache.getSession. intros H.
  apply bind_Ok_inv in H as (? & [] & ? & Hup & H & ->).
  apply invariant_Ok_inv in Hup as [Hup ->].
  split; [unfold WiredTigerSessionCache.isShuttingDown; rewrite Hup; reflexivity |].
  destruct (rev (WiredTigerSessionCache._sessions c)) as [| cachedSession below] eqn:Hrev.
  - right.
    assert (WiredTigerSessionCache._sessions c = []) as Hnil.
    { rewrite <- (rev_involutive (WiredTigerSessionCache._sessions c)), Hrev. reflexivity. }
    apply bind_Ok_inv in H as (? & fresh & ? & Hnew & H & ->).
    injection H as <- <- <-.
    unfold Cache.newSession in Hnew.
    apply bind_Ok_inv in Hnew as (? & [] & ? & He & Hnew & ->). injection He as <-.
    destruct (open_session env) as [rc handle].
    apply bind_Ok_inv in Hnew as (? & [] & ? & Hrc & Hnew & ->).
    apply invariantWTOK_Ok_inv in Hrc as [-> ->].
    injection Hnew as <- <-. repeat split; assumption.
  - left. injection H as <- <- <-.
    exists (rev below), cachedSession. repeat split.
    rewrite <- (rev_involutive (WiredTigerSessionCache._sessions c)), Hrev. reflexivity.
Qed.

Lemma getSession_shutdown (env : Env) (c : WiredTigerSessionCache.t) :
  WiredTigerSessionCache.isShuttingDown c = true ->
  Cache.getSession env c
  = Abort (InvariantFailure "!(_shuttingDown.load() & kShuttingDownMask)").
Proof.
  unfold WiredTigerSessionCache.isShuttingDown, Cache.getSession.
  destruct (Z.land _ _ =? 0); [discriminate | reflexivity].
Qed.

Lemma closeAll_inv (env : Env) (c c' : WiredTigerSessionCache.t)
    (evs : list event) :
  Cache.closeAll env c = Ok (evs, c') ->
  c' = Cache.closeAll_locked c
  /\ deleted evs = WiredTigerSessionCache._sessions c.
Proof.
  unfold Cache.closeAll. intros H.
  apply bind_Ok_inv in H as (? & [] & ? & Hd & H & ->).
  injection H as <- <-. rewrite app_nil_r.
  split; [reflexivity | exact (destroyAll_deleted _ _ _ Hd)].
Qed.

Lemma sweepIdle_kept (cutoffTime : Date_t)
    (ss kept closing : list WiredTigerSession.t) (evs : list event) :
  Cache.sweepIdle cutoffTime ss = Ok (evs, (kept, closing)) ->
  forall s, In s kept -> In s ss.
Proof.
  revert evs kept closing. induction ss as [| x more IH]; intros evs kept closing H.
  - injection H as _ <- _. intros s [].
  - cbn [Cache.sweepIdle] in H.
    apply bind_Ok_inv in H as (? & [] & ? & _ & H & ->).
    apply bind_Ok_inv in H as (? & [k c] & ? & Hrec & H & ->).
    specialize (IH _ _ _ Hrec).
    destruct (WiredTigerSession.getIdleExpireTime x <? cutoffTime);
      injection H as _ <- _; intros s Hin.
    + right. apply IH. exact Hin.
    + destruct Hin as [<- | Hin]; [left; reflexivity | right; apply IH; exact Hin].
Qed.

Lemma closeExpiredIdleSessions_inv (env : Env) (T : Z)
    (c c' : WiredTigerSessionCache.t) (evs : list event) :
  Cache.closeExpiredIdleSessions env T c = Ok (evs, c') ->
  exists kept,
    c' = WiredTigerSessionCache.set_sessions kept c
    /\ forall s, In s kept -> In s (WiredTigerSessionCache._sessions c).
Proof.
  unfold Cache.closeExpiredIdleSessions. intros H.
  destruct (T <=? 0).
  - injection H as _ <-. exists (WiredTigerSessionCache._sessions c).
    split; [destruct c; reflexivity | auto].
  - apply bind_Ok_inv in H as (? & [kept closing] & ? & Hsweep & H & ->).
    apply bind_Ok_inv in H as (? & [] & ? & _ & H & ->).
    injection H as _ <-. exists kept.
    split; [reflexivity | exact (sweepIdle_kept _ _ _ _ _ Hsweep)].
Qed.

Lemma closeAllCursors_epoch (env : Env) (uri : string)
    (s s' : WiredTigerSession.t) (evs : list event) :
  Session.closeAllCursors env uri s = Ok (evs, s') ->
  WiredTigerSession._epoch s' = WiredTigerSession._epoch s.
Proof.
  unfold Session.closeAllCursors. intros H.
  apply bind_Ok_inv in H as (? & [] & ? & _ & H & ->).
  apply bind_Ok_inv in H as (? & kept & ? & _ & H & ->).
  injection H as _ <-. reflexivity.
Qed.

Lemma closeAllCursorsIn_epoch (env : Env) (uri : string) (e : Z)
    (ss ss' : list WiredTigerSession.t) (evs : list event) :
  Cache.closeAllCursorsIn env uri ss = Ok (evs, ss') ->
  Forall (fun s => WiredTigerSession._epoch s = e) ss ->
  Forall (fun s => WiredTigerSession._epoch s = e) ss'.
Proof.
  revert evs ss'. induction ss as [| i more IH]; intros evs ss' H Hall.
  - injection H as _ <-. constructor.
  - cbn [Cache.closeAllCursorsIn] in H.
    apply bind_Ok_inv in H as (? & i' & ? & Hi & H & ->).
    apply bind_Ok_inv in H as (? & more' & ? & Hmore & H & ->).
    injection H as _ <-. inversion Hall; subst.
    constructor; [rewrite (closeAllCursors_epoch _ _ _ _ _ Hi); reflexivity |].
    eapply IH; eassumption.
Qed.

Lemma poolOK_word (c : WiredTigerSessionCache.t) :
  poolOK c ->
  0 <= WiredTigerSessionCache._shuttingDown c < 2 ^ 32
  /\ WiredTigerSessionCache.blockers c + 1 < 2 ^ 31.
Proof.
  intros ([Hw | Hw] & _); unfold WiredTigerSessionCache.blockers; rewrite Hw;
    (split; [split; [discriminate | reflexivity] | reflexivity]).
Qed.

Lemma BlockShutdown_scope_sessions (c : WiredTigerSessionCache.t)
    (ss : list WiredTigerSession.t) :
  0 <= WiredTigerSessionCache._shuttingDown c < 2 ^ 32 ->
  WiredTigerSessionCache.BlockShutdown_exit
    (WiredTigerSessionCache.set_sessions ss
       (WiredTigerSessionCache.BlockShutdown_enter c))
  = WiredTigerSessionCache.set_sessions ss c.
Proof.
  intros Hw.
  rewrite <- (BlockShutdown_enter_exit c Hw) at 2.
  reflexivity.
Qed.

Lemma releaseSession_during_shutdown (env : Env) (s : WiredTigerSession.t)
    (c : WiredTigerSessionCache.t) :
  0 <= WiredTigerSessionCache._shuttingDown c < 2 ^ 32 ->
  WiredTigerSessionCache.blockers c + 1 < 2 ^ 31 ->
  WiredTigerSessionCache.isShuttingDown c = true ->
  Cache.releaseSession env s c
  = Ok ([EvDelete (WiredTigerSession.set_session nullptr s)], c).
Proof.
  intros Hw Hn Hdown.
  destruct (BlockShutdown_enter_spec c Hw Hn) as (_ & Hflag & _).
  rewrite Hdown in Hflag.
  unfold Cache.releaseSession, Cache.releaseSession_racing.
  rewrite Hdown, orb_true_r. cbn [invariant bind ret].
  rewrite Hflag. rewrite BlockShutdown_enter_exit by exact Hw. reflexivity.
Qed.

Lemma applyUndo_inv (env : Env) (ss : WT_SESSION) (undo : list string)
    (evs : list event) :
  Session.applyUndo env ss undo = Ok (evs, tt) ->
  evs = map (EvSessionReconfigure ss) undo.
Proof.
  revert evs. induction undo as [| u more IH]; intros evs H.
  - injection H as <-. reflexivity.
  - cbn [Session.applyUndo] in H.
    apply bind_Ok_inv in H as (? & [] & ? & He & H & ->). injection He as <-.
    apply bind_Ok_inv in H as (? & [] & ? & Hrc & H & ->).
    apply invariantWTOK_Ok_inv in Hrc as [_ ->].
    rewrite (IH _ H). reflexivity.
Qed.

Lemma deleted_closeEvents (cs : CursorCache) : deleted (closeEvents cs) = [].
Proof. induction cs as [| c more IH]; [reflexivity | exact IH]. Qed.

Lemma deleted_reconfigure (ss : WT_SESSION) (l : list string) :
  deleted (map (EvSessionReconfigure ss) l) = [].
Proof. induction l as [| x l IH]; [reflexivity | exact IH]. Qed.

Lemma closeMatching_deleted (env : Env) (all : bool) (uri : string)
    (cs kept : CursorCache) (evs : list event) :
  Session.closeMatching env all uri cs = Ok (evs, kept) -> deleted evs = [].
Proof.
  revert evs kept. induction cs as [| i more IH]; intros evs kept H.
  - injection H as <- _. reflexivity.
  - cbn [Session.closeMatching] in H.
    destruct (negb (_cursor i =? nullptr)
              && (all || bool_decide (uri = cursor_uri env (_cursor i)))).
    + apply bind_Ok_inv in H as (? & [] & ? & He & H & ->). injection He as <-.
      apply bind_Ok_inv in H as (? & [] & ? & Hrc & H & ->).
      apply invariantWTOK_Ok_inv in Hrc as [_ ->].
      cbn. exact (IH _ _ H).
    + apply bind_Ok_inv in H as (? & rest' & ? & Hrest & H & ->).
      injection H as <- _. rewrite app_nil_r. exact (IH _ _ Hrest).
Qed.

Lemma closeAllCursors_deleted (env : Env) (uri : string)
    (s s' : WiredTigerSession.t) (evs : list event) :
  Session.closeAllCursors env uri s = Ok (evs, s') -> deleted evs = [].
Proof.
  unfold Session.closeAllCursors. intros H.
  apply bind_Ok_inv in H as (? & [] & ? & Hs & H & ->).
  apply invariant_Ok_inv in Hs as [_ ->].
  apply bind_Ok_inv in H as (? & kept & ? & Hclose & H & ->).
  injection H as <- _. rewrite app_nil_r.
  exact (closeMatching_deleted _ _ _ _ _ _ Hclose).
Qed.

Lemma resetSessionConfiguration_deleted (env : Env)
    (s s' : WiredTigerSession.t) (evs : list event) :
  Session.resetSessionConfiguration env s = Ok (evs, s') -> deleted evs = [].
Proof.
  unfold Session.resetSessionConfiguration. intros H.
  apply bind_Ok_inv in H as (? & [] & ? & Hundo & H & ->).
  injection H as <- _. rewrite app_nil_r, (applyUndo_inv _ _ _ _ Hundo).
  apply deleted_reconfigure.
Qed.

(** The release path between calls (no scope in flight): the session is
    dropped during shutdown, pooled when its epoch is the current one, and
    destroyed when its epoch is older. *)
Lemma releaseSession_poolOK (env : Env) (s : WiredTigerSession.t)
    (c c' : WiredTigerSessionCache.t) (evs : list event) :
  poolOK c ->
  Cache.releaseSession env s c = Ok (evs, c') ->
  (WiredTigerSessionCache.isShuttingDown c = true
   /\ c' = c
   /\ deleted evs = [WiredTigerSession.set_session nullptr s])
  \/ (WiredTigerSessionCache.isShuttingDown c = false
      /\ ((exists pooled,
             c' = WiredTigerSessionCache.set_sessions
                    (WiredTigerSessionCache._sessions c ++ [pooled]) c
             /\ WiredTigerSession._epoch pooled = WiredTigerSession._epoch s
             /\ WiredTigerSession._epoch s = WiredTigerSessionCache._epoch c
             /\ WiredTigerSession._idleExpireTime pooled = now env
             /\ deleted evs = [])
          \/ (c' = c
              /\ WiredTigerSession._epoch s < WiredTigerSessionCache._epoch c
              /\ exists gone,
                   deleted evs = [gone]
                   /\ WiredTigerSession._epoch gone = WiredTigerSession._epoch s))).
Proof.
  intros Hok Hrel. destruct (poolOK_word c Hok) as [Hw Hn].
  destruct (WiredTigerSessionCache.isShuttingDown c) eqn:Hdown.
  - left. rewrite (releaseSession_during_shutdown env s c Hw Hn Hdown) in Hrel.
    injection Hrel as <- <-. repeat split.
  - right. split; [reflexivity |].
    destruct (BlockShutdown_enter_spec c Hw Hn) as (_ & Hflag & _).
    rewrite Hdown in Hflag.
    destruct (releaseSession_racing_inv env (fun c => c) s c c' evs Hflag Hrel)
      as (evsC & s1 & evsU & Hclose & Hreset & Hcases).
    assert (WiredTigerSession._epoch s1 = WiredTigerSession._epoch s) as Hepoch.
    { destruct (gWiredTigerCursorCacheSize env <? 0).
      - exact (closeAllCursors_epoch _ _ _ _ _ Hclose).
      - injection Hclose as _ <-. reflexivity. }
    assert (deleted evsC = []) as HdelC.
    { destruct (gWiredTigerCursorCacheSize env <? 0).
      - exact (closeAllCursors_deleted _ _ _ _ _ Hclose).
      - injection Hclose as <- _. reflexivity. }
    pose proof (resetSessionConfiguration_deleted _ _ _ _ Hreset) as HdelU.
    cbv zeta in Hcases.
    cbn [WiredTigerSession._epoch WiredTigerSession.setIdleExpireTime
         WiredTigerSession.set_undoConfigStrings
         WiredTigerSessionCache._epoch WiredTigerSessionCache.BlockShutdown_enter
         WiredTigerSessionCache.set_shuttingDown WiredTigerSessionCache._sessions
         WiredTigerSessionCache._engine] in Hcases.
    rewrite Hepoch in Hcases.
    destruct Hcases as [(Hfast & _ & -> & ->) | (cX & evsD & Hd & HcX & -> & ->)].
    + left. eexists. split; [| split; [| split; [exact Hfast | split]]].
      * apply BlockShutdown_scope_sessions. exact Hw.
      * exact Hepoch.
      * reflexivity.
      * rewrite !deleted_app. cbn [deleted]. rewrite !deleted_app, HdelC, HdelU.
        destruct (WiredTigerSessionCache._engine c); reflexivity.
    + right. destruct HcX as [(Heq & Hne & _) | (Hlt & ->)]; [contradiction |].
      split; [apply BlockShutdown_enter_exit; exact Hw |].
      split; [exact Hlt |]. eexists. split.
      * rewrite !deleted_app. cbn [deleted].
        rewrite !deleted_app, HdelC, HdelU, (destroy_deleted _ _ _ Hd).
        cbn [deleted app WiredTigerSessionCache._engine
             WiredTigerSessionCache.BlockShutdown_enter
             WiredTigerSessionCache.set_shuttingDown].
        destruct (WiredTigerSessionCache._engine c); reflexivity.
      * exact Hepoch.
Qed.

Lemma shuttingDown_poolOK (env : Env) (c c' : WiredTigerSessionCache.t)
    (evs : list event) :
  poolOK c ->
  Cache.shuttingDown env c = Ok (evs, c') ->
  (WiredTigerSessionCache.isShuttingDown c = true /\ c' = c)
  \/ (WiredTigerSessionCache.isShuttingDown c = false
      /\ c' = Cache.closeAll_locked
                (WiredTigerSessionCache.set_shuttingDown
                   WiredTigerSessionCache.kShuttingDownMask c)
      /\ deleted evs = WiredTigerSessionCache._sessions c).
Proof.
  intros ([Hw | Hw] & _) H; unfold Cache.shuttingDown in H; rewrite Hw in H.
  - right. cbn [Z.lor Z.land Z.eqb negb] in H.
    change (Z.lor 0 WiredTigerSessionCache.kShuttingDownMask)
      with WiredTigerSessionCache.kShuttingDownMask in H.
    cbn [WiredTigerSessionCache._shuttingDown
         WiredTigerSessionCache.set_shuttingDown] in H.
    change (negb (Z.land 0 WiredTigerSessionCache.kShuttingDownMask =? 0))
      with false in H.
    change (negb (WiredTigerSessionCache.kShuttingDownMask
                  =? WiredTigerSessionCache.kShuttingDownMask)) with false in H.
    cbv iota in H.
    destruct (closeAll_inv _ _ _ _ H) as [-> Hdel].
    split; [unfold WiredTigerSessionCache.isShuttingDown; rewrite Hw; reflexivity |].
    split; [reflexivity | exact Hdel].
  - left.
    change (negb (Z.land WiredTigerSessionCache.kShuttingDownMask
                    WiredTigerSessionCache.kShuttingDownMask =? 0)) with true in H.
    cbv iota in H. injection H as _ <-.
    split; [unfold WiredTigerSessionCache.isShuttingDown; rewrite Hw; reflexivity |].
    destruct c as [w ss e p g]. cbn in Hw. subst w. reflexivity.
Qed.

Lemma shuttingDown_returns (env : Env) (c : WiredTigerSessionCache.t) :
  poolOK c ->
  (forall ws, session_close env ws = 0) ->
  exists evs c', Cache.shuttingDown env c = Ok (evs, c').
Proof.
  intros ([Hw | Hw] & _) Hclose; unfold Cache.shuttingDown; rewrite Hw.
  - change (negb (Z.land 0 WiredTigerSessionCache.kShuttingDownMask =? 0))
      with false.
    cbv iota.
    change (Z.lor 0 WiredTigerSessionCache.kShuttingDownMask)
      with WiredTigerSessionCache.kShuttingDownMask.
    cbn [WiredTigerSessionCache._shuttingDown
         WiredTigerSessionCache.set_shuttingDown].
    change (negb (WiredTigerSessionCache.kShuttingDownMask
                  =? WiredTigerSessionCache.kShuttingDownMask)) with false.
    cbv iota. unfold Cache.closeAll.
    cbn [WiredTigerSessionCache._sessions WiredTigerSessionCache.set_shuttingDown].
    destruct (destroyAll_returns env (WiredTigerSessionCache._sessions c) Hclose)
      as [evs Hd].
    rewrite Hd. eexists _, _. reflexivity.
  - change (negb (Z.land WiredTigerSessionCache.kShuttingDownMask
                    WiredTigerSessionCache.kShuttingDownMask =? 0)) with true.
    cbv iota. eexists _, _. reflexivity.
Qed.

Lemma isShuttingDown_word (c c' : WiredTigerSessionCache.t) :
  WiredTigerSessionCache._shuttingDown c' = WiredTigerSessionCache._shuttingDown c ->
  WiredTigerSessionCache.isShuttingDown c' = WiredTigerSessionCache.isShuttingDown c.
Proof. unfold WiredTigerSessionCache.isShuttingDown. intros ->. reflexivity. Qed.

(** The scope [releaseCursor] enters and leaves restores the shutdown word. *)
Lemma releaseCursor_cache (env : Env) (id : Z) (h : WT_CURSOR) (config : string)
    (c c' : WiredTigerSessionCache.t) (s s' : WiredTigerSession.t)
    (evs : list event) :
  0 <= WiredTigerSessionCache._shuttingDown c < 2 ^ 32 ->
  Session.releaseCursor env id h config (c, s) = Ok (evs, (c', s')) ->
  c' = c.
Proof.
  intros Hw. unfold Session.releaseCursor.
  rewrite (BlockShutdown_enter_exit c Hw).
  destruct (WiredTigerSessionCache.isShuttingDown _).
  - intros [= _ <- _]. reflexivity.
  - intros H. apply bind_Ok_inv in H as (? & s1 & ? & _ & H & ->).
    injection H as _ <- _. reflexivity.
Qed.

Lemma poolOK_set_sessions (c : WiredTigerSessionCache.t)
    (ss : list WiredTigerSession.t) :
  poolOK c ->
  Forall (fun s => WiredTigerSession._epoch s = WiredTigerSessionCache._epoch c) ss ->
  (WiredTigerSessionCache.isShuttingDown c = true -> ss = []) ->
  poolOK (WiredTigerSessionCache.set_sessions ss c).
Proof.
  intros (Hw & He & _ & _) Hall Hdown.
  split; [exact Hw |]. split; [exact He |]. split; [exact Hall | exact Hdown].
Qed.

Lemma advances_same (op : Op) (c : WiredTigerSessionCache.t) :
  poolOK c -> advances op c c [].
Proof.
  intros Hok. split; [exact Hok |].
  split; [lia |]. split; [constructor |]. split; [left; reflexivity |].
  split; [intros Hd _; split; [exact Hd | reflexivity] |].
  intros Hup Hd. congruence.
Qed.

Lemma advances_set_sessions (op : Op) (c : WiredTigerSessionCache.t)
    (ss : list WiredTigerSession.t) :
  poolOK c ->
  Forall (fun s => WiredTigerSession._epoch s = WiredTigerSessionCache._epoch c) ss ->
  (WiredTigerSessionCache.isShuttingDown c = true -> ss = []) ->
  advances op c (WiredTigerSessionCache.set_sessions ss c) [].
Proof.
  intros Hok Hall Hdown.
  split; [apply poolOK_set_sessions; assumption |].
  split; [cbn; lia |]. split; [constructor |]. split; [left; reflexivity |].
  split; [intros Hd _; split; [exact Hd | reflexivity] |].
  intros Hup Hd. change (WiredTigerSessionCache.isShuttingDown c = true) in Hd.
  congruence.
Qed.

Lemma u64_succ (e : Z) : 0 <= e -> e + 1 < 2 ^ 64 -> u64 (e + 1) = e + 1.
Proof. intros H0 H1. unfold u64. apply Z.mod_small. lia. Qed.

Lemma advances_closeAll (op : Op) (c : WiredTigerSessionCache.t) (w : Z) :
  poolOK c ->
  WiredTigerSessionCache._epoch c + 1 < 2 ^ 64 ->
  w = WiredTigerSessionCache._shuttingDown c
  \/ w = WiredTigerSessionCache.kShuttingDownMask ->
  advances op c
    (Cache.closeAll_locked (WiredTigerSessionCache.set_shuttingDown w c)) [].
Proof.
  intros (Hw & He & _ & _) Hroom Hword.
  unfold Cache.closeAll_locked.
  cbn [WiredTigerSessionCache._epoch WiredTigerSessionCache.set_shuttingDown].
  rewrite (u64_succ _ (proj1 He) Hroom).
  split; [| split; [cbn; lia | split; [constructor | split; [left; reflexivity |]]]].
  - split; [| split; [cbn; lia | split; [constructor | reflexivity]]].
    cbn. destruct Hword as [-> | ->]; [exact Hw | right; reflexivity].
  - split.
    + intros Hd _. split; [| reflexivity].
      destruct Hword as [-> | ->]; [exact Hd | reflexivity].
    + intros _ _. reflexivity.
Qed.

Lemma step_advances (env : Env) (op : Op) (c c' : WiredTigerSessionCache.t)
    (out : list WiredTigerSession.t) (evs : list event) :
  poolOK c ->
  WiredTigerSessionCache._epoch c + 1 < 2 ^ 64 ->
  step env op c = Ok (evs, (c', out)) ->
  advances op c c' out.
Proof.
  intros Hok Hroom H.
  pose proof Hok as (Hw & He & Hpool & Hdownpool).
  destruct op; cbn [step] in H.
  - (* getSession *)
    apply bind_Ok_inv in H as (? & [c1 s] & ? & Hget & H & ->).
    injection H as _ <- <-.
    destruct (getSession_inv _ _ _ _ _ Hget) as [Hup Hcases].
    assert (WiredTigerSession._epoch s = WiredTigerSessionCache._epoch c
            /\ exists below, c1 = WiredTigerSessionCache.set_sessions below c
               /\ Forall (fun s => WiredTigerSession._epoch s
                                   = WiredTigerSessionCache._epoch c) below)
      as (Hs & below & -> & Hbelow).
    { destruct Hcases as [(below & cached & Hss & -> & -> & _) | (Hnil & -> & -> & _)].
      - rewrite Hss in Hpool. apply Forall_app in Hpool as [Hbelow Hcached].
        inversion Hcached; subst. split; [assumption |].
        exists below. split; [reflexivity | exact Hbelow].
      - split; [reflexivity |]. exists []. split; [| constructor].
        destruct c; cbn in Hnil; subst; reflexivity. }
    split; [apply poolOK_set_sessions; [exact Hok | exact Hbelow | congruence] |].
    split; [cbn; lia |]. split; [repeat constructor; exact Hs |].
    split; [right; exact Hup |].
    split; [congruence |]. intros _ Hd.
    change (WiredTigerSessionCache.isShuttingDown c = true) in Hd. congruence.
  - (* releaseSession *)
    apply bind_Ok_inv in H as (? & c1 & ? & Hrel & H & ->).
    injection H as _ <- <-.
    destruct (releaseSession_poolOK _ _ _ _ _ Hok Hrel)
      as [(_ & -> & _) | (Hup & [(pooled & -> & Hp & Hs & _) | (-> & _)])].
    + apply advances_same. exact Hok.
    + apply advances_set_sessions; [exact Hok | | congruence].
      apply Forall_app. split; [exact Hpool |].
      repeat constructor. congruence.
    + apply advances_same. exact Hok.
  - (* closeAll *)
    apply bind_Ok_inv in H as (? & c1 & ? & Hclose & H & ->).
    injection H as _ <- <-.
    destruct (closeAll_inv _ _ _ _ Hclose) as [-> _].
    replace c with (WiredTigerSessionCache.set_shuttingDown
                      (WiredTigerSessionCache._shuttingDown c) c) at 2
      by (destruct c; reflexivity).
    apply advances_closeAll; [exact Hok | exact Hroom | left; reflexivity].
  - (* closeExpiredIdleSessions *)
    apply bind_Ok_inv in H as (? & c1 & ? & Hsweep & H & ->).
    injection H as _ <- <-.
    destruct (closeExpiredIdleSessions_inv _ _ _ _ _ Hsweep) as (kept & -> & Hkept).
    apply advances_set_sessions; [exact Hok | |].
    + apply List.Forall_forall. intros s Hs.
      apply (proj1 (List.Forall_forall _ _) Hpool). apply Hkept. exact Hs.
    + intros Hd. specialize (Hdownpool Hd). rewrite Hdownpool in Hkept.
      destruct kept as [| k kept]; [reflexivity |].
      destruct (Hkept k (or_introl eq_refl)).
  - (* closeAllCursors *)
    apply bind_Ok_inv in H as (? & c1 & ? & Hclose & H & ->).
    injection H as _ <- <-.
    unfold Cache.closeAllCursors in Hclose.
    apply bind_Ok_inv in Hclose as (? & ss & ? & Hin & Hclose & ->).
    injection Hclose as _ <-.
    apply advances_set_sessions; [exact Hok | |].
    + exact (closeAllCursorsIn_epoch _ _ _ _ _ _ Hin Hpool).
    + intros Hd. rewrite (Hdownpool Hd) in Hin. injection Hin as _ <-. reflexivity.
  - (* shuttingDown *)
    apply bind_Ok_inv in H as (? & c1 & ? & Hdown & H & ->).
    injection H as _ <- <-.
    destruct (shuttingDown_poolOK _ _ _ _ Hok Hdown) as [(_ & ->) | (_ & -> & _)].
    + apply advances_same. exact Hok.
    + apply advances_closeAll; [exact Hok | exact Hroom | right; reflexivity].
  - (* restart *)
    injection H as _ <- <-.
    assert (WiredTigerSessionCache._shuttingDown (WiredTigerSessionCache.restart c) = 0)
      as Hzero.
    { unfold WiredTigerSessionCache.restart. cbn.
      destruct Hw as [-> | ->]; reflexivity. }
    assert (WiredTigerSessionCache.isShuttingDown (WiredTigerSessionCache.restart c)
            = false) as Hup.
    { unfold WiredTigerSessionCache.isShuttingDown. rewrite Hzero. reflexivity. }
    split; [| split; [cbn; lia | split; [constructor | split; [left; reflexivity |]]]].
    + split; [left; exact Hzero |]. split; [exact He |].
      split; [exact Hpool | congruence].
    + split; [intros _ Hr; discriminate Hr | congruence].
  - (* notifyPreparedUnitOfWorkHasCommittedOrAborted *)
    injection H as _ <- <-.
    split; [| split; [cbn; lia | split; [constructor | split; [left; reflexivity |]]]].
    + split; [exact Hw |]. split; [exact He |]. split; [exact Hpool | exact Hdownpool].
    + split; [intros Hd _; split; [exact Hd | reflexivity] |].
      intros Hup Hd. change (WiredTigerSessionCache.isShuttingDown c = true) in Hd.
      congruence.
  - (* releaseCursor *)
    apply bind_Ok_inv in H as (? & [c1 s1] & ? & Hrel & H & ->).
    injection H as _ <- <-. cbn [fst].
    rewrite (releaseCursor_cache _ _ _ _ _ _ _ _ _ (proj1 (poolOK_word c Hok)) Hrel).
    apply advances_same. exact Hok.
Qed.

Lemma poolOK_create (engine : bool) : poolOK (WiredTigerSessionCache.create engine).
Proof.
  split; [left; reflexivity |]. split; [cbn; lia |].
  split; [constructor | reflexivity].
Qed.

(** Along any sequence of calls: the pool stays in order; the epoch never
    decreases; every session handed out carries an epoch between the first and
    the last; the shutdown bit gets set only along with an epoch bump, so that
    a cache that is shutting down is strictly ahead of every session handed
    out; and without a [restart] the bit, once set, stays set and no session is
    handed out. *)
Lemma run_advances (calls : list (Env * Op)) (c c' : WiredTigerSessionCache.t)
    (outs : list WiredTigerSession.t) (evs : list event) :
  poolOK c ->
  WiredTigerSessionCache._epoch c + Z.of_nat (length calls) < 2 ^ 64 ->
  run calls c = Ok (evs, (c', outs)) ->
  poolOK c'
  /\ WiredTigerSessionCache._epoch c <= WiredTigerSessionCache._epoch c'
     <= WiredTigerSessionCache._epoch c + Z.of_nat (length calls)
  /\ Forall (fun r => WiredTigerSessionCache._epoch c <= WiredTigerSession._epoch r
                      <= WiredTigerSessionCache._epoch c') outs
  /\ (WiredTigerSessionCache.isShuttingDown c = false ->
      WiredTigerSessionCache.isShuttingDown c' = true ->
      WiredTigerSessionCache._epoch c < WiredTigerSessionCache._epoch c')
  /\ (WiredTigerSessionCache.isShuttingDown c' = true ->
      Forall (fun r => WiredTigerSession._epoch r < WiredTigerSessionCache._epoch c')
        outs)
  /\ (Forall (fun call => isRestart (snd call) = false) calls ->
      WiredTigerSessionCache.isShuttingDown c = true ->
      WiredTigerSessionCache.isShuttingDown c' = true /\ outs = []).
Proof.
  revert c evs outs.
  induction calls as [| [env op] more IH]; intros c evs outs Hok Hroom H.
  - injection H as _ <- <-.
    split; [exact Hok |]. split; [cbn; lia |]. split; [constructor |].
    split; [congruence |]. split; [constructor |]. intros _ Hd. split; [exact Hd | reflexivity].
  - cbn [run] in H. cbn [length] in Hroom.
    apply bind_Ok_inv in H as (? & [c1 out1] & ? & Hstep & H & ->).
    apply bind_Ok_inv in H as (? & [c2 outs2] & ? & Hrun & H & ->).
    injection H as _ <- <-.
    destruct (step_advances env op c c1 out1 _ Hok ltac:(lia) Hstep)
      as (Hok1 & He1 & Hout1 & Hout1up & Hkeep1 & Hset1).
    destruct (IH c1 _ _ Hok1 ltac:(lia) Hrun)
      as (Hok2 & He2 & Houts2 & Hset2 & Hahead2 & Hkeep2).
    assert (WiredTigerSessionCache.isShuttingDown c = false ->
            WiredTigerSessionCache.isShuttingDown c2 = true ->
            WiredTigerSessionCache._epoch c < WiredTigerSessionCache._epoch c2)
      as Hset.
    { intros Hup Hd.
      destruct (WiredTigerSessionCache.isShuttingDown c1) eqn:Hd1.
      - specialize (Hset1 Hup eq_refl). lia.
      - specialize (Hset2 eq_refl Hd). lia. }
    split; [exact Hok2 |]. split; [cbn [length]; lia |].
    split; [| split; [exact Hset | split]].
    + apply Forall_app. split.
      * eapply List.Forall_impl; [| exact Hout1]. cbn. intros r Hr. lia.
      * eapply List.Forall_impl; [| exact Houts2]. cbn. intros r Hr. lia.
    + intros Hd. apply Forall_app. split; [| exact (Hahead2 Hd)].
      destruct Hout1up as [-> | Hup1]; [constructor |].
      specialize (Hset2 Hup1 Hd).
      eapply List.Forall_impl; [| exact Hout1]. cbn. intros r Hr. lia.
    + intros Hnr Hd. inversion Hnr as [| ? ? Hop Hmore]; subst. cbn in Hop.
      destruct (Hkeep1 Hd Hop) as [Hd1 ->].
      destruct (Hkeep2 Hmore Hd1) as [Hd2 ->].
      split; [exact Hd2 | reflexivity].
Qed.

Lemma getSession_fresh (env : Env) (c : WiredTigerSessionCache.t) :
  WiredTigerSessionCache.isShuttingDown c = false ->
  WiredTigerSessionCache._sessions c = [] ->
  fst (open_session env) = 0 ->
  Cache.getSession env c
  = Ok ([EvOpenSession "isolation=snapshot"],
        (c, freshSession (WiredTigerSessionCache._epoch c) (snd (open_session env)))).
Proof.
  intros Hup Hnil Hrc. unfold Cache.getSession, Cache.newSession.
  unfold WiredTigerSessionCache.isShuttingDown in Hup.
  apply negb_false_iff in Hup. rewrite Hup, Hnil.
  destruct (open_session env) as [rc handle]. cbn in Hrc. subst rc. reflexivity.
Qed.

(** C5: take any history of calls on a cache from its construction, and let
    [shuttingDown()] complete after it. The shutdown bit is then set. Through
    any further calls other than [restart] it stays set, no session is handed
    out, and [getSession] fails its invariant. After [restart] the bit is
    clear, [getSession] succeeds (the engine opening a session), and the
    session it creates, like every session handed out from then on, carries an
    epoch strictly greater than that of every session handed out before the
    shutdown. (The bounds on the number of calls, [shuttingDown] and [restart]
    included, say that the 64-bit epoch does not wrap.) *)
Theorem shutdown_terminal (engine : bool) (history : list (Env * Op))
    (env : Env) (c0 c1 : WiredTigerSessionCache.t)
    (before : list WiredTigerSession.t) (ev0 ev1 : list event) :
  Z.of_nat (length history) + 1 < 2 ^ 64 ->
  run history (WiredTigerSessionCache.create engine) = Ok (ev0, (c0, before)) ->
  Cache.shuttingDown env c0 = Ok (ev1, c1) ->
  WiredTigerSessionCache.isShuttingDown c1 = true
  /\ forall (calls : list (Env * Op)) c2 during ev2,
       Forall (fun call => isRestart (snd call) = false) calls ->
       Z.of_nat (length history) + Z.of_nat (length calls) + 2 < 2 ^ 64 ->
       run calls c1 = Ok (ev2, (c2, during)) ->
       WiredTigerSessionCache.isShuttingDown c2 = true
       /\ during = []
       /\ (forall env', Cache.getSession env' c2
                        = Abort (InvariantFailure
                                   "!(_shuttingDown.load() & kShuttingDownMask)"))
       /\ WiredTigerSessionCache.isShuttingDown
            (WiredTigerSessionCache.restart c2) = false
       /\ (forall env', fst (open_session env') = 0 ->
             exists ev s,
               Cache.getSession env' (WiredTigerSessionCache.restart c2)
               = Ok (ev, (WiredTigerSessionCache.restart c2, s))
               /\ Forall (fun r => WiredTigerSession._epoch r
                                   < WiredTigerSession._epoch s) before)
       /\ (forall (calls' : list (Env * Op)) c4 after ev4,
             Z.of_nat (length history) + Z.of_nat (length calls)
             + Z.of_nat (length calls') + 2 < 2 ^ 64 ->
             run calls' (WiredTigerSessionCache.restart c2) = Ok (ev4, (c4, after)) ->
             Forall (fun s => Forall (fun r => WiredTigerSession._epoch r
                                               < WiredTigerSession._epoch s) before)
               after).
Proof.
  intros Hroom0 Hhist Hdown.
  destruct (run_advances history _ c0 before ev0 (poolOK_create engine)
              ltac:(cbn; lia) Hhist)
    as (Hok0 & He0 & Hbefore & _ & Hahead0 & _).
  cbn [WiredTigerSessionCache._epoch WiredTigerSessionCache.create] in He0, Hbefore.
  assert (step env OpShuttingDown c0 = Ok (ev1 ++ [], (c1, []))) as Hstep.
  { cbn [step]. rewrite Hdown. reflexivity. }
  destruct (step_advances env OpShuttingDown c0 c1 [] _ Hok0 ltac:(lia) Hstep)
    as (Hok1 & He1 & _ & _ & _ & _).
  assert (WiredTigerSessionCache.isShuttingDown c1 = true
          /\ Forall (fun r => WiredTigerSession._epoch r
                              < WiredTigerSessionCache._epoch c1) before)
    as [Hd1 Hahead1].
  { destruct (shuttingDown_poolOK _ _ _ _ Hok0 Hdown) as [(Hd & ->) | (Hup & -> & _)].
    - split; [exact Hd | exact (Hahead0 Hd)].
    - split; [reflexivity |].
      unfold Cache.closeAll_locked.
      cbn [WiredTigerSessionCache._epoch WiredTigerSessionCache.set_sessions
           WiredTigerSessionCache.set_epoch WiredTigerSessionCache.set_shuttingDown].
      rewrite u64_succ by lia.
      eapply List.Forall_impl; [| exact Hbefore]. cbn. intros r Hr. lia. }
  split; [exact Hd1 |].
  intros calls c2 during ev2 Hnorestart Hroom1 Hrun.
  destruct (run_advances calls c1 c2 during ev2 Hok1 ltac:(lia) Hrun)
    as (Hok2 & He2 & _ & _ & _ & Hkeep).
  destruct (Hkeep Hnorestart Hd1) as [Hd2 ->].
  assert (Forall (fun r => WiredTigerSession._epoch r
                           < WiredTigerSessionCache._epoch c2) before) as Hahead2.
  { eapply List.Forall_impl; [| exact Hahead1]. cbn. intros r Hr. lia. }
  assert (step env OpRestart c2
          = Ok ([], (WiredTigerSessionCache.restart c2, []))) as Hrestart
    by reflexivity.
  destruct (step_advances env OpRestart c2 _ [] _ Hok2 ltac:(lia) Hrestart)
    as (Hok3 & He3 & _ & _ & _ & _).
  assert (WiredTigerSessionCache.isShuttingDown (WiredTigerSessionCache.restart c2)
          = false) as Hup3.
  { destruct Hok2 as ([Hw | Hw] & _);
      unfold WiredTigerSessionCache.isShuttingDown, WiredTigerSessionCache.restart;
      cbn; rewrite Hw; reflexivity. }
  split; [exact Hd2 |]. split; [reflexivity |].
  split; [intros env'; apply getSession_shutdown; exact Hd2 |].
  split; [exact Hup3 |]. split.
  - intros env' Hopen.
    assert (WiredTigerSessionCache._sessions (WiredTigerSessionCache.restart c2) = [])
      as Hnil by (destruct Hok2 as (_ & _ & _ & Hp); exact (Hp Hd2)).
    eexists _, _. split; [apply getSession_fresh; assumption |].
    exact Hahead2.
  - intros calls' c4 after ev4 Hroom2 Hrun'.
    destruct (run_advances calls' _ c4 after ev4 Hok3 ltac:(lia) Hrun')
      as (_ & _ & Hafter & _).
    eapply List.Forall_impl; [| exact Hafter]. cbn. intros s Hs.
    eapply List.Forall_impl; [| exact Hahead2]. cbn. intros r Hr. lia.
Qed.

Lemma shutdown_terminal_witness :
  let env := env_ok 2 0 in
  let c0 := WiredTigerSessionCache.create true in
  let c1 := WiredTigerSessionCache.mk WiredTigerSessionCache.kShuttingDownMask [] 1 0 true in
  Cache.shuttingDown env c0 = Ok ([], c1)
  /\ WiredTigerSessionCache.isShuttingDown c1 = true
  /\ Cache.getSession env c1
     = Abort (InvariantFailure "!(_shuttingDown.load() & kShuttingDownMask)")
  /\ exists ev s,
       Cache.getSession env (WiredTigerSessionCache.restart c1)
       = Ok (ev, (WiredTigerSessionCache.restart c1, s))
       /\ Forall (fun r => WiredTigerSession._epoch r < WiredTigerSession._epoch s)
            [freshSession 0 4096].
Proof.
  intros env c0 c1.
  assert (run [(env, OpGetSession)] c0
          = Ok ([EvOpenSession "isolation=snapshot"], (c0, [freshSession 0 4096])))
    as Hhist by reflexivity.
  assert (Cache.shuttingDown env c0 = Ok ([], c1)) as Hdown by reflexivity.
  assert (Z.of_nat (length [(env, OpGetSession)]) + 1 < 2 ^ 64) as Hroom
    by reflexivity.
  destruct (shutdown_terminal true [(env, OpGetSession)] env c0 c1 _ _ _
              Hroom Hhist Hdown) as [Hd Hafter].
  destruct (Hafter [] c1 [] [] ltac:(constructor) ltac:(reflexivity) eq_refl)
    as (_ & _ & Hfails & _ & Hget & _).
  split; [exact Hdown |]. split; [exact Hd |]. split; [apply Hfails |].
  apply (Hget env). reflexivity.
Defined.

(** ** Epochs on the release path *)

(** What the release path does outside shutdown when other threads act on the
    cache between its two epoch checks: the session enters the pool only with
    the epoch the cache has at the check under the lock; otherwise it is
    destroyed. *)
Lemma releaseSession_racing_pools (env : Env)
    (racing : WiredTigerSessionCache.t -> WiredTigerSessionCache.t)
    (s : WiredTigerSession.t) (c c' : WiredTigerSessionCache.t)
    (evs : list event) :
  WiredTigerSessionCache.isShuttingDown
    (WiredTigerSessionCache.BlockShutdown_enter c) = false ->
  Cache.releaseSession_racing env racing s c = Ok (evs, c') ->
  let locked := racing (WiredTigerSessionCache.BlockShutdown_enter c) in
  (WiredTigerSession._epoch s = WiredTigerSessionCache._epoch c
   /\ WiredTigerSession._epoch s = WiredTigerSessionCache._epoch locked
   /\ deleted evs = []
   /\ exists pooled,
        WiredTigerSessionCache._sessions c'
        = WiredTigerSessionCache._sessions locked ++ [pooled]
        /\ WiredTigerSession._epoch pooled = WiredTigerSession._epoch s)
  \/ (WiredTigerSession._epoch s <> WiredTigerSessionCache._epoch locked
      /\ WiredTigerSessionCache._sessions c' = WiredTigerSessionCache._sessions locked
      /\ exists gone,
           deleted evs = [gone]
           /\ WiredTigerSession._epoch gone = WiredTigerSession._epoch s)
  \/ (WiredTigerSession._epoch s < WiredTigerSessionCache._epoch c
      /\ WiredTigerSessionCache._sessions c' = WiredTigerSessionCache._sessions c
      /\ exists gone,
           deleted evs = [gone]
           /\ WiredTigerSession._epoch gone = WiredTigerSession._epoch s).
Proof.
  intros Hflag Hrel.
  destruct (releaseSession_racing_inv env racing s c c' evs Hflag Hrel)
    as (evsC & s1 & evsU & Hclose & Hreset & Hcases).
  assert (WiredTigerSession._epoch s1 = WiredTigerSession._epoch s) as Hepoch.
  { destruct (gWiredTigerCursorCacheSize env <? 0).
    - exact (closeAllCursors_epoch _ _ _ _ _ Hclose).
    - injection Hclose as _ <-. reflexivity. }
  assert (deleted evsC = []) as HdelC.
  { destruct (gWiredTigerCursorCacheSize env <? 0).
    - exact (closeAllCursors_deleted _ _ _ _ _ Hclose).
    - injection Hclose as <- _. reflexivity. }
  pose proof (resetSessionConfiguration_deleted _ _ _ _ Hreset) as HdelU.
  cbv zeta in Hcases |- *.
  cbn [WiredTigerSession._epoch WiredTigerSession.setIdleExpireTime
       WiredTigerSession.set_undoConfigStrings] in Hcases.
  rewrite Hepoch in Hcases.
  destruct Hcases as [(Hfast & Hlock & -> & ->) | (cX & evsD & Hd & HcX & -> & ->)].
  - left. split; [exact Hfast |]. split; [exact Hlock |]. split.
    + rewrite !deleted_app. cbn [deleted]. rewrite !deleted_app, HdelC, HdelU.
      destruct (WiredTigerSessionCache._engine _); reflexivity.
    + eexists. split; [reflexivity | exact Hepoch].
  - assert (deleted
              ((EvPinnedRange (WiredTigerSession._session s)
                :: evsC ++ evsU ++ [EvSessionReset (WiredTigerSession._session s)])
               ++ evsD
               ++ (if WiredTigerSessionCache._engine cX
                   then [EvSizeStorerPeriodicFlush] else []))
            = [WiredTigerSession.setIdleExpireTime (now env)
                 (WiredTigerSession.set_undoConfigStrings ∅ s1)]) as Hdel.
    { rewrite !deleted_app. cbn [deleted].
      rewrite !deleted_app, HdelC, HdelU, (destroy_deleted _ _ _ Hd).
      destruct (WiredTigerSessionCache._engine cX); reflexivity. }
    rewrite Hdel.
    destruct HcX as [(_ & Hne & ->) | (Hlt & ->)].
    + right. left. split; [exact Hne |]. split; [reflexivity |].
      eexists. split; [reflexivity | exact Hepoch].
    + right. right. split; [exact Hlt |]. split; [reflexivity |].
      eexists. split; [reflexivity | exact Hepoch].
Qed.

(** C3: a session handed out by [getSession], then a [closeAll()], then the
    release of that session (any other calls in between): the epoch of the
    session is strictly below the epoch of the cache, the release leaves the
    cache, its pool included, as it was, and destroys the session; the session
    is in no later pool and no later [getSession] hands it out, since every
    pooled and every handed-out session from then on carries a greater epoch.
    In general the release path puts a session into the pool only if its epoch
    is the epoch the cache has at the check made under the lock; a [closeAll]
    that slips in between the two checks makes the release destroy the
    session. (The bounds on the number of calls say that the 64-bit epoch does
    not wrap.) *)
Theorem closeAll_discards_checked_out
    (calls1 calls2 : list (Env * Op)) (env0 env1 env2 : Env)
    (c0 c1 c2 c3 c4 c5 : WiredTigerSessionCache.t)
    (s s' : WiredTigerSession.t) (out1 out2 : list WiredTigerSession.t)
    (e0 e1 e2 e3 e4 : list event) :
  poolOK c0 ->
  WiredTigerSessionCache._epoch c0
  + Z.of_nat (length calls1) + Z.of_nat (length calls2) + 3 < 2 ^ 64 ->
  Cache.getSession env0 c0 = Ok (e0, (c1, s)) ->
  run calls1 c1 = Ok (e1, (c2, out1)) ->
  Cache.closeAll env1 c2 = Ok (e2, c3) ->
  run calls2 c3 = Ok (e3, (c4, out2)) ->
  WiredTigerSession._epoch s' = WiredTigerSession._epoch s ->
  Cache.releaseSession env2 s' c4 = Ok (e4, c5) ->
  WiredTigerSession._epoch s' < WiredTigerSessionCache._epoch c4
  /\ c5 = c4
  /\ (exists gone, deleted e4 = [gone]
                   /\ WiredTigerSession._epoch gone = WiredTigerSession._epoch s')
  /\ (forall (calls3 : list (Env * Op)) c6 out3 e5,
        WiredTigerSessionCache._epoch c0
        + Z.of_nat (length calls1) + Z.of_nat (length calls2)
        + Z.of_nat (length calls3) + 3 < 2 ^ 64 ->
        run calls3 c5 = Ok (e5, (c6, out3)) ->
        Forall (fun r => WiredTigerSession._epoch s < WiredTigerSession._epoch r) out3
        /\ Forall (fun p => WiredTigerSession._epoch s < WiredTigerSession._epoch p)
             (WiredTigerSessionCache._sessions c6))
  /\ (forall env racing x c c' evs,
        WiredTigerSessionCache.isShuttingDown
          (WiredTigerSessionCache.BlockShutdown_enter c) = false ->
        Cache.releaseSession_racing env racing x c = Ok (evs, c') ->
        let locked := racing (WiredTigerSessionCache.BlockShutdown_enter c) in
        (WiredTigerSession._epoch x = WiredTigerSessionCache._epoch c
         /\ WiredTigerSession._epoch x = WiredTigerSessionCache._epoch locked
         /\ deleted evs = []
         /\ exists pooled,
              WiredTigerSessionCache._sessions c'
              = WiredTigerSessionCache._sessions locked ++ [pooled]
              /\ WiredTigerSession._epoch pooled = WiredTigerSession._epoch x)
        \/ (exists gone,
              deleted evs = [gone]
              /\ WiredTigerSession._epoch gone = WiredTigerSession._epoch x
              /\ (WiredTigerSessionCache._sessions c'
                  = WiredTigerSessionCache._sessions locked
                  \/ WiredTigerSessionCache._sessions c'
                     = WiredTigerSessionCache._sessions c)))
  /\ (forall env x c c' evs,
        0 <= WiredTigerSessionCache._epoch c < 2 ^ 64 ->
        WiredTigerSessionCache.isShuttingDown
          (WiredTigerSessionCache.BlockShutdown_enter c) = false ->
        Cache.releaseSession_racing env Cache.closeAll_locked x c = Ok (evs, c') ->
        exists gone,
          deleted evs = [gone]
          /\ WiredTigerSession._epoch gone = WiredTigerSession._epoch x
          /\ (WiredTigerSessionCache._sessions c' = []
              \/ WiredTigerSessionCache._sessions c'
                 = WiredTigerSessionCache._sessions c)).
Proof.
  intros Hok0 Hroom Hget Hrun1 Hclose Hrun2 Hsame Hrel.
  assert (step env0 OpGetSession c0 = Ok (e0 ++ [], (c1, [s]))) as Hstep0
    by (cbn [step]; rewrite Hget; reflexivity).
  destruct (step_advances _ _ _ _ _ _ Hok0 ltac:(lia) Hstep0)
    as (Hok1 & He1 & Hs & _).
  inversion Hs as [| ? ? Hs1 _]; subst. clear Hs.
  destruct (run_advances calls1 c1 c2 out1 e1 Hok1 ltac:(lia) Hrun1)
    as (Hok2 & He2 & _).
  assert (step env1 OpCloseAll c2 = Ok (e2 ++ [], (c3, []))) as Hstep2
    by (cbn [step]; rewrite Hclose; reflexivity).
  destruct (step_advances _ _ _ _ _ _ Hok2 ltac:(lia) Hstep2) as (Hok3 & He3 & _).
  assert (WiredTigerSessionCache._epoch c3 = WiredTigerSessionCache._epoch c2 + 1)
    as Hbump.
  { destruct (closeAll_inv _ _ _ _ Hclose) as [-> _].
    unfold Cache.closeAll_locked. cbn.
    apply u64_succ; [destruct Hok2 as (_ & ? & _); lia | lia]. }
  destruct (run_advances calls2 c3 c4 out2 e3 Hok3 ltac:(lia) Hrun2)
    as (Hok4 & He4 & _).
  assert (WiredTigerSession._epoch s' < WiredTigerSessionCache._epoch c4) as Hold
    by lia.
  assert (c5 = c4
          /\ exists gone, deleted e4 = [gone]
                          /\ WiredTigerSession._epoch gone = WiredTigerSession._epoch s')
    as [-> Hgone].
  { destruct (releaseSession_poolOK _ _ _ _ _ Hok4 Hrel)
      as [(_ & -> & Hdel) | (_ & [(pooled & _ & _ & Heq & _) | (-> & _ & Hdel)])].
    - split; [reflexivity |]. eexists. split; [exact Hdel | reflexivity].
    - lia.
    - split; [reflexivity | exact Hdel]. }
  split; [exact Hold |]. split; [reflexivity |]. split; [exact Hgone |].
  split; [| split].
  - intros calls3 c6 out3 e5 Hroom3 Hrun3.
    destruct (run_advances calls3 c4 c6 out3 e5 Hok4 ltac:(lia) Hrun3)
      as (Hok6 & He6 & Hout3 & _).
    split.
    + eapply List.Forall_impl; [| exact Hout3]. cbn. intros r Hr. lia.
    + destruct Hok6 as (_ & _ & Hpool6 & _).
      eapply List.Forall_impl; [| exact Hpool6]. cbn. intros r Hr. lia.
  - intros env racing x c c' evs Hflag Hracing.
    destruct (releaseSession_racing_pools _ _ _ _ _ _ Hflag Hracing)
      as [Hpooled | [(_ & Hss & gone & Hdel & Hg) | (_ & Hss & gone & Hdel & Hg)]].
    + left. exact Hpooled.
    + right. exists gone. split; [exact Hdel |]. split; [exact Hg |]. left. exact Hss.
    + right. exists gone. split; [exact Hdel |]. split; [exact Hg |]. right. exact Hss.
  - intros env x c c' evs Hec Hflag Hracing.
    destruct (releaseSession_racing_pools _ _ _ _ _ _ Hflag Hracing)
      as [(Hfast & Heq) | [(_ & Hss & gone & Hdel & Hg) | (Hlt & Hss & gone & Hdel & Hg)]].
    + exfalso. destruct Heq as [Hlock _]. revert Hlock.
      unfold Cache.closeAll_locked. cbn. rewrite Hfast. unfold u64.
      destruct (Z.eq_dec (WiredTigerSessionCache._epoch c + 1) (2 ^ 64)) as [E | E].
      * rewrite E, Z.mod_same by lia. lia.
      * rewrite Z.mod_small by lia. lia.
    + exists gone. split; [exact Hdel |]. split; [exact Hg |]. left. exact Hss.
    + exists gone. split; [exact Hdel |]. split; [exact Hg |]. right. exact Hss.
Qed.

Lemma closeAll_discards_checked_out_witness :
  let env := env_ok 2 0 in
  let c0 := WiredTigerSessionCache.create true in
  let s := freshSession 0 4096 in
  let c3 := WiredTigerSessionCache.mk 0 [] 1 0 true in
  Cache.getSession env c0 = Ok ([EvOpenSession "isolation=snapshot"], (c0, s))
  /\ Cache.closeAll env c0 = Ok ([], c3)
  /\ exists e4 gone,
       Cache.releaseSession env s c3 = Ok (e4, c3)
       /\ WiredTigerSessionCache._sessions c3 = []
       /\ deleted e4 = [gone]
       /\ WiredTigerSession._epoch s < WiredTigerSessionCache._epoch c3.
Proof.
  intros env c0 s c3.
  assert (Cache.getSession env c0
          = Ok ([EvOpenSession "isolation=snapshot"], (c0, s))) as Hget
    by reflexivity.
  assert (Cache.closeAll env c0 = Ok ([], c3)) as Hclose by reflexivity.
  assert (exists e4, Cache.releaseSession env s c3 = Ok (e4, c3)) as [e4 Hrel]
    by (eexists; reflexivity).
  assert (WiredTigerSessionCache._epoch c0
          + Z.of_nat (length (@nil (Env * Op)))
          + Z.of_nat (length (@nil (Env * Op))) + 3 < 2 ^ 64) as Hroom
    by reflexivity.
  destruct (closeAll_discards_checked_out [] [] env env env c0 c0 c0 c3 c3 c3 s s
              [] [] _ [] _ [] e4 (poolOK_create true) Hroom Hget eq_refl Hclose
              eq_refl eq_refl Hrel) as (Hold & _ & (gone & Hdel & _) & _).
  split; [exact Hget |]. split; [exact Hclose |].
  exists e4, gone. split; [exact Hrel |]. split; [reflexivity |].
  split; [exact Hdel | exact Hold].
Defined.

(** * Further properties of the code *)

(** ** Table ids *)

Lemma genTableIds_counter (n : nat) (start : Z) :
  0 <= start < 2 ^ 64 ->
  snd (genTableIds n start) = u64 (start + Z.of_nat n).
Proof.
  revert start. induction n as [| n IH]; intros start Hs.
  - cbn. unfold u64. rewrite Z.add_0_r, Z.mod_small; [reflexivity | exact Hs].
  - cbn [genTableIds genTableId].
    destruct (genTableIds n (u64 (start + 1))) as [ids final] eqn:Hrec.
    cbn [snd]. change final with (snd (ids, final)). rewrite <- Hrec, IH.
    + unfold u64. rewrite Zplus_mod_idemp_l. f_equal. lia.
    + unfold u64. apply Z.mod_pos_bound. lia.
Qed.

Lemma genTableIds_range (n : nat) (start : Z) :
  0 <= start ->
  start + Z.of_nat n <= 2 ^ 64 ->
  (forall id, In id (fst (genTableIds n start)) <-> start <= id < start + Z.of_nat n)
  /\ List.NoDup (fst (genTableIds n start)).
Proof.
  revert start. induction n as [| n IH]; intros start H0 Hroom.
  - cbn. split; [intros id; split; [intros [] | lia] | constructor].
  - cbn [genTableIds genTableId].
    destruct (genTableIds n (u64 (start + 1))) as [ids final] eqn:Hrec.
    cbn [fst].
    destruct n as [| n'].
    + cbn in Hrec. injection Hrec as <- _.
      split; [| repeat constructor; intros []].
      intros id. cbn. split; [intros [<- | []]; lia | intros H; left; lia].
    + assert (u64 (start + 1) = start + 1) as Hnext
        by (unfold u64; apply Z.mod_small; lia).
      rewrite Hnext in Hrec.
      destruct (IH (start + 1) ltac:(lia) ltac:(lia)) as [Hin Hnodup].
      rewrite Hrec in Hin, Hnodup. cbn [fst] in Hin, Hnodup.
      split.
      * intros id. cbn [In]. rewrite Hin. lia.
      * constructor; [| exact Hnodup]. rewrite Hin. lia.
Qed.

(** X1: as long as the 64-bit counter has not wrapped, the ids handed out by
    [genTableId] are exactly the values from [kLastTableId] on, each once, so
    that no two calls return the same id and none returns one of the two
    reserved metadata ids; the counter advances by one per call, modulo
    [2^64]. *)
Theorem genTableId_fresh (n : nat) :
  kLastTableId + Z.of_nat n <= 2 ^ 64 ->
  let ids := fst (genTableIds n kLastTableId) in
  List.NoDup ids
  /\ (forall id, In id ids <-> kLastTableId <= id < kLastTableId + Z.of_nat n)
  /\ ~ In kMetadataTableId ids
  /\ ~ In kMetadataCreateTableId ids
  /\ snd (genTableIds n kLastTableId) = u64 (kLastTableId + Z.of_nat n).
Proof.
  intros Hroom ids.
  destruct (genTableIds_range n kLastTableId ltac:(discriminate) Hroom)
    as [Hin Hnodup].
  split; [exact Hnodup |]. split; [exact Hin |].
  split; [| split].
  - intros H. apply Hin in H. unfold kMetadataTableId, kLastTableId in H. lia.
  - intros H. apply Hin in H. unfold kMetadataCreateTableId, kLastTableId in H. lia.
  - apply genTableIds_counter. unfold kLastTableId. lia.
Qed.

Lemma genTableId_fresh_witness :
  fst (genTableIds 3 kLastTableId) = [2; 3; 4]
  /\ List.NoDup (fst (genTableIds 3 kLastTableId))
  /\ ~ In kMetadataTableId (fst (genTableIds 3 kLastTableId)).
Proof.
  assert (kLastTableId + Z.of_nat 3 <= 2 ^ 64) as Hroom by discriminate.
  destruct (genTableId_fresh 3 Hroom) as (Hnodup & _ & Hmeta & _).
  split; [reflexivity |]. split; [exact Hnodup | exact Hmeta].
Defined.

(** ** The shutdown word: scopes, restart, shuttingDown *)

Lemma BlockShutdown_exit_enter (c : WiredTigerSessionCache.t) :
  0 <= WiredTigerSessionCache._shuttingDown c < 2 ^ 32 ->
  WiredTigerSessionCache.BlockShutdown_enter
    (WiredTigerSessionCache.BlockShutdown_exit c) = c.
Proof.
  intros Hw. destruct c as [w ss e p g]. simpl in Hw.
  unfold WiredTigerSessionCache.BlockShutdown_exit,
    WiredTigerSessionCache.BlockShutdown_enter,
    WiredTigerSessionCache.set_shuttingDown. simpl. f_equal.
  unfold u32. rewrite Zplus_mod_idemp_l.
  replace (w - 1 + 1) with w by lia. apply Z.mod_small. exact Hw.
Qed.

(** X2: entering a shutdown-blocking scope and leaving it again restores the
    cache, shutdown word included, for every 32-bit value of the word, also
    when the addition wraps; in between only the word differs, the pool and
    the epoch do not. *)
Theorem BlockShutdown_scope_restores (c : WiredTigerSessionCache.t) :
  0 <= WiredTigerSessionCache._shuttingDown c < 2 ^ 32 ->
  WiredTigerSessionCache.BlockShutdown_exit
    (WiredTigerSessionCache.BlockShutdown_enter c) = c
  /\ WiredTigerSessionCache.BlockShutdown_enter
       (WiredTigerSessionCache.BlockShutdown_exit c) = c
  /\ WiredTigerSessionCache._sessions (WiredTigerSessionCache.BlockShutdown_enter c)
     = WiredTigerSessionCache._sessions c
  /\ WiredTigerSessionCache._epoch (WiredTigerSessionCache.BlockShutdown_enter c)
     = WiredTigerSessionCache._epoch c
  /\ 0 <= WiredTigerSessionCache._shuttingDown
            (WiredTigerSessionCache.BlockShutdown_enter c) < 2 ^ 32.
Proof.
  intros Hw.
  split; [apply BlockShutdown_enter_exit; exact Hw |].
  split; [apply BlockShutdown_exit_enter; exact Hw |].
  split; [reflexivity |]. split; [reflexivity |].
  cbn. unfold u32. apply Z.mod_pos_bound. lia.
Qed.

Lemma BlockShutdown_scope_restores_witness :
  let c := WiredTigerSessionCache.mk (2 ^ 32 - 1) [] 7 0 true in
  WiredTigerSessionCache._shuttingDown (WiredTigerSessionCache.BlockShutdown_enter c) = 0
  /\ WiredTigerSessionCache.BlockShutdown_exit
       (WiredTigerSessionCache.BlockShutdown_enter c) = c.
Proof.
  intros c.
  assert (0 <= WiredTigerSessionCache._shuttingDown c < 2 ^ 32) as Hw
    by (split; [discriminate | reflexivity]).
  destruct (BlockShutdown_scope_restores c Hw) as (Hback & _).
  split; [reflexivity | exact Hback].
Defined.

Lemma lor_bit31 (w : Z) :
  Z.lor w WiredTigerSessionCache.kShuttingDownMask
  = if Z.testbit w 31 then w else w + 2 ^ 31.
Proof.
  pose proof (Z.add_lor_land w WiredTigerSessionCache.kShuttingDownMask) as H.
  unfold WiredTigerSessionCache.kShuttingDownMask in *.
  rewrite land_bit31 in H. change (Z.shiftl 1 31) with (2 ^ 31) in *.
  destruct (Z.testbit w 31); lia.
Qed.

Lemma isShuttingDown_testbit (c : WiredTigerSessionCache.t) :
  WiredTigerSessionCache.isShuttingDown c
  = Z.testbit (WiredTigerSessionCache._shuttingDown c) 31.
Proof.
  unfold WiredTigerSessionCache.isShuttingDown,
    WiredTigerSessionCache.kShuttingDownMask.
  rewrite land_bit31. destruct (Z.testbit _ 31); reflexivity.
Qed.

Lemma restart_word (c : WiredTigerSessionCache.t) :
  WiredTigerSessionCache._shuttingDown (WiredTigerSessionCache.restart c)
  = WiredTigerSessionCache._shuttingDown c mod 2 ^ 31.
Proof. exact (blockers_spec c). Qed.

(** X3: [restart] clears the shutdown bit and nothing else: the count of
    scopes in flight, the pool and the epoch are as before (it does not
    repopulate the pool); on a cache that is not shutting down it changes
    nothing, and a second [restart] changes nothing. *)
Theorem restart_clears_only_flag (c : WiredTigerSessionCache.t) :
  WiredTigerSessionCache.isShuttingDown (WiredTigerSessionCache.restart c) = false
  /\ WiredTigerSessionCache.blockers (WiredTigerSessionCache.restart c)
     = WiredTigerSessionCache.blockers c
  /\ WiredTigerSessionCache._sessions (WiredTigerSessionCache.restart c)
     = WiredTigerSessionCache._sessions c
  /\ WiredTigerSessionCache._epoch (WiredTigerSessionCache.restart c)
     = WiredTigerSessionCache._epoch c
  /\ WiredTigerSessionCache.restart (WiredTigerSessionCache.restart c)
     = WiredTigerSessionCache.restart c
  /\ (0 <= WiredTigerSessionCache._shuttingDown c < 2 ^ 32 ->
      WiredTigerSessionCache.isShuttingDown c = false ->
      WiredTigerSessionCache.restart c = c).
Proof.
  pose proof (Z.mod_pos_bound (WiredTigerSessionCache._shuttingDown c) (2 ^ 31)
                ltac:(lia)) as Hm.
  split; [| split; [| split; [reflexivity | split; [reflexivity | split]]]].
  - rewrite isShuttingDown_spec; rewrite restart_word; [| lia].
    apply Z.leb_gt. lia.
  - rewrite !blockers_spec, restart_word. apply Z.mod_mod. lia.
  - destruct c as [w ss e p g]. cbn in Hm.
    pose proof (restart_word (WiredTigerSessionCache.mk w ss e p g)) as H1.
    pose proof (restart_word (WiredTigerSessionCache.restart
                                (WiredTigerSessionCache.mk w ss e p g))) as H2.
    rewrite H1 in H2. cbn in H1, H2.
    unfold WiredTigerSessionCache.restart, WiredTigerSessionCache.set_shuttingDown.
    cbn. f_equal. rewrite H2, H1. apply Z.mod_mod. lia.
  - intros Hw Hup. rewrite isShuttingDown_spec in Hup by exact Hw.
    apply Z.leb_gt in Hup.
    pose proof (restart_word c) as H1.
    destruct c as [w ss e p g]. cbn in *.
    unfold WiredTigerSessionCache.restart, WiredTigerSessionCache.set_shuttingDown.
    cbn. f_equal. rewrite H1. apply Z.mod_small. lia.
Qed.

Lemma restart_clears_only_flag_witness :
  let c := WiredTigerSessionCache.mk 5 [] 3 0 true in
  WiredTigerSessionCache.restart c = c
  /\ WiredTigerSessionCache.blockers
       (WiredTigerSessionCache.restart
          (WiredTigerSessionCache.mk (2 ^ 31 + 5) [] 3 0 true)) = 5.
Proof.
  intros c.
  destruct (restart_clears_only_flag c) as (_ & _ & _ & _ & _ & Hsame).
  destruct (restart_clears_only_flag (WiredTigerSessionCache.mk (2 ^ 31 + 5) [] 3 0 true))
    as (_ & Hcount & _).
  split; [apply Hsame; [split; [discriminate | reflexivity] | reflexivity] |].
  rewrite Hcount. reflexivity.
Defined.

(** X4: [shuttingDown] on a cache whose shutdown bit is already set returns at
    once and changes nothing (no second teardown, no further epoch bump). With
    the bit clear and a shutdown-blocking scope in flight it sets the bit and
    then waits: in a run without other threads it does not return. With the
    bit clear and no scope in flight it is [closeAll] on the cache with the bit
    set. *)
Theorem shuttingDown_cases (env : Env) (c : WiredTigerSessionCache.t) :
  (WiredTigerSessionCache.isShuttingDown c = true ->
   Cache.shuttingDown env c = Ok ([], c))
  /\ (0 <= WiredTigerSessionCache._shuttingDown c < 2 ^ 32 ->
      WiredTigerSessionCache.isShuttingDown c = false ->
      WiredTigerSessionCache.blockers c <> 0 ->
      Cache.shuttingDown env c = Spin)
  /\ (0 <= WiredTigerSessionCache._shuttingDown c < 2 ^ 32 ->
      WiredTigerSessionCache.isShuttingDown c = false ->
      WiredTigerSessionCache.blockers c = 0 ->
      Cache.shuttingDown env c
      = Cache.closeAll env
          (WiredTigerSessionCache.set_shuttingDown
             WiredTigerSessionCache.kShuttingDownMask c)).
Proof.
  split; [| split].
  - intros Hd. unfold Cache.shuttingDown.
    pose proof Hd as Hbit. rewrite isShuttingDown_testbit in Hbit.
    unfold WiredTigerSessionCache.isShuttingDown in Hd. rewrite Hd.
    rewrite lor_bit31, Hbit. destruct c; reflexivity.
  - intros Hw Hup Hn. unfold Cache.shuttingDown.
    pose proof Hup as Hbit. rewrite isShuttingDown_testbit in Hbit.
    destruct (word_decompose c Hw) as [Hdec Hb]. rewrite Hup in Hdec.
    unfold WiredTigerSessionCache.isShuttingDown in Hup. rewrite Hup.
    rewrite lor_bit31, Hbit.
    cbn [WiredTigerSessionCache._shuttingDown WiredTigerSessionCache.set_shuttingDown].
    destruct (Z.eqb_spec (WiredTigerSessionCache._shuttingDown c + 2 ^ 31)
                WiredTigerSessionCache.kShuttingDownMask) as [E | _];
      [| reflexivity].
    change WiredTigerSessionCache.kShuttingDownMask with (2 ^ 31) in E. lia.
  - intros Hw Hup Hn. unfold Cache.shuttingDown.
    pose proof Hup as Hbit. rewrite isShuttingDown_testbit in Hbit.
    destruct (word_decompose c Hw) as [Hdec Hb]. rewrite Hup, Hn in Hdec.
    unfold WiredTigerSessionCache.isShuttingDown in Hup. rewrite Hup.
    rewrite lor_bit31, Hbit, Hdec. reflexivity.
Qed.

Lemma shuttingDown_cases_witness :
  Cache.shuttingDown (env_ok 2 0) (WiredTigerSessionCache.mk (2 ^ 31) [] 1 0 true)
  = Ok ([], WiredTigerSessionCache.mk (2 ^ 31) [] 1 0 true)
  /\ Cache.shuttingDown (env_ok 2 0) (WiredTigerSessionCache.mk 1 [] 0 0 true) = Spin.
Proof.
  split.
  - apply (proj1 (shuttingDown_cases (env_ok 2 0)
                    (WiredTigerSessionCache.mk (2 ^ 31) [] 1 0 true))).
    reflexivity.
  - apply (proj1 (proj2 (shuttingDown_cases (env_ok 2 0)
                           (WiredTigerSessionCache.mk 1 [] 0 0 true)))).
    + split; [discriminate | reflexivity].
    + reflexivity.
    + discriminate.
Defined.

(** ** Cursors that bypass the cache *)

Lemma s32_roundtrip (n : Z) :
  - 2 ^ 31 <= n < 2 ^ 31 -> s32 (s32 (n + 1) - 1) = n.
Proof.
  intros H. unfold s32.
  replace ((n + 1 + 2 ^ 31) mod 2 ^ 32 - 2 ^ 31 - 1 + 2 ^ 31)
    with ((n + 1 + 2 ^ 31) mod 2 ^ 32 - 1) by lia.
  rewrite Zminus_mod_idemp_l.
  replace (n + 1 + 2 ^ 31 - 1) with (n + 2 ^ 31) by lia.
  rewrite Z.mod_small by lia. lia.
Qed.

(** X5: a cursor opened with [getNewCursor] and handed to [closeCursor] leaves
    the session exactly as it was (the count of cursors out included, also
    where the [int] count wraps); [closeCursor] makes one engine call, the
    close, and never touches the cursor cache. If the engine refuses the close
    the process is terminated. *)
Theorem getNewCursor_closeCursor_roundtrip (env : Env) (uri : string)
    (config : option string) (s s1 : WiredTigerSession.t) (c : WT_CURSOR)
    (evs : list event) :
  - 2 ^ 31 <= WiredTigerSession._cursorsOut s < 2 ^ 31 ->
  WiredTigerSession._session s <> nullptr ->
  Session.getNewCursor env uri config s = Ok (evs, (c, s1)) ->
  c <> nullptr ->
  WiredTigerSession._cursors s1 = WiredTigerSession._cursors s
  /\ (cursor_close env c = 0 ->
      Session.closeCursor env c s1 = Ok ([EvCursorClose c], s))
  /\ (cursor_close env c <> 0 ->
      Session.closeCursor env c s1
      = Abort (InvariantWTFailure (cursor_close env c))).
Proof.
  intros Hrange Hs Hnew Hc.
  unfold Session.getNewCursor in Hnew.
  apply bind_Ok_inv in Hnew as (? & c' & ? & _ & Hnew & ->).
  injection Hnew as _ -> <-.
  split; [reflexivity |].
  unfold Session.closeCursor.
  cbn [WiredTigerSession._session WiredTigerSession.set_cursorsOut
       WiredTigerSession._cursorsOut].
  destruct (Z.eqb_spec (WiredTigerSession._session s) nullptr) as [? | _];
    [contradiction |].
  destruct (Z.eqb_spec c nullptr) as [? | _]; [contradiction |].
  cbn [negb invariant bind ret emit].
  split.
  - intros Hrc. rewrite Hrc. cbn. rewrite s32_roundtrip by exact Hrange.
    destruct s; reflexivity.
  - intros Hrc. unfold invariantWTOK.
    destruct (Z.eqb_spec (cursor_close env c) 0) as [? | _]; [contradiction |].
    reflexivity.
Qed.

Lemma getNewCursor_closeCursor_roundtrip_witness :
  let s := WiredTigerSession.set_cursorsOut INT32_MAX (freshSession 0 4096) in
  exists s1,
    Session.getNewCursor (env_ok 2 0) "table:t" None s
    = Ok ([EvOpenCursor 4096 "table:t" None], (8192, s1))
    /\ WiredTigerSession._cursorsOut s1 = - 2 ^ 31
    /\ Session.closeCursor (env_ok 2 0) 8192 s1 = Ok ([EvCursorClose 8192], s).
Proof.
  intros s.
  assert (Session.getNewCursor (env_ok 2 0) "table:t" None s
          = Ok ([EvOpenCursor 4096 "table:t" None],
                (8192, WiredTigerSession.set_cursorsOut (- 2 ^ 31) s))) as Hnew
    by reflexivity.
  assert (- 2 ^ 31 <= WiredTigerSession._cursorsOut s < 2 ^ 31) as Hrange
    by (split; [discriminate | reflexivity]).
  destruct (getNewCursor_closeCursor_roundtrip (env_ok 2 0) "table:t" None s _ 8192 _
              Hrange ltac:(discriminate) Hnew ltac:(discriminate))
    as (_ & Hclose & _).
  eexists. split; [exact Hnew |]. split; [reflexivity |].
  apply Hclose. reflexivity.
Defined.

(** ** Closing cached cursors by uri *)

Lemma closeMatching_spec (env : Env) (uri : string) (cs kept : CursorCache)
    (evs : list event) :
  Session.closeMatching env (bool_decide (uri = EmptyString)) uri cs = Ok (evs, kept) ->
  kept = List.filter (fun c => negb (closesCursor env uri c)) cs
  /\ evs = closeEvents (List.filter (closesCursor env uri) cs).
Proof.
  revert evs kept. induction cs as [| i more IH]; intros evs kept H.
  - injection H as <- <-. split; reflexivity.
  - cbn [Session.closeMatching] in H. cbn [List.filter].
    fold (closesCursor env uri i) in H.
    destruct (closesCursor env uri i); cbn [negb].
    + apply bind_Ok_inv in H as (? & [] & ? & He & H & ->). injection He as <-.
      apply bind_Ok_inv in H as (? & [] & ? & Hrc & H & ->).
      apply invariantWTOK_Ok_inv in Hrc as [_ ->].
      destruct (IH _ _ H) as [-> ->]. split; reflexivity.
    + apply bind_Ok_inv in H as (? & rest' & ? & Hrest & H & ->).
      injection H as <- <-. destruct (IH _ _ Hrest) as [-> ->].
      rewrite app_nil_r. split; reflexivity.
Qed.

Lemma closeMatching_returns (env : Env) (uri : string) (cs : CursorCache) :
  (forall c, In c cs -> closesCursor env uri c = true ->
             cursor_close env (_cursor c) = 0) ->
  Session.closeMatching env (bool_decide (uri = EmptyString)) uri cs
  = Ok (closeEvents (List.filter (closesCursor env uri) cs),
        List.filter (fun c => negb (closesCursor env uri c)) cs).
Proof.
  induction cs as [| i more IH]; intros Hclose; [reflexivity |].
  cbn [Session.closeMatching List.filter].
  fold (closesCursor env uri i).
  specialize (IH (fun c Hc => Hclose c (or_intror Hc))).
  destruct (closesCursor env uri i) eqn:Hi; cbn [negb].
  - cbn [emit bind]. rewrite (Hclose i (or_introl eq_refl) Hi).
    cbn [invariantWTOK Z.eqb ret bind]. rewrite IH. reflexivity.
  - rewrite IH. cbn [bind ret]. rewrite app_nil_r. reflexivity.
Qed.

Lemma filter_filter_negb {A} (p : A -> bool) (l : list A) :
  List.filter p (List.filter (fun x => negb (p x)) l) = []
  /\ List.filter (fun x => negb (p x)) (List.filter (fun x => negb (p x)) l)
     = List.filter (fun x => negb (p x)) l.
Proof.
  induction l as [| x l [IH1 IH2]]; [split; reflexivity |].
  cbn [List.filter]. destruct (p x) eqn:Hx; cbn [negb].
  - split; assumption.
  - cbn [List.filter]. rewrite Hx. cbn [negb]. rewrite IH1, IH2. split; reflexivity.
Qed.

Lemma agesAbove_filter (q : WiredTigerCachedCursor -> bool) (lo cursorGen : Z)
    (cs : CursorCache) :
  agesAbove lo cursorGen cs -> agesAbove lo cursorGen (List.filter q cs).
Proof.
  revert lo. induction cs as [| c more IH]; intros lo H; [exact I |].
  destruct H as [Hc Hmore]. cbn [List.filter]. destruct (q c).
  - split; [exact Hc | apply IH; exact Hmore].
  - eapply agesAbove_weaken; [| apply IH; exact Hmore]. lia.
Qed.

(** X6: [closeAllCursors(uri)] closes exactly the cached cursors that are not
    null and whose uri is [uri] (every one of them when [uri] is empty), in
    list order, and keeps the others in their order, so the list stays
    ordered by age; nothing else in the session changes. It returns if the
    session handle is set and the engine accepts those closes. Called again
    with the same uri it closes nothing. *)
Theorem closeAllCursors_closes_matching (env : Env) (uri : string)
    (s : WiredTigerSession.t) :
  (WiredTigerSession._session s <> nullptr ->
   (forall c, In c (WiredTigerSession._cursors s) ->
              closesCursor env uri c = true -> cursor_close env (_cursor c) = 0) ->
   exists evs s', Session.closeAllCursors env uri s = Ok (evs, s'))
  /\ (WiredTigerSession._session s = nullptr ->
      Session.closeAllCursors env uri s = Abort (InvariantFailure "_session"))
  /\ forall evs s',
       Session.closeAllCursors env uri s = Ok (evs, s') ->
       s' = WiredTigerSession.set_cursors
              (List.filter (fun c => negb (closesCursor env uri c))
                 (WiredTigerSession._cursors s)) s
       /\ evs = closeEvents (List.filter (closesCursor env uri)
                               (WiredTigerSession._cursors s))
       /\ Session.closeAllCursors env uri s' = Ok ([], s')
       /\ (forall bound, cacheAged bound s -> cacheAged bound s').
Proof.
  split; [| split].
  - intros Hs Hclose. unfold Session.closeAllCursors.
    destruct (Z.eqb_spec (WiredTigerSession._session s) nullptr) as [? | _];
      [contradiction |].
    cbn [negb invariant bind ret].
    rewrite (closeMatching_returns env uri _ Hclose). eexists _, _. reflexivity.
  - intros Hs. unfold Session.closeAllCursors. rewrite Hs. reflexivity.
  - intros evs s' H.
    assert (WiredTigerSession._session s <> nullptr) as Hs.
    { intros E. unfold Session.closeAllCursors in H. rewrite E in H. discriminate H. }
    unfold Session.closeAllCursors in H.
    apply bind_Ok_inv in H as (? & [] & ? & Hinv & H & ->).
    apply invariant_Ok_inv in Hinv as [_ ->].
    apply bind_Ok_inv in H as (? & kept & ? & Hm & H & ->).
    injection H as <- <-.
    destruct (closeMatching_spec _ _ _ _ _ Hm) as [-> ->].
    rewrite app_nil_r.
    split; [reflexivity |]. split; [reflexivity |]. split.
    + unfold Session.closeAllCursors.
      cbn [WiredTigerSession._session WiredTigerSession.set_cursors
           WiredTigerSession._cursors].
      destruct (Z.eqb_spec (WiredTigerSession._session s) nullptr) as [? | _];
        [contradiction |].
      cbn [negb invariant bind ret].
      rewrite closeMatching_returns.
      * destruct (filter_filter_negb (closesCursor env uri)
                    (WiredTigerSession._cursors s)) as [-> ->].
        reflexivity.
      * intros c Hc Hyes. apply List.filter_In in Hc as [_ Hno].
        rewrite Hyes in Hno. discriminate Hno.
    + intros bound [Hsorted Hall]. split;
        cbn [WiredTigerSession._cursorGen WiredTigerSession._cursors
             WiredTigerSession.set_cursors].
      * apply agesAbove_filter. exact Hsorted.
      * apply List.Forall_forall. intros c Hc.
        apply List.filter_In in Hc as [Hc _].
        exact (proj1 (List.Forall_forall _ _) Hall c Hc).
Qed.

Lemma closeAllCursors_closes_matching_witness :
  let s := WiredTigerSession.mk 0 4096
             [mkCachedCursor 3 2 103 "cfgA"; mkCachedCursor 2 1 102 "cfgA";
              mkCachedCursor 1 0 101 "cfgA"] 3 0 Date_t_min ∅ in
  let s' := WiredTigerSession.set_cursors [mkCachedCursor 2 1 102 "cfgA"] s in
  Session.closeAllCursors env_two_tables "table:a" s
  = Ok ([EvCursorClose 103; EvCursorClose 101], s')
  /\ Session.closeAllCursors env_two_tables "table:a" s' = Ok ([], s').
Proof.
  intros s s'.
  assert (Session.closeAllCursors env_two_tables "table:a" s
          = Ok ([EvCursorClose 103; EvCursorClose 101], s')) as Hrun
    by reflexivity.
  destruct (closeAllCursors_closes_matching env_two_tables "table:a" s)
    as (_ & _ & Hafter).
  destruct (Hafter _ _ Hrun) as (_ & _ & Hagain & _).
  split; [exact Hrun | exact Hagain].
Defined.

(** ** Looking a cursor up *)

Lemma findCursor_None (id : Z) (config : string) (cs : CursorCache) :
  Session.findCursor id config cs = None
  <-> Forall (fun e => ~ (_id e = id /\ _config e = config)) cs.
Proof.
  induction cs as [| i more IH].
  - split; [constructor | reflexivity].
  - cbn [Session.findCursor].
    destruct (Z.eqb_spec (_id i) id) as [Hid | Hid];
      destruct (decide (_config i = config)) as [Hcfg | Hcfg];
      rewrite ?(bool_decide_eq_true_2 _ Hcfg), ?(bool_decide_eq_false_2 _ Hcfg);
      cbn [andb].
    + split; [discriminate |]. intros H. inversion H as [| ? ? Hi _]. tauto.
    + destruct (Session.findCursor id config more) as [[c r] |].
      * split; [discriminate |]. intros H. inversion H as [| ? ? _ Hm].
        apply IH in Hm. discriminate Hm.
      * split; [| reflexivity]. intros _. constructor; [tauto | apply IH; reflexivity].
    + destruct (Session.findCursor id config more) as [[c r] |].
      * split; [discriminate |]. intros H. inversion H as [| ? ? _ Hm].
        apply IH in Hm. discriminate Hm.
      * split; [| reflexivity]. intros _. constructor; [tauto | apply IH; reflexivity].
    + destruct (Session.findCursor id config more) as [[c r] |].
      * split; [discriminate |]. intros H. inversion H as [| ? ? _ Hm].
        apply IH in Hm. discriminate Hm.
      * split; [| reflexivity]. intros _. constructor; [tauto | apply IH; reflexivity].
Qed.

Lemma agesAbove_suffix (lo cursorGen : Z) (front rest : CursorCache) :
  agesAbove lo cursorGen (front ++ rest) ->
  exists lo', lo <= lo' /\ agesAbove lo' cursorGen rest.
Proof.
  revert lo. induction front as [| c more IH]; intros lo H.
  - exists lo. split; [lia | exact H].
  - destruct H as [Hc Hmore]. destruct (IH _ Hmore) as (lo' & Hle & Hrest).
    exists lo'. split; [lia | exact Hrest].
Qed.

(** X7: [getCachedCursor(id, config)] returns [nullptr] and leaves the session
    untouched when no entry has this id and this exact configuration string.
    Otherwise it returns the handle of the first such entry from the front,
    takes that one entry out, keeps the order of the others and counts one
    more cursor out; in a list ordered by age that entry is the most recently
    released of all that match. *)
Theorem getCachedCursor_first_match (id : Z) (config : string)
    (s : WiredTigerSession.t) :
  ((forall e, In e (WiredTigerSession._cursors s) ->
              ~ (_id e = id /\ _config e = config)) ->
   Session.getCachedCursor id config s = (nullptr, s))
  /\ forall e,
       In e (WiredTigerSession._cursors s) -> _id e = id -> _config e = config ->
       exists front hit back,
         WiredTigerSession._cursors s = front ++ hit :: back
         /\ _id hit = id /\ _config hit = config
         /\ Forall (fun x => ~ (_id x = id /\ _config x = config)) front
         /\ Session.getCachedCursor id config s
            = (_cursor hit,
               WiredTigerSession.set_cursorsOut
                 (s32 (WiredTigerSession._cursorsOut s + 1))
                 (WiredTigerSession.set_cursors (front ++ back) s))
         /\ (forall bound, cacheAged bound s ->
               age (WiredTigerSession._cursorGen s) hit
               <= age (WiredTigerSession._cursorGen s) e).
Proof.
  split.
  - intros Hnone. unfold Session.getCachedCursor.
    assert (Session.findCursor id config (WiredTigerSession._cursors s) = None) as ->
      by (apply findCursor_None, List.Forall_forall; exact Hnone).
    reflexivity.
  - intros e He Hid Hcfg.
    destruct (Session.findCursor id config (WiredTigerSession._cursors s))
      as [[c rest] |] eqn:Hfind.
    + destruct (findCursor_handle _ _ _ _ _ Hfind)
        as (front & hit & back & Hcs & -> & Hhid & Hhcfg & <- & Hfront).
      exists front, hit, back.
      split; [exact Hcs |]. split; [exact Hhid |]. split; [exact Hhcfg |].
      split; [exact Hfront |]. split.
      * unfold Session.getCachedCursor. rewrite Hfind. reflexivity.
      * intros bound [Hsorted _]. rewrite Hcs in Hsorted, He.
        apply in_app_or in He as [He | [<- | He]].
        -- exfalso.
           exact (proj1 (List.Forall_forall _ _) Hfront e He (conj Hid Hcfg)).
        -- lia.
        -- destruct (agesAbove_suffix _ _ _ _ Hsorted) as (lo' & _ & [_ Hback]).
           apply agesAbove_lower in Hback.
           pose proof (proj1 (List.Forall_forall _ _) Hback e He) as Holder.
           cbn beta in Holder. lia.
    + exfalso. apply findCursor_None in Hfind.
      exact (proj1 (List.Forall_forall _ _) Hfind e He (conj Hid Hcfg)).
Qed.

Lemma getCachedCursor_first_match_witness :
  let s := WiredTigerSession.mk 0 4096
             [mkCachedCursor 7 2 103 "cfgA"; mkCachedCursor 7 1 102 "cfgB";
              mkCachedCursor 7 0 101 "cfgA"] 3 0 Date_t_min ∅ in
  fst (Session.getCachedCursor 7 "cfgA" s) = 103
  /\ Session.getCachedCursor 8 "cfgA" s = (nullptr, s).
Proof.
  intros s.
  destruct (getCachedCursor_first_match 7 "cfgA" s) as [_ Hhit].
  destruct (getCachedCursor_first_match 8 "cfgA" s) as [Hmiss _].
  split.
  - destruct (Hhit (mkCachedCursor 7 0 101 "cfgA")
                ltac:(right; right; left; reflexivity) eq_refl eq_refl)
      as (front & hit & back & _ & _ & _ & _ & _ & _).
    reflexivity.
  - apply Hmiss. intros e [<- | [<- | [<- | []]]] [Hid _]; discriminate Hid.
Defined.

(** ** Releasing a cursor: limit zero and the sign of the limit *)

(** X8: with the tunable at 0, a release outside shutdown caches nothing: the
    cursor is reset and then closed at once, along with whatever the cache
    still held (oldest first), so a later lookup of it misses. *)
Theorem releaseCursor_size_zero_caches_nothing (env : Env) (id : Z)
    (h : WT_CURSOR) (config : string) (cache cache' : WiredTigerSessionCache.t)
    (s s' : WiredTigerSession.t) (evs : list event) (bound : Z) :
  bound < 2 ^ 64 - 1 ->
  gWiredTigerCursorCacheSize env = 0 ->
  0 <= WiredTigerSessionCache._shuttingDown cache < 2 ^ 32 ->
  WiredTigerSessionCache.blockers cache + 1 < 2 ^ 31 ->
  WiredTigerSessionCache.isShuttingDown cache = false ->
  cacheAged bound s ->
  Session.releaseCursor env id h config (cache, s) = Ok (evs, (cache', s')) ->
  WiredTigerSession._cursors s' = []
  /\ evs = EvCursorReset h
           :: closeEvents (rev (WiredTigerSession._cursors s))
           ++ [EvCursorClose h]
  /\ Session.getCachedCursor id config s' = (nullptr, s')
  /\ WiredTigerSessionCache.isEngineCachingCursors env = true.
Proof.
  intros Hbound Hzero Hw Hn Hup Haged Hrel.
  destruct (releaseCursor_running_inv _ _ _ _ _ _ _ _ _ Hw Hn Hup Hrel)
    as [_ Hbody].
  pose proof (releaseCursorBody_size_zero _ _ _ _ _ _ _ _ Hbound Hzero Haged Hbody)
    as Hempty.
  destruct (releaseCursorBody_spec _ _ _ _ _ _ _ Hbody)
    as (_ & _ & _ & kept & gone & Hsplit & Hevs & _ & _ & _ & Hs').
  assert (kept = []) as -> by (rewrite Hs' in Hempty; exact Hempty).
  cbn [app] in Hsplit. subst gone.
  split; [exact Hempty |]. split.
  - rewrite Hevs. cbn [rev]. unfold closeEvents. rewrite map_app. reflexivity.
  - split.
    + unfold Session.getCachedCursor. rewrite Hempty. reflexivity.
    + unfold WiredTigerSessionCache.isEngineCachingCursors. rewrite Hzero.
      reflexivity.
Qed.

Lemma releaseCursor_size_zero_caches_nothing_witness :
  let s := WiredTigerSession.mk 0 4096 [mkCachedCursor 1 0 101 "cfgA"] 1 1
             Date_t_min ∅ in
  exists s',
    Session.releaseCursor (env_ok 0 0) 2 102 "cfgA"
      (WiredTigerSessionCache.create true, s)
    = Ok ([EvCursorReset 102; EvCursorClose 101; EvCursorClose 102],
          (WiredTigerSessionCache.create true, s'))
    /\ WiredTigerSession._cursors s' = [].
Proof.
  intros s. eexists. split; [reflexivity |].
  refine (proj1 (releaseCursor_size_zero_caches_nothing (env_ok 0 0) 2 102 "cfgA"
                   (WiredTigerSessionCache.create true) _ s _ _ 1
                   _ _ _ _ _ _ eq_refl)).
  - lia.
  - reflexivity.
  - simpl; lia.
  - reflexivity.
  - reflexivity.
  - split; [split; [reflexivity | exact I] | repeat constructor; discriminate].
Defined.

Lemma evictFromBack_env (env1 env2 : Env) (cursorGen cacheSize : Z)
    (backFirst : list WiredTigerCachedCursor) :
  (forall c, cursor_close env1 c = cursor_close env2 c) ->
  Session.evictFromBack env1 cursorGen cacheSize backFirst
  = Session.evictFromBack env2 cursorGen cacheSize backFirst.
Proof.
  intros Hclose. induction backFirst as [| back more IH]; [reflexivity |].
  cbn [Session.evictFromBack]. rewrite IH, Hclose. reflexivity.
Qed.

(** X9: of its environment [releaseCursor] uses only the engine's answers to
    [reset] and [close] and the absolute value of the tunable: it opens
    nothing, does not touch the engine session, and a negative limit bounds
    the session's cursor cache exactly as the positive one does. *)
Theorem releaseCursor_depends_on (env1 env2 : Env) (id : Z) (h : WT_CURSOR)
    (config : string) (st : WiredTigerSessionCache.t * WiredTigerSession.t) :
  (forall c, cursor_reset env1 c = cursor_reset env2 c) ->
  (forall c, cursor_close env1 c = cursor_close env2 c) ->
  Z.abs (gWiredTigerCursorCacheSize env1) = Z.abs (gWiredTigerCursorCacheSize env2) ->
  Session.releaseCursor env1 id h config st = Session.releaseCursor env2 id h config st.
Proof.
  intros Hreset Hclose Habs. destruct st as [cache s].
  unfold Session.releaseCursor, Session.releaseCursorBody, Session.evict.
  rewrite Habs, Hreset.
  destruct (WiredTigerSessionCache.isShuttingDown _); [reflexivity |].
  do 5 f_equal.
  rewrite (evictFromBack_env env1 env2) by exact Hclose. reflexivity.
Qed.

Lemma releaseCursor_depends_on_witness :
  let st := (WiredTigerSessionCache.create true,
             WiredTigerSession.mk 0 4096
               [mkCachedCursor 2 1 102 "cfgA"; mkCachedCursor 1 0 101 "cfgA"]
               2 1 Date_t_min ∅) in
  Session.releaseCursor (env_ok (-2) 5) 3 103 "cfgA" st
  = Session.releaseCursor (withCacheSize 2 env_two_tables) 3 103 "cfgA" st.
Proof.
  intros st.
  apply (releaseCursor_depends_on (env_ok (-2) 5) (withCacheSize 2 env_two_tables));
    reflexivity.
Defined.

(** ** Which calls can throw or wait *)

Lemma returnsOrAborts_bind {A B} (m : M A) (k : A -> M B) :
  returnsOrAborts m = true ->
  (forall a, returnsOrAborts (k a) = true) ->
  returnsOrAborts (bind m k) = true.
Proof.
  intros Hm Hk. destruct m as [[evs a] | e | t |]; try discriminate Hm;
    [| reflexivity].
  cbn [bind]. specialize (Hk a).
  destruct (k a) as [[evs' b] | e | t |]; try discriminate Hk; reflexivity.
Qed.

Lemma returnsOrAborts_invariant (cond : bool) (what : string) :
  returnsOrAborts (invariant cond what) = true.
Proof. destruct cond; reflexivity. Qed.

Lemma returnsOrAborts_invariantWTOK (rc : Z) :
  returnsOrAborts (invariantWTOK rc) = true.
Proof. unfold invariantWTOK. destruct (rc =? 0); reflexivity. Qed.

Create HintDb ends.

#[local] Hint Resolve returnsOrAborts_invariant returnsOrAborts_invariantWTOK : ends.

Ltac ends :=
  repeat first
    [ reflexivity
    | solve [auto with ends]
    | apply returnsOrAborts_bind; [| intros]
    | match goal with
      | |- returnsOrAborts (if ?b then _ else _) = true => destruct b
      | |- returnsOrAborts (match ?x with _ => _ end) = true => destruct x
      end ].

Lemma returnsOrAborts_destroy (env : Env) (s : WiredTigerSession.t) :
  returnsOrAborts (Session.destroy env s) = true.
Proof. unfold Session.destroy. ends. Qed.

#[local] Hint Resolve returnsOrAborts_destroy : ends.

Lemma returnsOrAborts_destroyAll (env : Env) (ss : list WiredTigerSession.t) :
  returnsOrAborts (Cache.destroyAll env ss) = true.
Proof. induction ss as [| s more IH]; cbn [Cache.destroyAll]; ends. Qed.

Lemma returnsOrAborts_evictFromBack (env : Env) (cursorGen cacheSize : Z)
    (backFirst : list WiredTigerCachedCursor) :
  returnsOrAborts (Session.evictFromBack env cursorGen cacheSize backFirst) = true.
Proof.
  induction backFirst as [| back more IH]; cbn [Session.evictFromBack]; ends.
Qed.

#[local] Hint Resolve returnsOrAborts_destroyAll returnsOrAborts_evictFromBack : ends.

Lemma returnsOrAborts_releaseCursor (env : Env) (id : Z) (h : WT_CURSOR)
    (config : string) (st : WiredTigerSessionCache.t * WiredTigerSession.t) :
  returnsOrAborts (Session.releaseCursor env id h config st) = true.
Proof.
  destruct st as [cache s].
  unfold Session.releaseCursor, Session.releaseCursorBody, Session.evict. ends.
Qed.

Lemma returnsOrAborts_closeMatching (env : Env) (all : bool) (uri : string)
    (cs : CursorCache) :
  returnsOrAborts (Session.closeMatching env all uri cs) = true.
Proof.
  induction cs as [| i rest IH]; cbn [Session.closeMatching]; ends.
Qed.

#[local] Hint Resolve returnsOrAborts_releaseCursor returnsOrAborts_closeMatching : ends.

Lemma returnsOrAborts_closeAllCursors (env : Env) (uri : string)
    (s : WiredTigerSession.t) :
  returnsOrAborts (Session.closeAllCursors env uri s) = true.
Proof. unfold Session.closeAllCursors. ends. Qed.

Lemma returnsOrAborts_applyUndo (env : Env) (ss : WT_SESSION) (undo : list string) :
  returnsOrAborts (Session.applyUndo env ss undo) = true.
Proof. induction undo as [| u more IH]; cbn [Session.applyUndo]; ends. Qed.

#[local] Hint Resolve returnsOrAborts_closeAllCursors returnsOrAborts_applyUndo : ends.

Lemma returnsOrAborts_resetSessionConfiguration (env : Env)
    (s : WiredTigerSession.t) :
  returnsOrAborts (Session.resetSessionConfiguration env s) = true.
Proof. unfold Session.resetSessionConfiguration. ends. Qed.

Lemma returnsOrAborts_closeAllCursorsIn (env : Env) (uri : string)
    (ss : list WiredTigerSession.t) :
  returnsOrAborts (Cache.closeAllCursorsIn env uri ss) = true.
Proof. induction ss as [| i more IH]; cbn [Cache.closeAllCursorsIn]; ends. Qed.

Lemma returnsOrAborts_sweepIdle (cutoffTime : Date_t)
    (ss : list WiredTigerSession.t) :
  returnsOrAborts (Cache.sweepIdle cutoffTime ss) = true.
Proof. induction ss as [| s more IH]; cbn [Cache.sweepIdle]; ends. Qed.

#[local] Hint Resolve returnsOrAborts_resetSessionConfiguration
  returnsOrAborts_closeAllCursorsIn returnsOrAborts_sweepIdle : ends.

Lemma returnsOrAborts_releaseSession (env : Env)
    (racing : WiredTigerSessionCache.t -> WiredTigerSessionCache.t)
    (s : WiredTigerSession.t) (c : WiredTigerSessionCache.t) :
  returnsOrAborts (Cache.releaseSession_racing env racing s c) = true.
Proof. unfold Cache.releaseSession_racing. ends. Qed.

Lemma returnsOrAborts_getSession (env : Env) (c : WiredTigerSessionCache.t) :
  returnsOrAborts (Cache.getSession env c) = true.
Proof. unfold Cache.getSession, Cache.newSession. ends. Qed.

#[local] Hint Resolve returnsOrAborts_releaseSession returnsOrAborts_getSession : ends.



(** ** Giving a session back and taking one *)

(** X11: outside shutdown, a session of the current epoch with no cursor out,
    released while the tunable is not negative, goes to the back of the pool
    without being destroyed, and the next [getSession] hands out that very
    session without calling the engine: with its cursor cache as it was, its
    configuration changes undone and its idle time cleared. The cache is then
    as before the release. *)
Theorem releaseSession_getSession_roundtrip (env env' : Env)
    (s : WiredTigerSession.t) (c : WiredTigerSessionCache.t) :
  poolOK c ->
  WiredTigerSessionCache.isShuttingDown c = false ->
  WiredTigerSession._cursorsOut s = 0 ->
  WiredTigerSession._epoch s = WiredTigerSessionCache._epoch c ->
  transaction_pinned_range env (WiredTigerSession._session s) = (0, 0) ->
  (forall config, session_reconfigure env (WiredTigerSession._session s) config = 0) ->
  session_reset env (WiredTigerSession._session s) = 0 ->
  0 <= gWiredTigerCursorCacheSize env ->
  exists evs c',
    Cache.releaseSession env s c = Ok (evs, c')
    /\ deleted evs = []
    /\ WiredTigerSessionCache.getIdleSessionsCount c'
       = WiredTigerSessionCache.getIdleSessionsCount c + 1
    /\ Cache.getSession env' c'
       = Ok ([], (c, WiredTigerSession.setIdleExpireTime Date_t_min
                       (WiredTigerSession.set_undoConfigStrings ∅ s))).
Proof.
  intros Hok Hup Hout Hepoch Hpin Hcfg Hreset Hsize.
  destruct (poolOK_word c Hok) as [Hw Hn].
  destruct (BlockShutdown_enter_spec c Hw Hn) as (_ & Hflag & _).
  rewrite Hup in Hflag.
  assert (WiredTigerSessionCache._shuttingDown c = 0) as Hword.
  { destruct Hok as ([Hz | Hm] & _); [exact Hz |].
    unfold WiredTigerSessionCache.isShuttingDown in Hup. rewrite Hm in Hup.
    discriminate Hup. }
  unfold Cache.releaseSession, Cache.releaseSession_racing.
  unfold WiredTigerSession.cursorsOut, WiredTigerSession.getSession.
  rewrite Hout, Hflag, Hpin.
  destruct (Z.ltb_spec (gWiredTigerCursorCacheSize env) 0) as [? | _]; [lia |].
  cbn [bind ret emit invariant invariantWTOK Z.eqb orb negb app].
  unfold Session.resetSessionConfiguration, WiredTigerSession.getSession.
  rewrite (applyUndo_Ok env _ _ Hcfg).
  cbn [bind ret emit invariant invariantWTOK Z.eqb orb negb app].
  rewrite Hreset.
  cbn [WiredTigerSession._getEpoch WiredTigerSession._epoch
       WiredTigerSession.setIdleExpireTime WiredTigerSession.set_undoConfigStrings
       WiredTigerSessionCache._epoch WiredTigerSessionCache.BlockShutdown_enter
       WiredTigerSessionCache.set_shuttingDown].
  rewrite Hepoch, Z.eqb_refl.
  cbn [bind ret emit invariant invariantWTOK Z.eqb orb negb app
       WiredTigerSessionCache._engine WiredTigerSessionCache.set_sessions
       WiredTigerSessionCache.BlockShutdown_enter
       WiredTigerSessionCache.set_shuttingDown
       WiredTigerSessionCache._sessions].
  destruct (WiredTigerSessionCache._engine c) eqn:Hengine;
    cbn [bind ret emit app negb]; (eexists _, _; split; [reflexivity |]).
  all: rewrite (BlockShutdown_scope_sessions c _ Hw).
  all: (split; [cbn [deleted]; rewrite !deleted_app, deleted_reconfigure;
                reflexivity |]).
  all: (split; [unfold WiredTigerSessionCache.getIdleSessionsCount;
                cbn [WiredTigerSessionCache._sessions
                     WiredTigerSessionCache.set_sessions];
                rewrite List.length_app; cbn [length]; lia |]).
  all: unfold Cache.getSession;
    cbn [WiredTigerSessionCache._shuttingDown WiredTigerSessionCache.set_sessions
         WiredTigerSessionCache._sessions];
    rewrite Hword, rev_unit; cbn [Z.land Z.eqb invariant bind ret app];
    rewrite rev_involutive; destruct c; reflexivity.
Qed.

Lemma releaseSession_getSession_roundtrip_witness :
  let s := WiredTigerSession.mk 0 4096 [mkCachedCursor 1 0 101 "cfgA"] 1 0
             Date_t_min {["cache_cursors=true"]} in
  let c := WiredTigerSessionCache.create true in
  exists evs c',
    Cache.releaseSession (env_ok 2 7) s c = Ok (evs, c')
    /\ Cache.getSession (env_open_rc 5) c'
       = Ok ([], (c, WiredTigerSession.set_undoConfigStrings ∅ s)).
Proof.
  intros s c.
  destruct (releaseSession_getSession_roundtrip (env_ok 2 7) (env_open_rc 5) s c)
    as (evs & c' & Hrel & _ & _ & Hget).
  - apply poolOK_create.
  - reflexivity.
  - reflexivity.
  - reflexivity.
  - reflexivity.
  - reflexivity.
  - reflexivity.
  - discriminate.
  - exists evs, c'. split; [exact Hrel | exact Hget].
Defined.

(** ** Sessions in the pool are idle *)

Lemma closeAllCursors_frame (env : Env) (uri : string)
    (s s' : WiredTigerSession.t) (evs : list event) :
  Session.closeAllCursors env uri s = Ok (evs, s') ->
  exists kept, s' = WiredTigerSession.set_cursors kept s.
Proof.
  unfold Session.closeAllCursors. intros H.
  apply bind_Ok_inv in H as (? & [] & ? & _ & H & ->).
  apply bind_Ok_inv in H as (? & kept & ? & _ & H & ->).
  injection H as _ <-. exists kept. reflexivity.
Qed.

Lemma closeAllCursorsIn_idle (env : Env) (uri : string)
    (ss ss' : list WiredTigerSession.t) (evs : list event) :
  Cache.closeAllCursorsIn env uri ss = Ok (evs, ss') ->
  Forall idleSession ss -> Forall idleSession ss'.
Proof.
  revert evs ss'. induction ss as [| i more IH]; intros evs ss' H Hidle.
  - injection H as _ <-. constructor.
  - cbn [Cache.closeAllCursorsIn] in H.
    apply bind_Ok_inv in H as (? & i' & ? & Hi & H & ->).
    apply bind_Ok_inv in H as (? & more' & ? & Hmore & H & ->).
    injection H as _ <-. inversion Hidle as [| ? ? Hhead Htail]; subst.
    constructor; [| exact (IH _ _ Hmore Htail)].
    destruct (closeAllCursors_frame _ _ _ _ _ Hi) as [kept ->]. exact Hhead.
Qed.

Lemma releaseSession_cursorsOut (env : Env)
    (racing : WiredTigerSessionCache.t -> WiredTigerSessionCache.t)
    (s : WiredTigerSession.t) (c c' : WiredTigerSessionCache.t)
    (evs : list event) :
  WiredTigerSessionCache.isShuttingDown c = false ->
  Cache.releaseSession_racing env racing s c = Ok (evs, c') ->
  WiredTigerSession._cursorsOut s = 0.
Proof.
  intros Hup H. unfold Cache.releaseSession_racing in H.
  rewrite Hup, orb_false_r in H. unfold WiredTigerSession.cursorsOut in H.
  destruct (Z.eqb_spec (WiredTigerSession._cursorsOut s) 0) as [Hz | _];
    [exact Hz | discriminate H].
Qed.

Lemma releaseSession_sessions (env : Env) (s : WiredTigerSession.t)
    (c c' : WiredTigerSessionCache.t) (evs : list event) :
  poolOK c ->
  Cache.releaseSession env s c = Ok (evs, c') ->
  WiredTigerSessionCache._sessions c' = WiredTigerSessionCache._sessions c
  \/ exists s1,
       WiredTigerSessionCache._sessions c'
       = WiredTigerSessionCache._sessions c
         ++ [WiredTigerSession.setIdleExpireTime (now env)
               (WiredTigerSession.set_undoConfigStrings ∅ s1)]
       /\ WiredTigerSession._cursorsOut s1 = 0.
Proof.
  intros Hok Hrel. destruct (poolOK_word c Hok) as [Hw Hn].
  destruct (WiredTigerSessionCache.isShuttingDown c) eqn:Hdown.
  - left. rewrite (releaseSession_during_shutdown env s c Hw Hn Hdown) in Hrel.
    injection Hrel as _ <-. reflexivity.
  - pose proof (releaseSession_cursorsOut _ _ _ _ _ _ Hdown Hrel) as Hout.
    destruct (BlockShutdown_enter_spec c Hw Hn) as (_ & Hflag & _).
    rewrite Hdown in Hflag.
    destruct (releaseSession_racing_inv env (fun c => c) s c c' evs Hflag Hrel)
      as (evsC & s1 & evsU & Hclose & _ & Hcases).
    assert (WiredTigerSession._cursorsOut s1 = 0) as Hout1.
    { destruct (gWiredTigerCursorCacheSize env <? 0).
      - destruct (closeAllCursors_frame _ _ _ _ _ Hclose) as [kept ->]. exact Hout.
      - injection Hclose as _ <-. exact Hout. }
    cbv zeta in Hcases.
    destruct Hcases as [(_ & _ & -> & _) | (cX & evsD & _ & HcX & -> & _)].
    + right. exists s1. split; [reflexivity | exact Hout1].
    + left. destruct HcX as [(_ & _ & ->) | (_ & ->)]; reflexivity.
Qed.

Lemma step_idle (env : Env) (op : Op) (c c' : WiredTigerSessionCache.t)
    (out : list WiredTigerSession.t) (evs : list event) :
  poolOK c ->
  now env <> Date_t_min ->
  Forall idleSession (WiredTigerSessionCache._sessions c) ->
  step env op c = Ok (evs, (c', out)) ->
  Forall idleSession (WiredTigerSessionCache._sessions c')
  /\ Forall leasedSession out.
Proof.
  intros Hok Hnow Hidle H. destruct op; cbn [step] in H.
  - apply bind_Ok_inv in H as (? & [c1 s] & ? & Hget & H & ->).
    injection H as _ <- <-.
    destruct (getSession_inv _ _ _ _ _ Hget)
      as (_ & [(below & cached & Hss & -> & -> & _) | (_ & -> & -> & _)]).
    + rewrite Hss in Hidle. apply Forall_app in Hidle as [Hbelow Hcached].
      inversion Hcached as [| ? ? (Hout & Hundo & _) _]; subst.
      split; [exact Hbelow |]. constructor; [| constructor].
      repeat split; assumption.
    + split; [exact Hidle |]. constructor; [| constructor]. repeat split.
  - apply bind_Ok_inv in H as (? & c1 & ? & Hrel & H & ->).
    injection H as _ <- <-. split; [| constructor].
    destruct (releaseSession_sessions _ _ _ _ _ Hok Hrel)
      as [-> | (s1 & -> & Hout)]; [exact Hidle |].
    apply Forall_app. split; [exact Hidle |]. constructor; [| constructor].
    repeat split; [exact Hout | exact Hnow].
  - apply bind_Ok_inv in H as (? & c1 & ? & Hclose & H & ->).
    injection H as _ <- <-. destruct (closeAll_inv _ _ _ _ Hclose) as [-> _].
    split; constructor.
  - apply bind_Ok_inv in H as (? & c1 & ? & Hclose & H & ->).
    injection H as _ <- <-.
    destruct (closeExpiredIdleSessions_inv _ _ _ _ _ Hclose) as (kept & -> & Hkept).
    split; [| constructor]. apply List.Forall_forall. intros s Hs.
    exact (proj1 (List.Forall_forall _ _) Hidle s (Hkept s Hs)).
  - apply bind_Ok_inv in H as (? & c1 & ? & Hclose & H & ->).
    injection H as _ <- <-. split; [| constructor].
    unfold Cache.closeAllCursors in Hclose.
    apply bind_Ok_inv in Hclose as (? & ss & ? & Hin & Hclose & ->).
    injection Hclose as _ <-.
    exact (closeAllCursorsIn_idle _ _ _ _ _ Hin Hidle).
  - apply bind_Ok_inv in H as (? & c1 & ? & Hdown & H & ->).
    injection H as _ <- <-. split; [| constructor].
    destruct (shuttingDown_poolOK _ _ _ _ Hok Hdown) as [[_ ->] | (_ & -> & _)];
      [exact Hidle | constructor].
  - injection H as _ <- <-. split; [exact Hidle | constructor].
  - injection H as _ <- <-. split; [exact Hidle | constructor].
  - apply bind_Ok_inv in H as (? & [c1 s1] & ? & Hrel & H & ->).
    injection H as _ <- <-. split; [| constructor].
    rewrite (releaseCursor_cache _ _ _ _ _ _ _ _ _ (proj1 (poolOK_word c Hok)) Hrel).
    exact Hidle.
Qed.

(** X12: in every cache reached by a sequence of calls, whatever the engine
    answers and whatever sessions are given back, as long as the clock never
    reads [Date_t::min()]: every pooled session has no cursor out, no pending
    configuration change and a real idle time, so the sweep of
    [closeExpiredIdleSessions] never trips over its assertion; and every
    session [getSession] handed out had no cursor out, no pending
    configuration change and the idle time cleared. *)
Theorem pooled_sessions_idle (calls : list (Env * Op))
    (c c' : WiredTigerSessionCache.t) (outs : list WiredTigerSession.t)
    (evs : list event) :
  poolOK c ->
  WiredTigerSessionCache._epoch c + Z.of_nat (length calls) < 2 ^ 64 ->
  Forall idleSession (WiredTigerSessionCache._sessions c) ->
  Forall (fun call => now (fst call) <> Date_t_min) calls ->
  run calls c = Ok (evs, (c', outs)) ->
  Forall idleSession (WiredTigerSessionCache._sessions c')
  /\ Forall leasedSession outs
  /\ forall cutoffTime,
       Cache.sweepIdle cutoffTime (WiredTigerSessionCache._sessions c')
       = Ok ([], (List.filter (fun s => negb (expiredBefore cutoffTime s))
                    (WiredTigerSessionCache._sessions c'),
                  List.filter (expiredBefore cutoffTime)
                    (WiredTigerSessionCache._sessions c'))).
Proof.
  intros Hok Hroom Hidle Hclock Hrun.
  assert (Forall idleSession (WiredTigerSessionCache._sessions c')
          /\ Forall leasedSession outs) as [Hidle' Hleased].
  { revert c evs outs Hok Hroom Hidle Hrun.
    induction calls as [| [env op] more IH]; intros c evs outs Hok Hroom Hidle H.
    - injection H as _ <- <-. split; [exact Hidle | constructor].
    - cbn [run] in H. cbn [length] in Hroom.
      apply bind_Ok_inv in H as (? & [c1 out1] & ? & Hstep & H & ->).
      apply bind_Ok_inv in H as (? & [c2 outs2] & ? & Hmore & H & ->).
      injection H as _ <- <-.
      inversion Hclock as [| ? ? Hnow Hclock']; subst. cbn [fst] in Hnow.
      destruct (step_advances env op c c1 out1 _ Hok ltac:(lia) Hstep)
        as (Hok1 & He1 & _).
      destruct (step_idle _ _ _ _ _ _ Hok Hnow Hidle Hstep) as [Hidle1 Hout1].
      destruct (IH Hclock' c1 _ _ Hok1 ltac:(lia) Hidle1 Hmore) as [Hidle2 Houts2].
      split; [exact Hidle2 |]. apply Forall_app. split; assumption. }
  split; [exact Hidle' |]. split; [exact Hleased |].
  intros cutoffTime. apply sweepIdle_Ok.
  eapply List.Forall_impl; [| exact Hidle'].
  intros s (_ & _ & Hs). exact Hs.
Qed.

Lemma pooled_sessions_idle_witness :
  let calls := [(env_ok 2 7, OpGetSession);
                (env_ok 2 8, OpReleaseSession (freshSession 0 4096));
                (env_ok 2 9, OpReleaseSession (freshSession 0 4097));
                (env_ok 2 9, OpGetSession)] in
  exists evs c' outs,
    run calls (WiredTigerSessionCache.create true) = Ok (evs, (c', outs))
    /\ WiredTigerSessionCache.getIdleSessionsCount c' = 1
    /\ Forall idleSession (WiredTigerSessionCache._sessions c')
    /\ Forall leasedSession outs.
Proof.
  intros calls.
  assert (exists r, run calls (WiredTigerSessionCache.create true) = Ok r
                    /\ WiredTigerSessionCache.getIdleSessionsCount (fst (snd r)) = 1)
    as ([evs [c' outs]] & Hrun & Hcount).
  { eexists. split; reflexivity. }
  exists evs, c', outs. split; [exact Hrun |]. split; [exact Hcount |].
  destruct (pooled_sessions_idle calls (WiredTigerSessionCache.create true)
              c' outs evs) as (Hidle & Hleased & _).
  - apply poolOK_create.
  - reflexivity.
  - constructor.
  - repeat constructor; discriminate.
  - exact Hrun.
  - split; assumption.
Defined.

(** ** Any sequence of calls on a session *)

Lemma Forall_filter_keeps {A} (P : A -> Prop) (q : A -> bool) (l : list A) :
  Forall P l -> Forall P (List.filter q l).
Proof.
  intros H. apply List.Forall_forall. intros x Hx.
  apply List.filter_In in Hx as [Hx _].
  exact (proj1 (List.Forall_forall _ _) H x Hx).
Qed.

Lemma filter_no_null (cs : CursorCache) :
  Forall (fun c => _cursor c <> nullptr) cs ->
  List.filter (fun c => _cursor c =? nullptr) cs = []
  /\ List.filter (fun c => negb (_cursor c =? nullptr)) cs = cs.
Proof.
  induction 1 as [| c cs Hc _ [IHnone IHall]]; [split; reflexivity |].
  cbn [List.filter]. destruct (Z.eqb_spec (_cursor c) nullptr) as [E | _];
    [contradiction |].
  cbn [negb]. rewrite IHnone, IHall. split; reflexivity.
Qed.

Lemma sessionStep_inv (L : Z) (env : Env) (op : SessionOp)
    (cache cache' : WiredTigerSessionCache.t) (s s' : WiredTigerSession.t)
    (evs : list event) :
  gWiredTigerCursorCacheSize env = L ->
  1 <= L <= INT32_MAX ->
  cacheAged L s ->
  Forall (fun c => _cursor c <> nullptr) (WiredTigerSession._cursors s) ->
  sessionStep env op (cache, s) = Ok (evs, (cache', s')) ->
  cacheAged L s'
  /\ Forall (fun c => _cursor c <> nullptr) (WiredTigerSession._cursors s')
  /\ WiredTigerSession._session s' = WiredTigerSession._session s
  /\ WiredTigerSession._epoch s' = WiredTigerSession._epoch s
  /\ WiredTigerSession._idleExpireTime s' = WiredTigerSession._idleExpireTime s.
Proof.
  intros HL Hrange Haged Hnn H. destruct op; cbn [sessionStep] in H.
  - injection H as _ _ <-.
    destruct (Session.getCachedCursor id config s) as [c s1] eqn:Hget.
    cbn [snd]. split; [exact (getCachedCursor_aged _ _ _ _ _ _ Haged Hget) |].
    unfold Session.getCachedCursor in Hget.
    destruct (Session.findCursor id config (WiredTigerSession._cursors s))
      as [[c0 rest] |] eqn:Hfind.
    + destruct (findCursor_handle _ _ _ _ _ Hfind)
        as (front & hit & back & Hcs & -> & _ & _ & _ & _).
      injection Hget as _ <-. cbn. repeat split.
      rewrite Hcs in Hnn. apply Forall_app in Hnn as [Hf Hb].
      apply Forall_app. split; [exact Hf |].
      inversion Hb; assumption.
    + injection Hget as _ <-. repeat split. exact Hnn.
  - apply bind_Ok_inv in H as (? & [c s1] & ? & Hnew & H & ->).
    injection H as _ _ <-. unfold Session.getNewCursor in Hnew.
    apply bind_Ok_inv in Hnew as (? & c1 & ? & _ & Hnew & ->).
    injection Hnew as _ _ <-. cbn [snd]. repeat split; try exact Hnn; apply Haged.
  - destruct (releaseCursor_cases _ _ _ _ _ _ _ _ _ H) as [[_ ->] | Hbody].
    + repeat split; try exact Hnn; apply Haged.
    + assert (L < 2 ^ 64 - 1) as Hbound by (unfold INT32_MAX in Hrange; lia).
      rewrite <- HL in Hrange.
      pose proof (releaseCursorBody_aged _ _ _ _ _ _ _ _ Hbound Hrange Haged Hbody)
        as Haged'.
      rewrite HL in Haged'. split; [exact Haged' |].
      destruct (releaseCursorBody_spec _ _ _ _ _ _ _ Hbody)
        as (_ & Hh & _ & kept & gone & Hsplit & _ & _ & _ & _ & ->).
      cbn. repeat split.
      assert (Forall (fun c => _cursor c <> nullptr) (kept ++ gone)) as Hall
        by (rewrite <- Hsplit; constructor; [exact Hh | exact Hnn]).
      apply Forall_app in Hall as [Hkept _]. exact Hkept.
  - apply bind_Ok_inv in H as (? & s1 & ? & Hclose & H & ->).
    injection H as _ _ <-. unfold Session.closeCursor in Hclose.
    apply bind_Ok_inv in Hclose as (? & [] & ? & _ & Hclose & ->).
    apply bind_Ok_inv in Hclose as (? & [] & ? & _ & Hclose & ->).
    apply bind_Ok_inv in Hclose as (? & [] & ? & _ & Hclose & ->).
    apply bind_Ok_inv in Hclose as (? & [] & ? & _ & Hclose & ->).
    injection Hclose as _ <-. repeat split; try exact Hnn; apply Haged.
  - apply bind_Ok_inv in H as (? & s1 & ? & Hclose & H & ->).
    injection H as _ _ <-. unfold Session.closeAllCursors in Hclose.
    apply bind_Ok_inv in Hclose as (? & [] & ? & _ & Hclose & ->).
    apply bind_Ok_inv in Hclose as (? & kept & ? & Hkept & Hclose & ->).
    injection Hclose as _ <-.
    destruct (closeMatching_spec _ _ _ _ _ Hkept) as [-> _].
    destruct Haged as [Hsorted Hold]. cbn. repeat split.
    + apply agesAbove_filter. exact Hsorted.
    + apply Forall_filter_keeps. exact Hold.
    + apply Forall_filter_keeps. exact Hnn.
  - apply bind_Ok_inv in H as (? & s1 & ? & Hre & H & ->).
    injection H as _ _ <-. unfold Session.reconfigure in Hre.
    apply bind_Ok_inv in Hre as (? & [] & ? & _ & Hre & ->).
    apply bind_Ok_inv in Hre as (? & [] & ? & _ & Hre & ->).
    injection Hre as _ <-.
    destruct (bool_decide (newConfig = undoConfig));
      (repeat split; try exact Hnn; apply Haged).
  - apply bind_Ok_inv in H as (? & s1 & ? & Hre & H & ->).
    injection H as _ _ <-.
    rewrite (resetSessionConfiguration_inv _ _ _ _ Hre).
    repeat split; try exact Hnn; apply Haged.
Qed.

(** X13: whatever calls are made on a session while the tunable stays at
    [L >= 1] (lookups, new cursors, releases, closes, reconfigurations, in any
    order, with any engine answers), its cursor cache stays ordered by age,
    never holds more than [L] cursors and never a null handle, and the calls
    never change its engine session, its epoch or its idle time. An unfiltered
    [closeAllCursors] then closes one cursor per cache entry and leaves the
    cache empty. *)
Theorem sessionRun_cache_bounded (L : Z) (calls : list (Env * SessionOp))
    (cache cache' : WiredTigerSessionCache.t) (s s' : WiredTigerSession.t)
    (evs : list event) :
  1 <= L <= INT32_MAX ->
  Forall (fun call => gWiredTigerCursorCacheSize (fst call) = L) calls ->
  cacheAged L s ->
  Forall (fun c => _cursor c <> nullptr) (WiredTigerSession._cursors s) ->
  sessionRun calls (cache, s) = Ok (evs, (cache', s')) ->
  cacheAged L s'
  /\ Z.of_nat (length (WiredTigerSession._cursors s')) <= L
  /\ Forall (fun c => _cursor c <> nullptr) (WiredTigerSession._cursors s')
  /\ WiredTigerSession._session s' = WiredTigerSession._session s
  /\ WiredTigerSession._epoch s' = WiredTigerSession._epoch s
  /\ WiredTigerSession._idleExpireTime s' = WiredTigerSession._idleExpireTime s
  /\ forall env evs2 s2,
       Session.closeAllCursors env EmptyString s' = Ok (evs2, s2) ->
       WiredTigerSession._cursors s2 = []
       /\ evs2 = closeEvents (WiredTigerSession._cursors s').
Proof.
  intros Hrange Hsize Haged Hnn Hrun.
  assert (cacheAged L s'
          /\ Forall (fun c => _cursor c <> nullptr) (WiredTigerSession._cursors s')
          /\ WiredTigerSession._session s' = WiredTigerSession._session s
          /\ WiredTigerSession._epoch s' = WiredTigerSession._epoch s
          /\ WiredTigerSession._idleExpireTime s'
             = WiredTigerSession._idleExpireTime s)
    as (Haged' & Hnn' & Hsession & Hepoch & Hidle).
  { revert cache s evs Haged Hnn Hrun.
    induction calls as [| [env op] more IH]; intros cache s evs Haged Hnn H.
    - injection H as _ _ <-. split; [exact Haged | split; [exact Hnn | repeat split]].
    - cbn [sessionRun] in H.
      apply bind_Ok_inv in H as (? & [c1 s1] & ? & Hstep & H & ->).
      inversion Hsize as [| ? ? HL Hsize']; subst. cbn [fst] in *.
      destruct (sessionStep_inv _ _ _ _ _ _ _ _ eq_refl Hrange Haged Hnn Hstep)
        as (Haged1 & Hnn1 & Hs1 & He1 & Hi1).
      destruct (IH Hsize' c1 s1 _ Haged1 Hnn1 H) as (Ha & Hn & Hs & He & Hi).
      split; [exact Ha | split; [exact Hn | repeat split; congruence]]. }
  split; [exact Haged' |].
  split; [apply cacheAged_length; [lia | exact Haged'] |].
  split; [exact Hnn' |]. split; [exact Hsession |]. split; [exact Hepoch |].
  split; [exact Hidle |].
  intros env evs2 s2 Hclose.
  destruct (closeAllCursors_all _ _ _ _ Hclose) as [-> ->].
  destruct (filter_no_null _ Hnn') as [Hnone Hall].
  cbn [WiredTigerSession._cursors WiredTigerSession.set_cursors].
  rewrite Hnone, Hall. split; reflexivity.
Qed.

Lemma sessionRun_cache_bounded_witness :
  let calls := [(env_ok 2 0, SGetNewCursor "table:t" None);
                (env_ok 2 0, SReleaseCursor 1 101 "cfgA");
                (env_ok 2 0, SReleaseCursor 2 102 "cfgA");
                (env_ok 2 0, SCloseAllCursors "table:x");
                (env_ok 2 0, SReleaseCursor 3 103 "cfgB");
                (env_ok 2 0, SGetCachedCursor 2 "cfgA")] in
  let cache := WiredTigerSessionCache.create true in
  let s := WiredTigerSession.set_cursorsOut 2 (freshSession 0 4096) in
  let s' := WiredTigerSession.mk 0 4096 [mkCachedCursor 3 2 103 "cfgB"] 3 1
              Date_t_min ∅ in
  sessionRun calls (cache, s)
  = Ok ([EvOpenCursor 4096 "table:t" None; EvCursorReset 101; EvCursorReset 102;
         EvCursorReset 103; EvCursorClose 101], (cache, s'))
  /\ cacheAged 2 s'
  /\ Z.of_nat (length (WiredTigerSession._cursors s')) <= 2.
Proof.
  intros calls cache s s'.
  assert (sessionRun calls (cache, s)
          = Ok ([EvOpenCursor 4096 "table:t" None; EvCursorReset 101;
                 EvCursorReset 102; EvCursorReset 103; EvCursorClose 101],
                (cache, s'))) as Hrun by reflexivity.
  split; [exact Hrun |].
  destruct (sessionRun_cache_bounded 2 calls cache cache s s' _
              ltac:(split; discriminate) ltac:(repeat constructor)
              (cacheAged_empty 2 s eq_refl) ltac:(constructor) Hrun)
    as (Haged & Hlen & _).
  split; [exact Haged | exact Hlen].
Defined.

(** ** Destroying the pool *)

Lemma destroy_Ok (env : Env) (s : WiredTigerSession.t) :
  (WiredTigerSession._session s <> nullptr ->
   session_close env (WiredTigerSession._session s) = 0) ->
  Session.destroy env s = Ok (destroyEvents s, tt).
Proof.
  intros Hclose. unfold Session.destroy, destroyEvents.
  destruct (Z.eqb_spec (WiredTigerSession._session s) nullptr) as [E | Hs];
    [reflexivity |].
  cbn [negb bind emit]. rewrite (Hclose Hs). reflexivity.
Qed.

Lemma destroy_Abort (env : Env) (s : WiredTigerSession.t) :
  WiredTigerSession._session s <> nullptr ->
  session_close env (WiredTigerSession._session s) <> 0 ->
  Session.destroy env s
  = Abort (InvariantWTFailure (session_close env (WiredTigerSession._session s))).
Proof.
  intros Hs Hrc. unfold Session.destroy.
  destruct (Z.eqb_spec (WiredTigerSession._session s) nullptr) as [E | _];
    [contradiction |].
  cbn [negb bind emit]. unfold invariantWTOK.
  destruct (Z.eqb_spec (session_close env (WiredTigerSession._session s)) 0)
    as [E | _]; [contradiction | reflexivity].
Qed.

Lemma destroyAll_Ok (env : Env) (ss : list WiredTigerSession.t) :
  (forall s, In s ss -> WiredTigerSession._session s <> nullptr ->
             session_close env (WiredTigerSession._session s) = 0) ->
  Cache.destroyAll env ss = Ok (flat_map destroyEvents ss, tt).
Proof.
  induction ss as [| s more IH]; intros Hclose; [reflexivity |].
  cbn [Cache.destroyAll flat_map].
  rewrite (destroy_Ok env s (Hclose s (or_introl eq_refl))).
  rewrite IH by (intros x Hx; apply Hclose; right; exact Hx).
  reflexivity.
Qed.

Lemma destroyAll_Abort (env : Env) (before after : list WiredTigerSession.t)
    (s : WiredTigerSession.t) :
  (forall b, In b before -> WiredTigerSession._session b <> nullptr ->
             session_close env (WiredTigerSession._session b) = 0) ->
  WiredTigerSession._session s <> nullptr ->
  session_close env (WiredTigerSession._session s) <> 0 ->
  Cache.destroyAll env (before ++ s :: after)
  = Abort (InvariantWTFailure (session_close env (WiredTigerSession._session s))).
Proof.
  intros Hbefore Hs Hrc. induction before as [| b more IH].
  - cbn [app Cache.destroyAll]. rewrite (destroy_Abort env s Hs Hrc). reflexivity.
  - cbn [app Cache.destroyAll].
    rewrite (destroy_Ok env b (Hbefore b (or_introl eq_refl))).
    rewrite IH by (intros x Hx; apply Hbefore; right; exact Hx).
    reflexivity.
Qed.

(** X14: [closeAll] bumps the epoch, empties the pool and then destroys the
    sessions that were pooled, front first: each engine session that is not
    null is closed before its [WiredTigerSession] is deleted, and a null one
    is deleted without an engine call. It returns if every such close
    succeeds; at the first close that fails the process is terminated, the
    sessions behind it left undestroyed. The shutdown word is not looked at. *)
Theorem closeAll_destroys_pool (env : Env) (c : WiredTigerSessionCache.t) :
  ((forall s, In s (WiredTigerSessionCache._sessions c) ->
              WiredTigerSession._session s <> nullptr ->
              session_close env (WiredTigerSession._session s) = 0) ->
   Cache.closeAll env c
   = Ok (flat_map destroyEvents (WiredTigerSessionCache._sessions c),
         WiredTigerSessionCache.mk (WiredTigerSessionCache._shuttingDown c) []
           (u64 (WiredTigerSessionCache._epoch c + 1))
           (WiredTigerSessionCache._prepareCommitOrAbortCounter c)
           (WiredTigerSessionCache._engine c)))
  /\ (forall before s after,
        WiredTigerSessionCache._sessions c = before ++ s :: after ->
        (forall b, In b before -> WiredTigerSession._session b <> nullptr ->
                   session_close env (WiredTigerSession._session b) = 0) ->
        WiredTigerSession._session s <> nullptr ->
        session_close env (WiredTigerSession._session s) <> 0 ->
        Cache.closeAll env c
        = Abort (InvariantWTFailure
                   (session_close env (WiredTigerSession._session s))))
  /\ (forall evs c',
        Cache.closeAll env c = Ok (evs, c') ->
        deleted evs = WiredTigerSessionCache._sessions c
        /\ WiredTigerSessionCache.getIdleSessionsCount c' = 0
        /\ forall s, In s (WiredTigerSessionCache._sessions c) ->
                     WiredTigerSession._session s <> nullptr ->
                     In (EvSessionClose (WiredTigerSession._session s)) evs).
Proof.
  split; [| split].
  - intros Hclose. unfold Cache.closeAll.
    rewrite (destroyAll_Ok env _ Hclose). cbn [bind ret].
    rewrite app_nil_r. reflexivity.
  - intros before s after Hss Hbefore Hs Hrc. unfold Cache.closeAll.
    rewrite Hss, (destroyAll_Abort env before after s Hbefore Hs Hrc).
    reflexivity.
  - intros evs c' H. destruct (closeAll_inv _ _ _ _ H) as [-> Hdel].
    split; [exact Hdel |]. split; [reflexivity |].
    intros s Hin Hs. unfold Cache.closeAll in H.
    apply bind_Ok_inv in H as (evsD & [] & ? & Hd & H & ->).
    injection H as <-. rewrite app_nil_r.
    clear Hdel. revert evsD Hd.
    induction (WiredTigerSessionCache._sessions c) as [| x more IH];
      intros evsD Hd; [destruct Hin |].
    cbn [Cache.destroyAll] in Hd.
    apply bind_Ok_inv in Hd as (e1 & [] & e2 & Hx & Hd & ->).
    apply in_or_app. destruct Hin as [-> | Hin].
    + left. unfold Session.destroy in Hx.
      destruct (Z.eqb_spec (WiredTigerSession._session s) nullptr) as [E | _];
        [contradiction |].
      cbn [negb] in Hx.
      apply bind_Ok_inv in Hx as (? & [] & ? & Hc & Hx & ->).
      apply bind_Ok_inv in Hc as (? & [] & ? & He & Hc & ->).
      injection He as <-. left. reflexivity.
    + right. exact (IH Hin _ Hd).
Qed.

Lemma closeAll_destroys_pool_witness :
  let a := WiredTigerSession.setIdleExpireTime 5 (freshSession 0 4096) in
  let b := WiredTigerSession.setIdleExpireTime 6 (freshSession 0 nullptr) in
  let c := WiredTigerSessionCache.set_sessions [a; b]
             (WiredTigerSessionCache.create true) in
  Cache.closeAll (env_ok 2 9) c
  = Ok ([EvSessionClose 4096; EvDelete a; EvDelete b],
        WiredTigerSessionCache.mk 0 [] 1 0 true).
Proof.
  intros a b c.
  refine (proj1 (closeAll_destroys_pool (env_ok 2 9) c) _).
  intros s _ _. reflexivity.
Defined.

(** ** Closing cursors in every pooled session *)

Lemma closeAllCursors_Ok_inv (env : Env) (uri : string)
    (s s' : WiredTigerSession.t) (evs : list event) :
  Session.closeAllCursors env uri s = Ok (evs, s') ->
  WiredTigerSession._session s <> nullptr
  /\ s' = withoutCursors env uri s
  /\ evs = closeEvents (List.filter (closesCursor env uri)
                          (WiredTigerSession._cursors s)).
Proof.
  unfold Session.closeAllCursors. intros H.
  apply bind_Ok_inv in H as (? & [] & ? & Hinv & H & ->).
  apply invariant_Ok_inv in Hinv as [Hs ->].
  apply bind_Ok_inv in H as (? & kept & ? & Hm & H & ->).
  injection H as <- <-.
  destruct (closeMatching_spec _ _ _ _ _ Hm) as [-> ->].
  rewrite app_nil_r. split; [| split; reflexivity].
  intros E. rewrite E in Hs. discriminate Hs.
Qed.

Lemma closeAllCursors_again (env : Env) (uri : string) (s : WiredTigerSession.t) :
  WiredTigerSession._session s <> nullptr ->
  Session.closeAllCursors env uri (withoutCursors env uri s)
  = Ok ([], withoutCursors env uri s).
Proof.
  intros Hs. unfold Session.closeAllCursors, withoutCursors.
  cbn [WiredTigerSession._session WiredTigerSession.set_cursors
       WiredTigerSession._cursors].
  destruct (Z.eqb_spec (WiredTigerSession._session s) nullptr) as [? | _];
    [contradiction |].
  cbn [negb invariant bind ret].
  rewrite closeMatching_returns.
  - destruct (filter_filter_negb (closesCursor env uri)
                (WiredTigerSession._cursors s)) as [-> ->].
    reflexivity.
  - intros c Hc Hyes. apply List.filter_In in Hc as [_ Hno].
    rewrite Hyes in Hno. discriminate Hno.
Qed.

Lemma closeAllCursorsIn_spec (env : Env) (uri : string)
    (ss ss' : list WiredTigerSession.t) (evs : list event) :
  Cache.closeAllCursorsIn env uri ss = Ok (evs, ss') ->
  ss' = map (withoutCursors env uri) ss
  /\ evs = flat_map (fun s => closeEvents (List.filter (closesCursor env uri)
                                             (WiredTigerSession._cursors s))) ss
  /\ Forall (fun s => WiredTigerSession._session s <> nullptr) ss.
Proof.
  revert evs ss'. induction ss as [| i more IH]; intros evs ss' H.
  - injection H as <- <-. repeat split. constructor.
  - cbn [Cache.closeAllCursorsIn] in H.
    apply bind_Ok_inv in H as (? & i' & ? & Hi & H & ->).
    apply bind_Ok_inv in H as (? & more' & ? & Hmore & H & ->).
    injection H as <- <-.
    destruct (closeAllCursors_Ok_inv _ _ _ _ _ Hi) as (Hs & -> & ->).
    destruct (IH _ _ Hmore) as (-> & -> & Hall).
    rewrite app_nil_r. repeat split. constructor; assumption.
Qed.

Lemma closeAllCursorsIn_again (env : Env) (uri : string)
    (ss : list WiredTigerSession.t) :
  Forall (fun s => WiredTigerSession._session s <> nullptr) ss ->
  Cache.closeAllCursorsIn env uri (map (withoutCursors env uri) ss)
  = Ok ([], map (withoutCursors env uri) ss).
Proof.
  induction 1 as [| s more Hs _ IH]; [reflexivity |].
  cbn [map Cache.closeAllCursorsIn].
  rewrite (closeAllCursors_again env uri s Hs). cbn [bind]. rewrite IH.
  reflexivity.
Qed.

(** X15: the cache's [closeAllCursors(uri)] works on the pooled sessions
    only, front to back: in each it closes exactly the cached cursors that
    match, and it keeps the number and order of the sessions, their epochs
    and idle times, the cache's epoch and its shutdown word. It asserts that
    every pooled session has an engine session, and a second call finds
    nothing left to close. *)
Theorem closeAllCursors_pool (env : Env) (uri : string)
    (c c' : WiredTigerSessionCache.t) (evs : list event) :
  Cache.closeAllCursors env uri c = Ok (evs, c') ->
  c' = WiredTigerSessionCache.set_sessions
         (map (withoutCursors env uri) (WiredTigerSessionCache._sessions c)) c
  /\ evs = flat_map
             (fun s => closeEvents (List.filter (closesCursor env uri)
                                      (WiredTigerSession._cursors s)))
             (WiredTigerSessionCache._sessions c)
  /\ Forall (fun s => WiredTigerSession._session s <> nullptr)
       (WiredTigerSessionCache._sessions c)
  /\ WiredTigerSessionCache.getIdleSessionsCount c'
     = WiredTigerSessionCache.getIdleSessionsCount c
  /\ Forall (fun s => forall k, In k (WiredTigerSession._cursors s) ->
                                closesCursor env uri k = false)
       (WiredTigerSessionCache._sessions c')
  /\ Cache.closeAllCursors env uri c' = Ok ([], c')
  /\ (poolOK c -> poolOK c').
Proof.
  unfold Cache.closeAllCursors. intros H.
  apply bind_Ok_inv in H as (? & ss & ? & Hin & H & ->).
  injection H as <- <-.
  destruct (closeAllCursorsIn_spec _ _ _ _ _ Hin) as (-> & -> & Hall).
  rewrite app_nil_r.
  split; [reflexivity |]. split; [reflexivity |]. split; [exact Hall |].
  cbn [WiredTigerSessionCache._sessions WiredTigerSessionCache.set_sessions].
  split; [| split; [| split]].
  - unfold WiredTigerSessionCache.getIdleSessionsCount.
    cbn [WiredTigerSessionCache._sessions WiredTigerSessionCache.set_sessions].
    rewrite List.length_map. reflexivity.
  - cbn [WiredTigerSessionCache._sessions WiredTigerSessionCache.set_sessions].
    apply List.Forall_forall. intros s' Hs'.
    apply List.in_map_iff in Hs' as (s & <- & _).
    intros k Hk. unfold withoutCursors in Hk.
    cbn [WiredTigerSession._cursors WiredTigerSession.set_cursors] in Hk.
    apply List.filter_In in Hk as [_ Hno].
    destruct (closesCursor env uri k); [discriminate Hno | reflexivity].
  - cbn [WiredTigerSessionCache._sessions WiredTigerSessionCache.set_sessions].
    rewrite (closeAllCursorsIn_again env uri _ Hall). reflexivity.
  - intros Hok. apply poolOK_set_sessions; [exact Hok | |].
    + destruct Hok as (_ & _ & Hepochs & _).
      apply List.Forall_forall. intros s' Hs'.
      apply List.in_map_iff in Hs' as (s & <- & Hs).
      exact (proj1 (List.Forall_forall _ _) Hepochs s Hs).
    + intros Hdown. destruct Hok as (_ & _ & _ & Hempty).
      rewrite (Hempty Hdown). reflexivity.
Qed.

Lemma closeAllCursors_pool_witness :
  let a := WiredTigerSession.mk 0 4096
             [mkCachedCursor 2 1 102 "cfgA"; mkCachedCursor 1 0 101 "cfgA"]
             2 0 5 ∅ in
  let b := WiredTigerSession.mk 0 4097 [mkCachedCursor 1 0 103 "cfgA"] 1 0 6 ∅ in
  let c := WiredTigerSessionCache.set_sessions [a; b]
             (WiredTigerSessionCache.create true) in
  let c' := WiredTigerSessionCache.set_sessions
              [WiredTigerSession.set_cursors [mkCachedCursor 2 1 102 "cfgA"] a;
               WiredTigerSession.set_cursors [] b] c in
  Cache.closeAllCursors env_two_tables "table:a" c
  = Ok ([EvCursorClose 101; EvCursorClose 103], c')
  /\ Cache.closeAllCursors env_two_tables "table:a" c' = Ok ([], c').
Proof.
  intros a b c c'.
  assert (Cache.closeAllCursors env_two_tables "table:a" c
          = Ok ([EvCursorClose 101; EvCursorClose 103], c')) as Hrun
    by reflexivity.
  split; [exact Hrun |].
  destruct (closeAllCursors_pool env_two_tables "table:a" c c' _ Hrun)
    as (_ & _ & _ & _ & _ & Hagain & _).
  exact Hagain.
Defined.

(** ** What [releaseSession] insists on *)



(** ** Taking a session *)

(** X17: [getSession] terminates the process while the shutdown bit is set.
    Otherwise it takes the session at the back of the pool (the one released
    last), clears its idle time and makes no engine call; only when the pool
    is empty does it open an engine session, handing out a session of the
    current epoch with an empty cursor cache, and terminating the process if
    the engine refuses. Scopes in flight do not matter. *)
Theorem getSession_outcomes (env : Env) (c : WiredTigerSessionCache.t) :
  (WiredTigerSessionCache.isShuttingDown c = true ->
   Cache.getSession env c
   = Abort (InvariantFailure "!(_shuttingDown.load() & kShuttingDownMask)"))
  /\ (WiredTigerSessionCache.isShuttingDown c = false ->
      (forall below top,
         WiredTigerSessionCache._sessions c = below ++ [top] ->
         Cache.getSession env c
         = Ok ([], (WiredTigerSessionCache.set_sessions below c,
                    WiredTigerSession.setIdleExpireTime Date_t_min top)))
      /\ (WiredTigerSessionCache._sessions c = [] ->
          fst (open_session env) = 0 ->
          Cache.getSession env c
          = Ok ([EvOpenSession "isolation=snapshot"],
                (c, WiredTigerSession.mk (WiredTigerSessionCache._epoch c)
                      (snd (open_session env)) [] 0 0 Date_t_min ∅)))
      /\ (WiredTigerSessionCache._sessions c = [] ->
          fst (open_session env) <> 0 ->
          Cache.getSession env c
          = Abort (InvariantWTFailure (fst (open_session env))))).
Proof.
  split.
  - exact (getSession_shutdown env c).
  - intros Hup.
    assert ((Z.land (WiredTigerSessionCache._shuttingDown c)
               WiredTigerSessionCache.kShuttingDownMask =? 0) = true) as Hbit.
    { unfold WiredTigerSessionCache.isShuttingDown in Hup.
      destruct (Z.land _ _ =? 0); [reflexivity | discriminate Hup]. }
    split; [| split].
    + intros below top Hss. unfold Cache.getSession.
      rewrite Hbit, Hss, rev_unit. cbn [invariant bind ret app].
      rewrite rev_involutive. reflexivity.
    + intros Hss Hrc. exact (getSession_fresh env c Hup Hss Hrc).
    + intros Hss Hrc. unfold Cache.getSession, Cache.newSession.
      rewrite Hbit, Hss. cbn [rev invariant bind ret emit app].
      destruct (open_session env) as [rc session]. cbn [fst] in Hrc |- *.
      unfold invariantWTOK.
      destruct (Z.eqb_spec rc 0) as [? | _]; [contradiction | reflexivity].
Qed.

Lemma getSession_outcomes_witness :
  let a := WiredTigerSession.setIdleExpireTime 5 (freshSession 0 4096) in
  let b := WiredTigerSession.setIdleExpireTime 6 (freshSession 0 4097) in
  let c := WiredTigerSessionCache.BlockShutdown_enter
             (WiredTigerSessionCache.set_sessions [a; b]
                (WiredTigerSessionCache.create true)) in
  Cache.getSession (env_open_rc 5) c
  = Ok ([], (WiredTigerSessionCache.set_sessions [a] c, freshSession 0 4097)).
Proof.
  intros a b c.
  destruct (getSession_outcomes (env_open_rc 5) c) as [_ Hrunning].
  destruct (Hrunning eq_refl) as [Hpool _].
  exact (Hpool [a] b eq_refl).
Defined.

(** ** The cache holds the cursors released last *)

Lemma agesFrom_after_release (k cursorGen : Z) (cs : CursorCache) :
  agesFrom k cursorGen cs ->
  Forall (fun c => age cursorGen c < 2 ^ 64 - 1) cs ->
  agesFrom (k + 1) (u64 (cursorGen + 1)) cs.
Proof.
  revert k. induction cs as [| c more IH]; intros k H Hb; [exact I |].
  destruct H as [Hc Hmore]. inversion Hb as [| ? ? Hbc Hbmore]; subst.
  split; [rewrite age_after_release by exact Hbc; reflexivity |].
  exact (IH _ Hmore Hbmore).
Qed.

Lemma agesFrom_firstn (n : nat) (k cursorGen : Z) (cs : CursorCache) :
  agesFrom k cursorGen cs -> agesFrom k cursorGen (firstn n cs).
Proof.
  revert k cs. induction n as [| n IH]; intros k cs H; [exact I |].
  destruct cs as [| c more]; [exact I |].
  destruct H as [Hc Hmore]. split; [exact Hc | exact (IH _ _ Hmore)].
Qed.

(** Among entries whose ages count up from [k], those not older than the limit
    are the first [limit + 1 - k]. *)
Lemma filter_agesFrom (limit k cursorGen : Z) (cs : CursorCache) :
  agesFrom k cursorGen cs ->
  List.filter (fun c => age cursorGen c <=? limit) cs
  = firstn (Z.to_nat (limit + 1 - k)) cs.
Proof.
  revert k. induction cs as [| c more IH]; intros k H.
  - rewrite firstn_nil. reflexivity.
  - destruct H as [Hc Hmore]. cbn [List.filter]. rewrite Hc, (IH _ Hmore).
    destruct (Z.leb_spec k limit) as [Hle | Hgt].
    + replace (Z.to_nat (limit + 1 - k))
        with (S (Z.to_nat (limit + 1 - (k + 1)))) by lia.
      reflexivity.
    + replace (Z.to_nat (limit + 1 - (k + 1))) with O by lia.
      replace (Z.to_nat (limit + 1 - k)) with O by lia.
      reflexivity.
Qed.

Lemma releaseAll_recent (env : Env) (calls done : list (Z * WT_CURSOR * string))
    (cache cache' : WiredTigerSessionCache.t) (s s' : WiredTigerSession.t)
    (news olds : CursorCache) (evs : list event) :
  let L := gWiredTigerCursorCacheSize env in
  1 <= L <= INT32_MAX ->
  0 <= WiredTigerSessionCache._shuttingDown cache < 2 ^ 32 ->
  WiredTigerSessionCache.blockers cache + 1 < 2 ^ 31 ->
  WiredTigerSessionCache.isShuttingDown cache = false ->
  cacheAged L s ->
  WiredTigerSession._cursors s = news ++ olds ->
  map released news = firstn (Z.to_nat L) done ->
  agesFrom 1 (WiredTigerSession._cursorGen s) news ->
  Forall (fun o => Z.of_nat (length done) < age (WiredTigerSession._cursorGen s) o)
    olds ->
  releaseAll env calls (cache, s) = Ok (evs, (cache', s')) ->
  exists news' olds',
    WiredTigerSession._cursors s' = news' ++ olds'
    /\ map released news' = firstn (Z.to_nat L) (rev calls ++ done)
    /\ Forall (fun o => Z.of_nat (length done) + Z.of_nat (length calls)
                        < age (WiredTigerSession._cursorGen s') o) olds'
    /\ incl olds' olds.
Proof.
  intros L HL Hw Hn Hup. revert done s news olds evs.
  induction calls as [| [[id h] config] more IH];
    intros done s news olds evs Haged Hcs Hnews Hages Holds Hrun.
  - injection Hrun as _ _ <-. exists news, olds.
    split; [exact Hcs |]. split; [exact Hnews |].
    split; [| apply incl_refl].
    eapply List.Forall_impl; [| exact Holds]. cbn. intros o Ho. lia.
  - cbn [releaseAll] in Hrun.
    apply bind_Ok_inv in Hrun as (? & [cache1 s1] & ? & Hone & Hmore & ->).
    destruct (releaseCursor_running_inv _ _ _ _ _ _ _ _ _ Hw Hn Hup Hone)
      as [-> Hbody].
    assert (L < 2 ^ 64 - 1) as Hbound by (unfold INT32_MAX in HL; lia).
    destruct (releaseCursorBody_step _ _ _ _ _ _ _ _ Hbound HL Haged Hbody)
      as (Haged1 & Hgen1 & Hkept & _).
    fold L in Hkept, Haged1.
    set (g1 := u64 (WiredTigerSession._cursorGen s + 1)) in *.
    set (new := mkCachedCursor id (WiredTigerSession._cursorGen s) h config) in *.
    assert (Forall (fun c => age (WiredTigerSession._cursorGen s) c < 2 ^ 64 - 1)
              (news ++ olds)) as Hsmall.
    { rewrite <- Hcs. eapply List.Forall_impl; [| exact (proj2 Haged)].
      cbn. intros c Hc. lia. }
    apply Forall_app in Hsmall as [Hsmall_news Hsmall_olds].
    pose proof (agesFrom_after_release _ _ _ Hages Hsmall_news) as Hages1.
    fold g1 in Hages1. change (1 + 1) with 2 in Hages1.
    assert (age g1 new = 1) as Hnew by apply age_of_new.
    assert (WiredTigerSession._cursors s1
            = (new :: firstn (Z.to_nat (L - 1)) news)
              ++ List.filter (fun c => age g1 c <=? L) olds) as Hcs1.
    { rewrite Hkept, Hcs. cbn [List.filter]. rewrite Hnew.
      destruct (Z.leb_spec 1 L) as [_ | ?]; [| lia].
      rewrite List.filter_app, (filter_agesFrom L 2 g1 news Hages1).
      replace (L + 1 - 2) with (L - 1) by lia. reflexivity. }
    assert (map released (new :: firstn (Z.to_nat (L - 1)) news)
            = firstn (Z.to_nat L) ((id, h, config) :: done)) as Hnews1.
    { cbn [map]. rewrite <- List.firstn_map, Hnews, List.firstn_firstn.
      replace (Z.to_nat L) with (S (Z.to_nat (L - 1))) at 2 by lia.
      cbn [firstn]. f_equal. f_equal. lia. }
    assert (agesFrom 1 (WiredTigerSession._cursorGen s1)
              (new :: firstn (Z.to_nat (L - 1)) news)) as Hages1'.
    { rewrite Hgen1. split; [exact Hnew |].
      apply agesFrom_firstn. exact Hages1. }
    assert (Forall (fun o => Z.of_nat (length ((id, h, config) :: done))
                             < age (WiredTigerSession._cursorGen s1) o)
              (List.filter (fun c => age g1 c <=? L) olds)) as Holds1.
    { rewrite Hgen1. apply Forall_filter_keeps.
      apply List.Forall_forall. intros o Ho.
      pose proof (proj1 (List.Forall_forall _ _) Holds o Ho) as Hold.
      pose proof (proj1 (List.Forall_forall _ _) Hsmall_olds o Ho) as Hsm.
      cbn beta in Hold, Hsm. unfold g1.
      rewrite age_after_release by exact Hsm. cbn [length]. lia. }
    destruct (IH _ _ _ _ _ Haged1 Hcs1 Hnews1 Hages1' Holds1 Hmore)
      as (news' & olds' & Hcs' & Hnews' & Holds' & Hincl).
    exists news', olds'. split; [exact Hcs' |]. split.
    + rewrite Hnews'. cbn [rev]. rewrite <- app_assoc. reflexivity.
    + split.
      * eapply List.Forall_impl; [| exact Holds']. cbn [length].
        intros o Ho. cbn beta in Ho |- *. lia.
      * intros o Ho. specialize (Hincl o Ho).
        apply List.filter_In in Hincl as [Hin _]. exact Hin.
Qed.

(** X18: after releases in a row outside shutdown under a limit [L >= 1], the
    front of the cache is the last [L] cursors released (all of them if there
    were fewer), most recent first, each with the id and configuration it was
    released under; whatever else is cached was cached before. Once [L] or
    more cursors have been released in a row nothing older is left. *)
Theorem releaseAll_keeps_most_recent (env : Env)
    (calls : list (Z * WT_CURSOR * string))
    (cache cache' : WiredTigerSessionCache.t) (s s' : WiredTigerSession.t)
    (evs : list event) :
  let L := gWiredTigerCursorCacheSize env in
  1 <= L <= INT32_MAX ->
  0 <= WiredTigerSessionCache._shuttingDown cache < 2 ^ 32 ->
  WiredTigerSessionCache.blockers cache + 1 < 2 ^ 31 ->
  WiredTigerSessionCache.isShuttingDown cache = false ->
  cacheAged L s ->
  releaseAll env calls (cache, s) = Ok (evs, (cache', s')) ->
  exists news olds,
    WiredTigerSession._cursors s' = news ++ olds
    /\ map released news = firstn (Z.to_nat L) (rev calls)
    /\ incl olds (WiredTigerSession._cursors s)
    /\ (L <= Z.of_nat (length calls) -> olds = []).
Proof.
  intros L HL Hw Hn Hup Haged Hrun.
  destruct (releaseAll_recent env calls [] cache cache' s s' []
              (WiredTigerSession._cursors s) evs HL Hw Hn Hup Haged eq_refl)
    as (news & olds & Hcs & Hnews & Holds & Hincl);
    [rewrite firstn_nil; reflexivity | exact I | | exact Hrun |].
  - eapply List.Forall_impl; [| exact (agesAbove_lower _ _ _ (proj1 Haged))].
    cbn. intros o Ho. lia.
  - exists news, olds. split; [exact Hcs |].
    split; [rewrite Hnews, app_nil_r; reflexivity |].
    split; [exact Hincl |].
    intros Hmany. destruct olds as [| o rest]; [reflexivity | exfalso].
    pose proof (releaseAll_aged env calls cache cache' s s' evs HL Haged Hrun)
      as [_ Hyoung].
    rewrite Hcs in Hyoung. apply Forall_app in Hyoung as [_ Hyoung].
    inversion Hyoung as [| ? ? Ho _]; subst.
    inversion Holds as [| ? ? Ho' _]; subst.
    cbn [length] in Ho'. fold L in Ho. lia.
Qed.

Lemma releaseAll_keeps_most_recent_witness :
  let cache := WiredTigerSessionCache.create true in
  let s := WiredTigerSession.mk 0 4096 [mkCachedCursor 9 0 109 "cfgZ"] 1 3
             Date_t_min ∅ in
  exists evs s',
    releaseAll (env_ok 2 0) [(1, 101, "cfgA"); (2, 102, "cfgA"); (3, 103, "cfgB")]
      (cache, s) = Ok (evs, (cache, s'))
    /\ map released (WiredTigerSession._cursors s')
       = [(3, 103, "cfgB"); (2, 102, "cfgA")].
Proof.
  intros cache s.
  assert (releaseAll (env_ok 2 0)
            [(1, 101, "cfgA"); (2, 102, "cfgA"); (3, 103, "cfgB")] (cache, s)
          = Ok ([EvCursorReset 101; EvCursorReset 102; EvCursorClose 109;
                 EvCursorReset 103; EvCursorClose 101],
                (cache,
                 WiredTigerSession.mk 0 4096
                   [mkCachedCursor 3 3 103 "cfgB"; mkCachedCursor 2 2 102 "cfgA"]
                   4 0 Date_t_min ∅))) as Hrun by reflexivity.
  eexists _, _. split; [exact Hrun |].
  destruct (releaseAll_keeps_most_recent (env_ok 2 0) _ cache cache s _ _
              ltac:(split; discriminate) ltac:(simpl; lia) eq_refl eq_refl
              ltac:(split; repeat constructor; discriminate) Hrun)
    as (news & olds & Hcs & Hnews & _ & Hnone).
  rewrite Hcs, (Hnone ltac:(discriminate)), app_nil_r. exact Hnews.
Defined.

(** ** The counter of prepared units of work *)

Lemma step_counter (env : Env) (op : Op) (c c' : WiredTigerSessionCache.t)
    (out : list WiredTigerSession.t) (evs : list event) :
  poolOK c ->
  step env op c = Ok (evs, (c', out)) ->
  WiredTigerSessionCache._engine c' = WiredTigerSessionCache._engine c
  /\ WiredTigerSessionCache._prepareCommitOrAbortCounter c'
     = match op with
       | OpNotifyPreparedUnitOfWorkHasCommittedOrAborted =>
           u64 (WiredTigerSessionCache._prepareCommitOrAbortCounter c + 1)
       | _ => WiredTigerSessionCache._prepareCommitOrAbortCounter c
       end.
Proof.
  intros Hok H. destruct op; cbn [step] in H.
  - apply bind_Ok_inv in H as (? & [c1 s] & ? & Hget & H & ->).
    injection H as _ <- _.
    destruct (getSession_inv _ _ _ _ _ Hget)
      as (_ & [(below & cached & _ & -> & _) | (_ & -> & _)]);
      split; reflexivity.
  - apply bind_Ok_inv in H as (? & c1 & ? & Hrel & H & ->).
    injection H as _ <- _.
    destruct (releaseSession_poolOK _ _ _ _ _ Hok Hrel)
      as [(_ & -> & _) | (_ & [(pooled & -> & _) | (-> & _)])];
      split; reflexivity.
  - apply bind_Ok_inv in H as (? & c1 & ? & Hclose & H & ->).
    injection H as _ <- _. destruct (closeAll_inv _ _ _ _ Hclose) as [-> _].
    split; reflexivity.
  - apply bind_Ok_inv in H as (? & c1 & ? & Hclose & H & ->).
    injection H as _ <- _.
    destruct (closeExpiredIdleSessions_inv _ _ _ _ _ Hclose) as (kept & -> & _).
    split; reflexivity.
  - apply bind_Ok_inv in H as (? & c1 & ? & Hclose & H & ->).
    injection H as _ <- _. unfold Cache.closeAllCursors in Hclose.
    apply bind_Ok_inv in Hclose as (? & ss & ? & _ & Hclose & ->).
    injection Hclose as _ <-. split; reflexivity.
  - apply bind_Ok_inv in H as (? & c1 & ? & Hdown & H & ->).
    injection H as _ <- _.
    destruct (shuttingDown_poolOK _ _ _ _ Hok Hdown) as [[_ ->] | (_ & -> & _)];
      split; reflexivity.
  - injection H as _ <- _. split; reflexivity.
  - injection H as _ <- _. split; reflexivity.
  - apply bind_Ok_inv in H as (? & [c1 s1] & ? & Hrel & H & ->).
    injection H as _ <- _.
    rewrite (releaseCursor_cache _ _ _ _ _ _ _ _ _ (proj1 (poolOK_word c Hok)) Hrel).
    split; reflexivity.
Qed.

(** X19: over any sequence of calls on the cache, the counter of prepared
    units of work moves only with
    [notifyPreparedUnitOfWorkHasCommittedOrAborted], by one each time and
    modulo [2^64]: taking, releasing and closing sessions, sweeping, shutting
    down and restarting leave it alone. The engine pointer never changes. *)
Theorem only_notify_moves_counter (calls : list (Env * Op))
    (c c' : WiredTigerSessionCache.t) (outs : list WiredTigerSession.t)
    (evs : list event) :
  poolOK c ->
  WiredTigerSessionCache._epoch c + Z.of_nat (length calls) < 2 ^ 64 ->
  0 <= WiredTigerSessionCache._prepareCommitOrAbortCounter c < 2 ^ 64 ->
  run calls c = Ok (evs, (c', outs)) ->
  WiredTigerSessionCache.getPrepareCommitOrAbortCount c'
  = u64 (WiredTigerSessionCache.getPrepareCommitOrAbortCount c + notifications calls)
  /\ WiredTigerSessionCache._engine c' = WiredTigerSessionCache._engine c.
Proof.
  unfold WiredTigerSessionCache.getPrepareCommitOrAbortCount.
  revert c evs outs.
  induction calls as [| [env op] more IH]; intros c evs outs Hok Hroom Hcnt H.
  - injection H as _ <- _. cbn [notifications]. rewrite Z.add_0_r.
    split; [| reflexivity]. unfold u64. symmetry. apply Z.mod_small. exact Hcnt.
  - cbn [run] in H. cbn [length] in Hroom.
    apply bind_Ok_inv in H as (? & [c1 out1] & ? & Hstep & H & ->).
    apply bind_Ok_inv in H as (? & [c2 outs2] & ? & Hmore & H & ->).
    injection H as _ <- _.
    destruct (step_advances env op c c1 out1 _ Hok ltac:(lia) Hstep)
      as (Hok1 & He1 & _).
    destruct (step_counter _ _ _ _ _ _ Hok Hstep) as [Hengine Hcounter].
    assert (0 <= WiredTigerSessionCache._prepareCommitOrAbortCounter c1 < 2 ^ 64)
      as Hcnt1.
    { rewrite Hcounter. destruct op; try exact Hcnt.
      unfold u64. apply Z.mod_pos_bound. lia. }
    destruct (IH c1 _ _ Hok1 ltac:(lia) Hcnt1 Hmore) as [-> ->].
    split; [| exact Hengine]. rewrite Hcounter.
    destruct op; cbn [notifications]; try reflexivity.
    unfold u64. rewrite Zplus_mod_idemp_l. f_equal. lia.
Qed.

Lemma only_notify_moves_counter_witness :
  let calls := [(env_ok 2 7, OpGetSession);
                (env_ok 2 7, OpNotifyPreparedUnitOfWorkHasCommittedOrAborted);
                (env_ok 2 8, OpCloseAll);
                (env_ok 2 9, OpNotifyPreparedUnitOfWorkHasCommittedOrAborted)] in
  exists evs c' outs,
    run calls (WiredTigerSessionCache.create true) = Ok (evs, (c', outs))
    /\ WiredTigerSessionCache.getPrepareCommitOrAbortCount c' = 2.
Proof.
  intros calls.
  assert (run calls (WiredTigerSessionCache.create true)
          = Ok ([EvOpenSession "isolation=snapshot"],
                (WiredTigerSessionCache.mk 0 [] 1 2 true, [freshSession 0 4096])))
    as Hrun by reflexivity.
  eexists _, _, _. split; [exact Hrun |].
  refine (proj1 (only_notify_moves_counter calls _ _ _ _ (poolOK_create true)
                   _ _ Hrun)).
  - reflexivity.
  - simpl. lia.
Defined.

(** ** Eviction goes by age *)

(** X20: what a release outside shutdown evicts is decided by age alone, not
    by how many cursors the cache holds: an entry cached [a] releases ago
    stays exactly if [a < L] and is closed otherwise. So an entry is closed by
    the [L]-th release after its own even when every cursor released since
    has been taken out of the cache again. *)
Theorem releaseCursor_evicts_by_age (env : Env) (id : Z) (h : WT_CURSOR)
    (config : string) (cache cache' : WiredTigerSessionCache.t)
    (s s' : WiredTigerSession.t) (evs : list event) :
  let L := gWiredTigerCursorCacheSize env in
  1 <= L <= INT32_MAX ->
  0 <= WiredTigerSessionCache._shuttingDown cache < 2 ^ 32 ->
  WiredTigerSessionCache.blockers cache + 1 < 2 ^ 31 ->
  WiredTigerSessionCache.isShuttingDown cache = false ->
  cacheAged L s ->
  Session.releaseCursor env id h config (cache, s) = Ok (evs, (cache', s')) ->
  forall e,
    In e (WiredTigerSession._cursors s) ->
    (In e (WiredTigerSession._cursors s')
     <-> age (WiredTigerSession._cursorGen s) e < L)
    /\ (~ In e (WiredTigerSession._cursors s') ->
        In (EvCursorClose (_cursor e)) evs).
Proof.
  intros L HL Hw Hn Hup Haged Hrel e He.
  destruct (releaseCursor_running_inv _ _ _ _ _ _ _ _ _ Hw Hn Hup Hrel)
    as [_ Hbody].
  assert (L < 2 ^ 64 - 1) as Hbound by (unfold INT32_MAX in HL; lia).
  destruct (releaseCursorBody_step _ _ _ _ _ _ _ _ Hbound HL Haged Hbody)
    as (_ & _ & Hkept & gone & Hsplit & Hevs).
  fold L in Hkept.
  pose proof (proj1 (List.Forall_forall _ _) (proj2 Haged) e He) as Hage.
  cbn beta in Hage.
  assert (age (u64 (WiredTigerSession._cursorGen s + 1)) e
          = age (WiredTigerSession._cursorGen s) e + 1) as Hnext
    by (apply age_after_release; lia).
  split.
  - rewrite Hkept, List.filter_In, Hnext. split.
    + intros [_ Hle]. apply Z.leb_le in Hle. lia.
    + intros Hlt. split; [right; exact He | apply Z.leb_le; lia].
  - intros Hout.
    assert (In e (WiredTigerSession._cursors s' ++ gone)) as Hin
      by (rewrite <- Hsplit; right; exact He).
    apply in_app_or in Hin as [Hin | Hin]; [contradiction |].
    rewrite Hevs. right. unfold closeEvents.
    apply List.in_map_iff. exists e. split; [reflexivity |].
    apply -> List.in_rev. exact Hin.
Qed.

Lemma releaseCursor_evicts_by_age_witness :
  let cache := WiredTigerSessionCache.create true in
  let old := mkCachedCursor 1 0 101 "cfgA" in
  let s := WiredTigerSession.mk 0 4096 [old] 3 1 Date_t_min ∅ in
  let s' := WiredTigerSession.mk 0 4096 [mkCachedCursor 4 3 104 "cfgA"] 4 0
              Date_t_min ∅ in
  Session.releaseCursor (env_ok 3 0) 4 104 "cfgA" (cache, s)
  = Ok ([EvCursorReset 104; EvCursorClose 101], (cache, s'))
  /\ ~ In old (WiredTigerSession._cursors s')
  /\ WiredTigerSession.cachedCursors s' = 1.
Proof.
  intros cache old s s'.
  assert (Session.releaseCursor (env_ok 3 0) 4 104 "cfgA" (cache, s)
          = Ok ([EvCursorReset 104; EvCursorClose 101], (cache, s'))) as Hrun
    by reflexivity.
  split; [exact Hrun |]. split; [| reflexivity].
  destruct (releaseCursor_evicts_by_age (env_ok 3 0) 4 104 "cfgA" cache cache s s' _
              ltac:(split; discriminate) ltac:(simpl; lia) eq_refl eq_refl
              ltac:(split; repeat constructor; discriminate) Hrun
              old (or_introl eq_refl)) as [Hiff _].
  intros Hin. apply Hiff in Hin. discriminate Hin.
Defined.

(** ** The sweep takes the sessions idle longest *)

Lemma sweepIdle_inv (cutoffTime : Date_t)
    (ss kept closing : list WiredTigerSession.t) (evs : list event) :
  Cache.sweepIdle cutoffTime ss = Ok (evs, (kept, closing)) ->
  evs = []
  /\ kept = List.filter (fun s => negb (expiredBefore cutoffTime s)) ss
  /\ closing = List.filter (expiredBefore cutoffTime) ss.
Proof.
  revert evs kept closing.
  induction ss as [| s more IH]; intros evs kept closing H.
  - injection H as <- <- <-. repeat split.
  - cbn [Cache.sweepIdle] in H.
    apply bind_Ok_inv in H as (? & [] & ? & Hinv & H & ->).
    apply invariant_Ok_inv in Hinv as [_ ->].
    apply bind_Ok_inv in H as (? & [kept1 closing1] & ? & Hmore & H & ->).
    destruct (IH _ _ _ Hmore) as (-> & -> & ->).
    cbn [List.filter].
    change (expiredBefore cutoffTime s)
      with (WiredTigerSession.getIdleExpireTime s <? cutoffTime).
    destruct (WiredTigerSession.getIdleExpireTime s <? cutoffTime);
      injection H as <- <- <-; cbn [negb]; rewrite ?app_nil_r; repeat split.
Qed.

Lemma closeExpiredIdleSessions_filter (env : Env) (T : Z)
    (c c' : WiredTigerSessionCache.t) (evs : list event) :
  Cache.closeExpiredIdleSessions env T c = Ok (evs, c') ->
  (T <= 0 /\ c' = c /\ evs = [])
  \/ (0 < T
      /\ c' = WiredTigerSessionCache.set_sessions
                (List.filter (fun s => negb (expiredBefore (now env - T) s))
                   (WiredTigerSessionCache._sessions c)) c
      /\ deleted evs
         = List.filter (expiredBefore (now env - T))
             (WiredTigerSessionCache._sessions c)).
Proof.
  unfold Cache.closeExpiredIdleSessions. intros H.
  destruct (Z.leb_spec T 0) as [Hle | Hgt].
  - left. injection H as <- <-. repeat split. exact Hle.
  - right. split; [exact Hgt |].
    apply bind_Ok_inv in H as (? & [kept closing] & ? & Hsweep & H & ->).
    apply bind_Ok_inv in H as (? & [] & ? & Hd & H & ->).
    injection H as <- <-.
    destruct (sweepIdle_inv _ _ _ _ _ Hsweep) as (-> & -> & ->).
    split; [reflexivity |].
    rewrite app_nil_r. cbn [app]. exact (destroyAll_deleted _ _ _ Hd).
Qed.

Lemma StronglySorted_filter_keeps {A} (R : A -> A -> Prop) (q : A -> bool)
    (l : list A) :
  StronglySorted R l -> StronglySorted R (List.filter q l).
Proof.
  induction 1 as [| x l Hl IH Hx]; [constructor |].
  cbn [List.filter]. destruct (q x); [| exact IH].
  constructor; [exact IH | apply Forall_filter_keeps; exact Hx].
Qed.

Lemma idleOrder_withoutCursors (env : Env) (uri : string)
    (ss : list WiredTigerSession.t) :
  StronglySorted idleOrder ss ->
  StronglySorted idleOrder (map (withoutCursors env uri) ss).
Proof.
  induction 1 as [| x l Hl IH Hx]; [constructor |].
  cbn [map]. constructor; [exact IH |].
  apply List.Forall_forall. intros y Hy.
  apply List.in_map_iff in Hy as (y0 & <- & Hy0).
  exact (proj1 (List.Forall_forall _ _) Hx y0 Hy0).
Qed.

(** In a pool ordered by idle time the sessions that became idle before the
    cutoff are a prefix. *)
Lemma expired_prefix (cutoffTime : Date_t) (ss : list WiredTigerSession.t) :
  StronglySorted idleOrder ss ->
  exists n,
    List.filter (expiredBefore cutoffTime) ss = firstn n ss
    /\ List.filter (fun s => negb (expiredBefore cutoffTime s)) ss = skipn n ss.
Proof.
  induction 1 as [| x l Hl IH Hx]; [exists O; split; reflexivity |].
  cbn [List.filter]. destruct (expiredBefore cutoffTime x) eqn:Hexp; cbn [negb].
  - destruct IH as (n & -> & ->). exists (S n). split; reflexivity.
  - exists O. cbn [firstn skipn].
    assert (Forall (fun s => expiredBefore cutoffTime s = false) l) as Hnone.
    { eapply List.Forall_impl; [| exact Hx]. intros y Hxy.
      unfold expiredBefore in *. unfold idleOrder in Hxy.
      apply Z.ltb_ge in Hexp. apply Z.ltb_ge. lia. }
    clear - Hnone. induction Hnone as [| y l Hy _ [IH1 IH2]];
      [split; reflexivity |].
    cbn [List.filter]. rewrite Hy. cbn [negb]. split; [exact IH1 |].
    f_equal. injection IH2 as IH2. f_equal. exact IH2.
Qed.

Lemma step_idle_order (t : Date_t) (env : Env) (op : Op)
    (c c' : WiredTigerSessionCache.t) (out : list WiredTigerSession.t)
    (evs : list event) :
  poolOK c ->
  t <= now env ->
  StronglySorted idleOrder (WiredTigerSessionCache._sessions c) ->
  Forall (fun s => WiredTigerSession.getIdleExpireTime s <= t)
    (WiredTigerSessionCache._sessions c) ->
  step env op c = Ok (evs, (c', out)) ->
  StronglySorted idleOrder (WiredTigerSessionCache._sessions c')
  /\ Forall (fun s => WiredTigerSession.getIdleExpireTime s <= now env)
       (WiredTigerSessionCache._sessions c').
Proof.
  intros Hok Ht Hsorted Hbound H.
  assert (Forall (fun s => WiredTigerSession.getIdleExpireTime s <= now env)
            (WiredTigerSessionCache._sessions c)) as Hbound'.
  { eapply List.Forall_impl; [| exact Hbound]. cbn. intros s Hs. lia. }
  destruct op; cbn [step] in H.
  - apply bind_Ok_inv in H as (? & [c1 s] & ? & Hget & H & ->).
    injection H as _ <- _.
    destruct (getSession_inv _ _ _ _ _ Hget)
      as (_ & [(below & cached & Hss & -> & _) | (_ & -> & _)]);
      [| split; assumption].
    cbn [WiredTigerSessionCache._sessions WiredTigerSessionCache.set_sessions].
    rewrite Hss in Hsorted, Hbound'.
    split; [exact (StronglySorted_app_1_l _ _ _ Hsorted) |].
    apply Forall_app in Hbound' as [Hb _]. exact Hb.
  - apply bind_Ok_inv in H as (? & c1 & ? & Hrel & H & ->).
    injection H as _ <- _.
    destruct (releaseSession_poolOK _ _ _ _ _ Hok Hrel)
      as [(_ & -> & _) | (_ & [(pooled & -> & _ & _ & Hidle & _) | (-> & _)])];
      try (split; assumption).
    cbn [WiredTigerSessionCache._sessions WiredTigerSessionCache.set_sessions].
    split.
    + apply StronglySorted_app_2; [| exact Hsorted | repeat constructor].
      intros x1 x2 Hx1 Hx2. apply list_elem_of_singleton in Hx2 as ->.
      apply list_elem_of_In in Hx1.
      pose proof (proj1 (List.Forall_forall _ _) Hbound' x1 Hx1) as Hle.
      cbn beta in Hle. unfold idleOrder, WiredTigerSession.getIdleExpireTime in *.
      rewrite Hidle. exact Hle.
    + apply Forall_app. split; [exact Hbound' |]. constructor; [| constructor].
      unfold WiredTigerSession.getIdleExpireTime. rewrite Hidle. lia.
  - apply bind_Ok_inv in H as (? & c1 & ? & Hclose & H & ->).
    injection H as _ <- _. destruct (closeAll_inv _ _ _ _ Hclose) as [-> _].
    split; constructor.
  - apply bind_Ok_inv in H as (? & c1 & ? & Hclose & H & ->).
    injection H as _ <- _.
    destruct (closeExpiredIdleSessions_filter _ _ _ _ _ Hclose)
      as [(_ & -> & _) | (_ & -> & _)]; [split; assumption |].
    cbn [WiredTigerSessionCache._sessions WiredTigerSessionCache.set_sessions].
    split; [apply StronglySorted_filter_keeps; exact Hsorted
           | apply Forall_filter_keeps; exact Hbound'].
  - apply bind_Ok_inv in H as (? & c1 & ? & Hclose & H & ->).
    injection H as _ <- _. unfold Cache.closeAllCursors in Hclose.
    apply bind_Ok_inv in Hclose as (? & ss & ? & Hin & Hclose & ->).
    injection Hclose as _ <-.
    destruct (closeAllCursorsIn_spec _ _ _ _ _ Hin) as (-> & _ & _).
    cbn [WiredTigerSessionCache._sessions WiredTigerSessionCache.set_sessions].
    split; [apply idleOrder_withoutCursors; exact Hsorted |].
    apply List.Forall_forall. intros y Hy.
    apply List.in_map_iff in Hy as (y0 & <- & Hy0).
    exact (proj1 (List.Forall_forall _ _) Hbound' y0 Hy0).
  - apply bind_Ok_inv in H as (? & c1 & ? & Hdown & H & ->).
    injection H as _ <- _.
    destruct (shuttingDown_poolOK _ _ _ _ Hok Hdown) as [[_ ->] | (_ & -> & _)];
      [split; assumption | split; constructor].
  - injection H as _ <- _. split; assumption.
  - injection H as _ <- _. split; assumption.
  - apply bind_Ok_inv in H as (? & [c1 s1] & ? & Hrel & H & ->).
    injection H as _ <- _.
    rewrite (releaseCursor_cache _ _ _ _ _ _ _ _ _ (proj1 (poolOK_word c Hok)) Hrel).
    split; assumption.
Qed.

(** X21: as long as the clock never goes back, the pool of every cache reached
    by a sequence of calls is ordered by idle time, the session idle longest
    at the front and the one released last at the back. So
    [closeExpiredIdleSessions] always destroys a prefix of the pool, in pool
    order, and keeps the rest in order, while [getSession] takes from the
    other end. *)
Theorem sweep_takes_oldest_prefix (t : Date_t) (calls : list (Env * Op))
    (c c' : WiredTigerSessionCache.t) (outs : list WiredTigerSession.t)
    (evs : list event) :
  poolOK c ->
  WiredTigerSessionCache._epoch c + Z.of_nat (length calls) < 2 ^ 64 ->
  StronglySorted idleOrder (WiredTigerSessionCache._sessions c) ->
  Forall (fun s => WiredTigerSession.getIdleExpireTime s <= t)
    (WiredTigerSessionCache._sessions c) ->
  clockMonotone t calls ->
  run calls c = Ok (evs, (c', outs)) ->
  StronglySorted idleOrder (WiredTigerSessionCache._sessions c')
  /\ forall env T evs2 c2,
       Cache.closeExpiredIdleSessions env T c' = Ok (evs2, c2) ->
       exists n,
         deleted evs2 = firstn n (WiredTigerSessionCache._sessions c')
         /\ WiredTigerSessionCache._sessions c2
            = skipn n (WiredTigerSessionCache._sessions c').
Proof.
  intros Hok Hroom Hsorted Hbound Hclock Hrun.
  assert (StronglySorted idleOrder (WiredTigerSessionCache._sessions c'))
    as Hsorted'.
  { revert t c evs outs Hok Hroom Hsorted Hbound Hclock Hrun.
    induction calls as [| [env op] more IH];
      intros t c evs outs Hok Hroom Hsorted Hbound Hclock H.
    - injection H as _ <- _. exact Hsorted.
    - cbn [run] in H. cbn [length] in Hroom. destruct Hclock as [Ht Hclock].
      apply bind_Ok_inv in H as (? & [c1 out1] & ? & Hstep & H & ->).
      apply bind_Ok_inv in H as (? & [c2 outs2] & ? & Hmore & H & ->).
      injection H as _ <- _.
      destruct (step_advances env op c c1 out1 _ Hok ltac:(lia) Hstep)
        as (Hok1 & He1 & _).
      destruct (step_idle_order _ _ _ _ _ _ _ Hok Ht Hsorted Hbound Hstep)
        as [Hsorted1 Hbound1].
      exact (IH (now env) c1 _ _ Hok1 ltac:(lia) Hsorted1 Hbound1 Hclock Hmore). }
  split; [exact Hsorted' |].
  intros env T evs2 c2 Hsweep.
  destruct (closeExpiredIdleSessions_filter _ _ _ _ _ Hsweep)
    as [(_ & -> & ->) | (_ & -> & ->)].
  - exists O. split; reflexivity.
  - destruct (expired_prefix (now env - T) _ Hsorted') as (n & Hfirst & Hrest).
    exists n. split; [exact Hfirst | exact Hrest].
Qed.

Lemma sweep_takes_oldest_prefix_witness :
  let calls := [(env_ok 2 10, OpReleaseSession (freshSession 0 4096));
                (env_ok 2 20, OpReleaseSession (freshSession 0 4097));
                (env_ok 2 30, OpReleaseSession (freshSession 0 4098));
                (env_ok 2 40, OpGetSession)] in
  let a := WiredTigerSession.setIdleExpireTime 10 (freshSession 0 4096) in
  let b := WiredTigerSession.setIdleExpireTime 20 (freshSession 0 4097) in
  let c' := WiredTigerSessionCache.set_sessions [a; b]
              (WiredTigerSessionCache.create false) in
  run calls (WiredTigerSessionCache.create false)
  = Ok ([EvPinnedRange 4096; EvSessionReset 4096; EvPinnedRange 4097;
         EvSessionReset 4097; EvPinnedRange 4098; EvSessionReset 4098],
        (c', [freshSession 0 4098]))
  /\ StronglySorted idleOrder (WiredTigerSessionCache._sessions c').
Proof.
  intros calls a b c'.
  assert (run calls (WiredTigerSessionCache.create false)
          = Ok ([EvPinnedRange 4096; EvSessionReset 4096; EvPinnedRange 4097;
                 EvSessionReset 4097; EvPinnedRange 4098; EvSessionReset 4098],
                (c', [freshSession 0 4098]))) as Hrun by reflexivity.
  split; [exact Hrun |].
  refine (proj1 (sweep_takes_oldest_prefix 0 calls _ c' _ _
                   (poolOK_create false) _ _ _ _ Hrun)).
  - reflexivity.
  - constructor.
  - constructor.
  - cbn. lia.
Defined.

(** ** Using a cached cursor refreshes it *)

(** X22: a cursor taken from the cache with [getCachedCursor] and given back
    with [releaseCursor] under the same id and configuration (outside
    shutdown, limit at least 1) comes back at the front of the cache as the
    youngest entry; the entries that were in front of it and behind it keep
    their order, each one release older, and those that are now older than the
    limit are closed. The count of cursors out is as before the lookup. *)
Theorem getCachedCursor_releaseCursor_refreshes (env : Env) (id : Z)
    (config : string) (h : WT_CURSOR) (cache cache' : WiredTigerSessionCache.t)
    (s s1 s2 : WiredTigerSession.t) (evs : list event) :
  let L := gWiredTigerCursorCacheSize env in
  1 <= L <= INT32_MAX ->
  0 <= WiredTigerSessionCache._shuttingDown cache < 2 ^ 32 ->
  WiredTigerSessionCache.blockers cache + 1 < 2 ^ 31 ->
  WiredTigerSessionCache.isShuttingDown cache = false ->
  cacheAged L s ->
  - 2 ^ 31 <= WiredTigerSession._cursorsOut s < 2 ^ 31 ->
  Session.getCachedCursor id config s = (h, s1) ->
  h <> nullptr ->
  Session.releaseCursor env id h config (cache, s1) = Ok (evs, (cache', s2)) ->
  exists front hit back kept,
    WiredTigerSession._cursors s = front ++ hit :: back
    /\ released hit = (id, h, config)
    /\ WiredTigerSession._cursors s2
       = mkCachedCursor id (WiredTigerSession._cursorGen s) h config :: kept
    /\ kept = List.filter
                (fun c => age (WiredTigerSession._cursorGen s) c <? L)
                (front ++ back)
    /\ WiredTigerSession._cursorsOut s2 = WiredTigerSession._cursorsOut s
    /\ cacheAged L s2.
Proof.
  intros L HL Hw Hn Hup Haged Hout Hget Hh Hrel.
  unfold Session.getCachedCursor in Hget.
  destruct (Session.findCursor id config (WiredTigerSession._cursors s))
    as [[c rest] |] eqn:Hfind;
    [| injection Hget as <- _; contradiction].
  injection Hget as -> <-.
  destruct (findCursor_handle _ _ _ _ _ Hfind)
    as (front & hit & back & Hcs & -> & Hid & Hcfg & Hcur & _).
  set (s1 := WiredTigerSession.set_cursorsOut
               (s32 (WiredTigerSession._cursorsOut s + 1))
               (WiredTigerSession.set_cursors (front ++ back) s)) in *.
  assert (cacheAged L s1) as Haged1.
  { destruct Haged as [Hsorted Hold]. rewrite Hcs in Hsorted, Hold. split.
    - exact (agesAbove_remove _ _ _ _ _ Hsorted).
    - apply Forall_app in Hold as [Hf Hb]. apply Forall_app. split; [exact Hf |].
      inversion Hb; assumption. }
  destruct (releaseCursor_running_inv _ _ _ _ _ _ _ _ _ Hw Hn Hup Hrel)
    as [_ Hbody].
  assert (L < 2 ^ 64 - 1) as Hbound by (unfold INT32_MAX in HL; lia).
  destruct (releaseCursorBody_step _ _ _ _ _ _ _ _ Hbound HL Haged1 Hbody)
    as (Haged2 & _ & Hkept & _).
  destruct (releaseCursorBody_spec _ _ _ _ _ _ _ Hbody)
    as (_ & _ & _ & kept0 & gone & _ & _ & _ & _ & _ & Hs2).
  fold L in Hkept, Haged2.
  cbn [WiredTigerSession._cursors WiredTigerSession._cursorGen s1
       WiredTigerSession.set_cursorsOut WiredTigerSession.set_cursors] in Hkept.
  exists front, hit, back,
    (List.filter (fun c => age (WiredTigerSession._cursorGen s) c <? L)
       (front ++ back)).
  split; [exact Hcs |].
  split; [unfold released; rewrite Hid, Hcfg, Hcur; reflexivity |].
  split; [| split; [reflexivity | split; [| exact Haged2]]].
  - rewrite Hkept. cbn [List.filter]. rewrite age_of_new.
    destruct (Z.leb_spec 1 L) as [_ | ?]; [| lia].
    f_equal. apply List.filter_ext_in. intros e He.
    assert (age (WiredTigerSession._cursorGen s) e <= L) as Hage.
    { exact (proj1 (List.Forall_forall _ _) (proj2 Haged1) e He). }
    rewrite age_after_release by lia.
    destruct (Z.leb_spec (age (WiredTigerSession._cursorGen s) e + 1) L);
      destruct (Z.ltb_spec (age (WiredTigerSession._cursorGen s) e) L);
      reflexivity || lia.
  - rewrite Hs2. cbn [WiredTigerSession._cursorsOut s1
                       WiredTigerSession.set_cursorsOut].
    apply s32_roundtrip. exact Hout.
Qed.

Lemma getCachedCursor_releaseCursor_refreshes_witness :
  let cache := WiredTigerSessionCache.create true in
  let s := WiredTigerSession.mk 0 4096
             [mkCachedCursor 3 2 103 "cfgA"; mkCachedCursor 2 1 102 "cfgA";
              mkCachedCursor 1 0 101 "cfgA"] 3 0 Date_t_min ∅ in
  exists s1 evs s2,
    Session.getCachedCursor 2 "cfgA" s = (102, s1)
    /\ Session.releaseCursor (env_ok 3 0) 2 102 "cfgA" (cache, s1)
       = Ok (evs, (cache, s2))
    /\ map _cursor (WiredTigerSession._cursors s2) = [102; 103]
    /\ WiredTigerSession._cursorsOut s2 = 0.
Proof.
  intros cache s.
  assert (Session.releaseCursor (env_ok 3 0) 2 102 "cfgA"
            (cache, snd (Session.getCachedCursor 2 "cfgA" s))
          = Ok ([EvCursorReset 102; EvCursorClose 101],
                (cache,
                 WiredTigerSession.mk 0 4096
                   [mkCachedCursor 2 3 102 "cfgA"; mkCachedCursor 3 2 103 "cfgA"]
                   4 0 Date_t_min ∅))) as Hrel by reflexivity.
  eexists _, _, _. split; [reflexivity |]. split; [exact Hrel |].
  split; [reflexivity |].
  destruct (getCachedCursor_releaseCursor_refreshes (env_ok 3 0) 2 "cfgA" 102
              cache cache s _ _ _
              ltac:(split; discriminate) ltac:(simpl; lia) eq_refl eq_refl
              ltac:(split; repeat constructor; discriminate)
              ltac:(simpl; lia) eq_refl ltac:(discriminate) Hrel)
    as (_ & _ & _ & _ & _ & _ & _ & _ & Hout & _).
  exact Hout.
Defined.
